(** * deepfake-analyzer: trust scoring, robustness testing, batch jobs and
    the two web applications

    A shallow embedding of the Python modules
    [trust_engine/scorer.py], [trust_engine/score_fusion.py],
    [trust_engine/failure_modes.py], [trust_engine/adversarial.py],
    [trust_engine/educational.py], [trust_engine/report_generator.py],
    [utils/batch_processor.py], [utils/video_processing.py], the signal
    analysers under [signals/] and of the analysis, batch, comparison and
    report code of [main.py] and [app.py], followed by the properties proved
    about them.

    Python [float] is IEEE 754 binary64; it is modelled by Rocq's primitive
    [float], which is the same format with the same rounding, so every
    arithmetic expression below is written exactly as the source writes it.
    Python dictionaries used as maps are [gmap]s, mutable objects that are
    shared between a caller and the code live in an explicit store. *)

From Stdlib Require Import ZArith Floats Lia String Ascii.
From stdpp Require Import base option list gmap strings.

Set Warnings "-inexact-float,-register-all".

(* ===================================================================== *)
(** * Part I: the model                                                   *)
(* ===================================================================== *)

(** ** Python values and exceptions *)

Module Py.

(** The values that travel through the batch processor: file descriptions,
    analysis results, error messages. Dictionaries keep insertion order and
    are keyed by strings, which is all the modelled code uses. *)
Inductive pyval :=
| VNone
| VBool (b : bool)
| VInt (z : Z)
| VFloat (f : float)
| VStr (s : string)
| VList (items : list pyval)
| VDict (entries : list (string * pyval)).

(** [bool(v)]: the truth value Python's [if v:] tests. *)
Definition truthy (v : pyval) : bool :=
  match v with
  | VNone => false
  | VBool b => b
  | VInt z => negb (z =? 0)%Z
  | VFloat f => negb (f =? 0)%float
  | VStr s => negb (String.eqb s "")
  | VList items => match items with [] => false | _ :: _ => true end
  | VDict entries => match entries with [] => false | _ :: _ => true end
  end.

(** [isinstance(v, dict)]. *)
Definition is_dict (v : pyval) : bool :=
  match v with VDict _ => true | _ => false end.

(** [d.get(key, default)] on the entries of a dictionary. *)
Fixpoint dict_get {A} (entries : list (string * A)) (key : string) (default : A) : A :=
  match entries with
  | [] => default
  | (k, v) :: rest => if String.eqb k key then v else dict_get rest key default
  end.

(** [key in d]. *)
Fixpoint dict_has {A} (entries : list (string * A)) (key : string) : bool :=
  match entries with
  | [] => false
  | (k, _) :: rest => String.eqb k key || dict_has rest key
  end.

(** An exception object: its class and what [str(e)] returns. *)
Record pyexn := PyExn { exn_class : string; exn_str : string }.

(** [isinstance(e, Exception)]: what [except Exception] catches. The
    classes of Python that derive from [BaseException] and not from
    [Exception] are listed; any other class is one of [Exception], as every
    exception of the modelled code and of the libraries it calls is. *)
Definition is_Exception (e : pyexn) : bool :=
  negb (existsb (String.eqb (exn_class e))
          ["BaseException"; "SystemExit"; "KeyboardInterrupt"; "GeneratorExit";
           "BaseExceptionGroup"; "CancelledError"; "asyncio.CancelledError"]%string).

(** [repr(s)] for a string, which is what [str] of a [KeyError] shows of
    its key: between apostrophes, or between double quotes when the text
    has an apostrophe and no double quote; the quote in use and the
    backslash are escaped, tab, newline and carriage return are written
    [\t], [\n], [\r] and the other control characters [\xhh]. Bytes
    from 128 up belong to UTF-8 text, which is taken to be printable and is
    left as it is. *)
Definition double_quote : ascii := ascii_of_nat 34.

Fixpoint has_char (c : ascii) (s : string) : bool :=
  match s with
  | EmptyString => false
  | String c' rest => Ascii.eqb c' c || has_char c rest
  end.

Definition hex_digit (n : nat) : ascii :=
  nth n (list_ascii_of_string "0123456789abcdef") "0"%char.

Definition repr_char (quote c : ascii) : string :=
  let n := nat_of_ascii c in
  if Ascii.eqb c quote || (n =? 92)%nat then String "\" (String c "")
  else if (n =? 9)%nat then "\t"
  else if (n =? 10)%nat then "\n"
  else if (n =? 13)%nat then "\r"
  else if (n <? 32)%nat || (n =? 127)%nat then
    String "\" (String "x" (String (hex_digit (n / 16)) (String (hex_digit (n mod 16)) "")))
  else String c "".

Fixpoint repr_chars (quote : ascii) (s : string) : string :=
  match s with
  | EmptyString => EmptyString
  | String c rest => repr_char quote c +:+ repr_chars quote rest
  end.

Definition repr_str (s : string) : string :=
  let quote :=
    if has_char "'" s && negb (has_char double_quote s) then double_quote else "'"%char in
  String quote (repr_chars quote s +:+ String quote "").

(** The exceptions the modelled code raises. [str] of a [KeyError] is the
    [repr] of its key. *)
Definition KeyError (key : string) : pyexn := PyExn "KeyError" (repr_str key).
Definition IndexError : pyexn := PyExn "IndexError" "list index out of range".
Definition TypeError (msg : string) : pyexn := PyExn "TypeError" msg.
Definition ZeroDivisionError : pyexn := PyExn "ZeroDivisionError" "division by zero".

(** [l[i]] with Python's negative indices; [None] stands for [IndexError]. *)
Definition list_index {A} (l : list A) (i : Z) : option A :=
  let n := Z.of_nat (length l) in
  if (0 <=? i)%Z then l !! Z.to_nat i
  else if (- n <=? i)%Z then l !! Z.to_nat (n + i)
  else None.

(** [sep.join(parts)]. *)
Fixpoint join (sep : string) (parts : list string) : string :=
  match parts with
  | [] => ""
  | [p] => p
  | p :: rest => p +:+ sep +:+ join sep rest
  end.

(** [s.lower()] and [s.capitalize()] on ASCII text. *)
Definition upper (c : ascii) : ascii :=
  let n := nat_of_ascii c in
  if ((97 <=? n) && (n <=? 122))%nat then ascii_of_nat (n - 32) else c.
Definition lower (c : ascii) : ascii :=
  let n := nat_of_ascii c in
  if ((65 <=? n) && (n <=? 90))%nat then ascii_of_nat (n + 32) else c.
Fixpoint lower_all (s : string) : string :=
  match s with
  | EmptyString => EmptyString
  | String c rest => String (lower c) (lower_all rest)
  end.
Definition capitalize (s : string) : string :=
  match s with
  | EmptyString => EmptyString
  | String c rest => String (upper c) (lower_all rest)
  end.

(** Python's comparison operators on floats, as the source spells them:
    [x > y] is IEEE "y less than x", false when either side is NaN. *)
Definition gtb (x y : float) : bool := (y <? x)%float.
Definition geb (x y : float) : bool := (y <=? x)%float.

(** [min(a, b)] on floats: Python returns [b] only when [b < a]. *)
Definition min2 (a b : float) : float := if (b <? a)%float then b else a.
(** [max(a, b)] on floats: Python returns [b] only when [b > a]. *)
Definition max2 (a b : float) : float := if gtb b a then b else a.

(** [float(n)] for an integer: the nearest binary64. *)
Definition float_of_Z (n : Z) : float :=
  SF2Prim (binary_normalize prec emax n 0 false).

(** [int(x)] for a float: truncation toward zero. On NaN and the infinities
    Python raises; the model returns 0 there. The only floats the modelled
    code converts are an array dimension times a constant below 1, and a
    dimension is a machine index, far below the float range. *)
Definition int_of_float (x : float) : Z :=
  match Prim2SF x with
  | S754_zero _ => 0%Z
  | S754_finite s m e =>
      let mag := if (0 <=? e)%Z then (Z.pos m * 2 ^ e)%Z else (Z.pos m / 2 ^ (- e))%Z in
      if s then (- mag)%Z else mag
  | S754_infinity _ | S754_nan => 0%Z
  end.

(** A Python number: the attack parameters are integers or floats. *)
Inductive num := NInt (z : Z) | NFloat (f : float).

(** [int(n * x)] for an integer [n] and a number [x]. *)
Definition int_mul (n : Z) (x : num) : Z :=
  match x with
  | NInt k => (n * k)%Z
  | NFloat f => int_of_float (float_of_Z n * f)%float
  end.

(** The name of the type of a value, as error messages print it. *)
Definition type_name (v : pyval) : string :=
  match v with
  | VNone => "NoneType"
  | VBool _ => "bool"
  | VInt _ => "int"
  | VFloat _ => "float"
  | VStr _ => "str"
  | VList _ => "list"
  | VDict _ => "dict"
  end.

Definition ValueError (msg : string) : pyexn := PyExn "ValueError" msg.
Definition OverflowError (msg : string) : pyexn := PyExn "OverflowError" msg.

(** An expression that raises ends the computation it is part of. *)
Definition and_then {A B} (c : pyexn + A) (k : A -> pyexn + B) : pyexn + B :=
  match c with
  | inl e => inl e
  | inr a => k a
  end.

(** [d[key]] for a string key: [KeyError] on a dictionary without the key,
    [TypeError] on a value that is no dictionary (the messages are those of
    CPython 3.11). *)
Definition getitem (d : pyval) (key : string) : pyexn + pyval :=
  match d with
  | VDict entries =>
      if dict_has entries key then inr (dict_get entries key VNone)
      else inl (KeyError key)
  | VStr _ => inl (TypeError "string indices must be integers, not 'str'")
  | VList _ => inl (TypeError "list indices must be integers or slices, not str")
  | _ => inl (TypeError ("'" +:+ type_name d +:+ "' object is not subscriptable"))
  end.

(** A value on the left of a comparison [v op c] with a float [c]. A float
    is compared as it is; an integer or a truth value is compared exactly,
    which for the bounds of the modelled code (all between 0 and 1) is the
    comparison of its nearest float, rounding being monotone; anything else
    raises [TypeError]. *)
Definition compared (op : string) (v : pyval) : pyexn + float :=
  match v with
  | VFloat f => inr f
  | VInt z => inr (float_of_Z z)
  | VBool b => inr (float_of_Z (if b then 1 else 0))
  | _ =>
      inl (TypeError ("'" +:+ op +:+ "' not supported between instances of '"
                      +:+ type_name v +:+ "' and 'float'"))
  end.

(** A value on the left of an arithmetic operation [v op c] with a float
    [c]: an integer is converted to the nearest float, and one too large
    for a float raises [OverflowError]. *)
Definition operand (op : string) (v : pyval) : pyexn + float :=
  match v with
  | VFloat f => inr f
  | VInt z =>
      if is_infinity (float_of_Z z)
      then inl (OverflowError "int too large to convert to float")
      else inr (float_of_Z z)
  | VBool b => inr (float_of_Z (if b then 1 else 0))
  | _ =>
      inl (TypeError ("unsupported operand type(s) for " +:+ op +:+ ": '"
                      +:+ type_name v +:+ "' and 'float'"))
  end.

(** The values [json.dumps(v, allow_nan=False)] writes: it raises
    [ValueError] on a float that is NaN or an infinity, wherever in the
    value it stands. With [allow_nan=True], the default, every value of
    [pyval] is written. *)
Fixpoint json_compliant (v : pyval) : bool :=
  match v with
  | VFloat f => is_finite f
  | VList items => forallb json_compliant items
  | VDict entries => forallb (fun entry => json_compliant entry.2) entries
  | _ => true
  end.

(** [needle in haystack] for two strings. *)
Fixpoint starts_with (prefix s : string) : bool :=
  match prefix, s with
  | EmptyString, _ => true
  | String a prefix', String b s' => Ascii.eqb a b && starts_with prefix' s'
  | String _ _, EmptyString => false
  end.

Fixpoint contains (needle haystack : string) : bool :=
  starts_with needle haystack ||
  match haystack with
  | EmptyString => false
  | String _ rest => contains needle rest
  end.


End Py.

Export Py.

Notation "'let?' x ':=' c 'in' k" := (and_then c (fun x => k))
  (at level 10, x name, c at level 200, k at level 200, only parsing).


(** ** trust_engine/scorer.py *)

Module Scorer.

Local Open Scope float_scope.

(** The [weights] dictionary of [trust_score]. *)
Definition weights (signal : string) : float :=
  if String.eqb signal "vision" then 0.4
  else if String.eqb signal "audio" then 0.3
  else 0.3.

(** Lines 31-35: the weighted sum, in the source's order of operations. *)
Definition raw_score (vision audio temporal : float) : float :=
  vision * weights "vision" + audio * weights "audio" + temporal * weights "temporal".

(** Lines 85-92: the insights appended to the reason, temporal first. *)
Definition signal_insights (vision audio temporal : float) : list string :=
  (if temporal <? 0.4 then ["high temporal inconsistency"%string] else []) ++
  (if vision <? 0.4 then ["visual artifacts detected"%string] else []) ++
  (if audio <? 0.4 then ["synthetic audio characteristics"%string] else []).

(** [trust_score(vision, audio, temporal, quality)]: the triple
    [(adjusted_score, decision, reason)]. *)
Definition trust_score (vision audio temporal quality : float)
  : float * string * string :=
  let raw := raw_score vision audio temporal in
  let '(adjusted_score, decision, reason) :=
    if quality <? 0.3 then
      (raw * 0.4, "Ambiguous"%string,
       "Very Low Quality Input - Cannot Make Reliable Assessment"%string)
    else if quality <? 0.5 then
      (raw * 0.6, "Ambiguous"%string,
       "Low Quality Input - Limited Confidence"%string)
    else if quality <? 0.7 then
      let adjusted := raw * 0.85 in
      if gtb adjusted 0.65 then
        (adjusted, "Likely Real"%string,
         "Moderate Quality - Signals Indicate Real Content"%string)
      else if adjusted <? 0.35 then
        (adjusted, "Likely Fake"%string,
         "Moderate Quality - Multiple Suspicious Signals"%string)
      else
        (adjusted, "Ambiguous"%string, "Moderate Quality - Mixed Signals"%string)
    else
      let adjusted := raw in
      if gtb adjusted 0.7 then
        (adjusted, "Real"%string, "High Quality Input - Strong Real Signals"%string)
      else if adjusted <? 0.3 then
        (adjusted, "Fake"%string, "High Quality Input - Strong Deepfake Signals"%string)
      else if gtb adjusted 0.55 then
        (adjusted, "Likely Real"%string, "Good Quality - Signals Lean Toward Real"%string)
      else if adjusted <? 0.45 then
        (adjusted, "Likely Fake"%string, "Good Quality - Signals Lean Toward Fake"%string)
      else
        (adjusted, "Ambiguous"%string,
         "Good Quality - Balanced Signals, Cannot Determine"%string) in
  let insights := signal_insights vision audio temporal in
  let reason :=
    match insights with
    | [] => reason
    | _ :: _ => reason +:+ " (" +:+ join ", " insights +:+ ")"
    end in
  (adjusted_score, decision, reason).

Definition score_of (r : float * string * string) : float := r.1.1.
Definition decision_of (r : float * string * string) : string := r.1.2.
Definition reason_of (r : float * string * string) : string := r.2.

Section Report.

(** [round(x, 2)] is Python's correctly rounded decimal rounding; the report
    only passes numbers through it, so it is a parameter here. *)
Variable round2 : float -> float.

(** [generate_report] of scorer.py: the dictionary it builds, key by key. *)
Definition generate_report
    (vision_data audio_data temporal_data quality_data : list (string * float))
    (final_score : float) (decision reason : string) : list (string * pyval) :=
  let num (d : list (string * float)) (k : string) :=
    VFloat (round2 (dict_get d k 0.5)) in
  [ ("trust_score"%string, VFloat (round2 final_score));
    ("decision"%string, VStr decision);
    ("reason"%string, VStr reason);
    ("signals"%string, VDict
       [ ("vision"%string, VDict
            [ ("score"%string, num vision_data "combined"%string);
              ("artifact_detection"%string, num vision_data "artifact_score"%string);
              ("edge_consistency"%string, num vision_data "edge_consistency"%string) ]);
         ("audio"%string, VDict
            [ ("score"%string, num audio_data "combined"%string);
              ("spectral_flatness"%string, num audio_data "flatness"%string);
              ("spectral_rolloff"%string, num audio_data "rolloff"%string);
              ("zero_crossing_rate"%string, num audio_data "zcr"%string) ]);
         ("temporal"%string, VDict
            [ ("score"%string, num temporal_data "combined"%string);
              ("consistency"%string, num temporal_data "consistency"%string);
              ("variance"%string, num temporal_data "variance"%string);
              ("optical_flow"%string, num temporal_data "optical_flow"%string) ]) ]);
    ("quality_assessment"%string, VDict
       [ ("overall"%string, num quality_data "overall"%string);
         ("compression"%string, num quality_data "compression"%string);
         ("blocking_artifacts"%string, num quality_data "blocking"%string);
         ("noise_level"%string, num quality_data "noise"%string);
         ("resolution"%string, num quality_data "resolution"%string) ]) ].

End Report.

End Scorer.

(** ** Properties checked by running through a range

    [check_range P lo len] evaluates [P] at every integer from [lo] up to,
    but not including, [lo + len]. *)

Module Enumeration.

Fixpoint check_range (P : Z -> bool) (lo : Z) (len : positive) : bool :=
  match len with
  | xH => P lo
  | xO half => check_range P lo half && check_range P (lo + Z.pos half) half
  | xI half =>
      P lo && check_range P (lo + 1) half && check_range P (lo + 1 + Z.pos half) half
  end.

End Enumeration.


(** ** Image primitives of OpenCV and NumPy

    The feature extractors are outside the modelled core: each OpenCV or
    NumPy call the quality functions make is an operation of this interface,
    named after the call. [Image] is the content of one frame (an ndarray). *)

Class ImageOps := {
  Image : Type;
  (** [frame.shape[:2]]: height and width. *)
  shape : Image -> Z * Z;
  (** [cv2.cvtColor(frame, cv2.COLOR_BGR2GRAY)]. *)
  cvtColor_gray : Image -> Image;
  (** [cv2.Laplacian(gray, cv2.CV_64F).var()]. *)
  laplacian_var : Image -> float;
  (** [np.std(a)], [np.var(a)], [np.mean(a)] and [a.mean()] of an array. *)
  np_std : Image -> float;
  np_var : Image -> float;
  np_mean : Image -> float;
  (** [float(gray[i, :].mean())]. *)
  row_mean : Image -> Z -> float;
  (** [cv2.Canny(frame, 100, 200)]. *)
  canny : Image -> Image;
  (** [np.sqrt(gx**2 + gy**2)] of the two [cv2.Sobel] gradients of [gray]. *)
  sobel_magnitude : Image -> Image;
  (** [cv2.absdiff(gray, cv2.medianBlur(gray, 5))]. *)
  median_residual : Image -> Image;
  (** [np.mean(xs)] and [np.std(xs)] of a Python list of floats. *)
  np_mean_list : list float -> float;
  np_std_list : list float -> float
}.

(** ** trust_engine/score_fusion.py *)

Module ScoreFusion.

Local Open Scope float_scope.

Section WithImages.
Context `{ImageOps}.

(** Lines 40-42: [for i in range(8, h, 8): block_diff += ...], the rows
    8, 16, ... below [h]. *)
Definition block_rows (h : Z) : list Z :=
  List.filter (fun i => (i <? h)%Z)
    (List.map (fun k => (8 * Z.of_nat (S k))%Z) (seq 0 (Z.to_nat (h / 8)))).

Definition block_diff (gray : Image) (h : Z) : float :=
  fold_left (fun acc i => acc + abs (row_mean gray (i - 1) - row_mean gray i))
    (block_rows h) 0.

(** [assess_quality(frames)]: a dictionary of quality metrics. *)
Definition assess_quality (frames : list Image) : list (string * float) :=
  match frames with
  | [] => [("overall"%string, 0.5)]
  | first :: _ =>
      let frame := nth (length frames / 2) frames first in
      let '(height, width) := shape frame in
      let resolution_score :=
        min2 1.0 (float_of_Z (width * height) / float_of_Z (1280 * 720)) in
      let gray := cvtColor_gray frame in
      let compression_score := min2 1.0 (laplacian_var gray / 500) in
      let noise := np_std gray / 255.0 in
      let noise_score := 1.0 - min2 1.0 (noise * 3) in
      let '(h, w) := shape gray in
      let blocking_score :=
        1.0 - min2 1.0 (block_diff gray h / (float_of_Z h / 8) / 10) in
      let overall :=
        0.3 * resolution_score + 0.3 * compression_score
        + 0.2 * noise_score + 0.2 * blocking_score in
      [ ("overall"%string, overall);
        ("resolution"%string, resolution_score);
        ("compression"%string, compression_score);
        ("noise"%string, noise_score);
        ("blocking"%string, blocking_score) ]
  end.

(** [signals.get(name, {}).get("score", 0.5)]. *)
Definition signal_score (signals : list (string * list (string * float)))
    (name : string) : float :=
  dict_get (dict_get signals name []) "score" 0.5.

(** [calculate_trust_score(signals)]: the weighted score and the
    consistency-based quality dictionary. *)
Definition calculate_trust_score (signals : list (string * list (string * float)))
  : float * list (string * float) :=
  let vision_score := signal_score signals "vision" in
  let audio_score := signal_score signals "audio" in
  let temporal_score := signal_score signals "temporal" in
  let trust_score := vision_score * 0.4 + audio_score * 0.3 + temporal_score * 0.3 in
  let consistency := 1.0 - np_std_list [vision_score; audio_score; temporal_score] in
  (trust_score,
   [("overall"%string, consistency); ("signal_consistency"%string, consistency)]).

End WithImages.

(** Lines 106-120 of [generate_report]: decision and confidence from the
    trust score. *)
Definition decide_band (trust_score : float) : string * string :=
  if geb trust_score 0.7 then ("Likely Real"%string, "high"%string)
  else if geb trust_score 0.55 then ("Possibly Real"%string, "medium"%string)
  else if geb trust_score 0.45 then ("Ambiguous"%string, "low"%string)
  else if geb trust_score 0.3 then ("Possibly Fake"%string, "medium"%string)
  else ("Likely Fake"%string, "high"%string).

(** Lines 123-147: the reasons collected from the three signal scores. *)
Definition report_reasons (signals : list (string * list (string * float)))
  : list string :=
  let vision_score := signal_score signals "vision" in
  let audio_score := signal_score signals "audio" in
  let temporal_score := signal_score signals "temporal" in
  let reasons :=
    (if vision_score <? 0.4 then ["visual artifacts detected"%string]
     else if gtb vision_score 0.7 then ["clean visual quality"%string] else []) ++
    (if audio_score <? 0.4 then ["synthetic audio patterns"%string]
     else if gtb audio_score 0.7 then ["natural audio characteristics"%string] else []) ++
    (if temporal_score <? 0.4 then ["temporal inconsistencies"%string]
     else if gtb temporal_score 0.7 then ["stable temporal patterns"%string] else []) in
  match reasons with
  | [] => ["mixed signals across analysis"%string]
  | _ :: _ => reasons
  end.

(** The dictionary [generate_report] returns. *)
Record report := Report {
  decision : string;
  confidence : string;
  reason : string
}.

(** [generate_report(trust_score, signals, quality_assessment)]. The quality
    assessment is a parameter of the source function and is never read. *)
Definition generate_report (trust_score : float)
    (signals : list (string * list (string * float)))
    (quality_assessment : list (string * float)) : report :=
  let '(decision, confidence) := decide_band trust_score in
  {| decision := decision;
     confidence := confidence;
     reason := capitalize (join "; " (report_reasons signals)) |}.

End ScoreFusion.

(** ** trust_engine/failure_modes.py *)

Module FailureModes.

Local Open Scope float_scope.

Section WithImages.
Context `{ImageOps}.

(** [compression_level(frame)]. *)
Definition compression_level (frame : Image) : float :=
  let edges := canny frame in
  let edge_density := np_mean edges / 255.0 in
  if geb edge_density 0.15 then 1.0 else edge_density / 0.15.

(** [blocking_artifacts(frame)]. *)
Definition blocking_artifacts (frame : Image) : float :=
  let gray := cvtColor_gray frame in
  let gradient_magnitude := sobel_magnitude gray in
  let variance := np_var gradient_magnitude in
  1.0 - min2 1.0 (variance / 10000).

(** [noise_level(frame)]. *)
Definition noise_level (frame : Image) : float :=
  let gray := cvtColor_gray frame in
  let noise := median_residual gray in
  let level := np_mean noise in
  if level <=? 10 then 1.0 else max2 0.0 (1.0 - (level - 10) / 20).

(** [resolution_quality(frame)]. *)
Definition resolution_quality (frame : Image) : float :=
  let '(height, width) := shape frame in
  let pixels := (height * width)%Z in
  if (1280 * 720 <=? pixels)%Z then 1.0
  else if (640 * 480 <=? pixels)%Z then 0.7
  else max2 0.3 (float_of_Z pixels / float_of_Z (640 * 480)).

(** [frames[::step]]: every [step]-th frame, from the first. *)
Fixpoint every_nth {A} (fuel : nat) (step : nat) (l : list A) : list A :=
  match fuel, l with
  | S fuel', x :: _ => x :: every_nth fuel' step (drop step l)
  | _, _ => []
  end.

(** Line 147: [frames[::max(1, len(frames) // 5)][:5]]. *)
Definition sample_frames {A} (frames : list A) : list A :=
  take 5 (every_nth (length frames) (Nat.max 1 (length frames / 5)) frames).

(** The dictionary [analyze_quality] returns. *)
Record quality := Quality {
  compression : float;
  blocking : float;
  noise : float;
  resolution : float;
  overall : float
}.

(** [analyze_quality(frames)]. *)
Definition analyze_quality (frames : list Image) : quality :=
  match frames with
  | [] =>
      {| compression := 0.0; blocking := 0.0; noise := 0.0;
         resolution := 0.0; overall := 0.0 |}
  | _ :: _ =>
      let sample := sample_frames frames in
      let compression := np_mean_list (List.map compression_level sample) in
      let blocking := np_mean_list (List.map blocking_artifacts sample) in
      let noise := np_mean_list (List.map noise_level sample) in
      let resolution := np_mean_list (List.map resolution_quality sample) in
      let overall :=
        0.3 * compression + 0.2 * blocking + 0.2 * noise + 0.3 * resolution in
      {| compression := compression; blocking := blocking; noise := noise;
         resolution := resolution; overall := overall |}
  end.

End WithImages.

End FailureModes.

(** ** trust_engine/adversarial.py *)

Module Adversarial.

(** Frames are NumPy arrays and the frame sequence is a Python list: both
    are mutable objects the caller keeps a reference to, so they live in a
    store and the code handles their addresses. *)
Abbreviation addr := positive.

(** The OpenCV and NumPy calls of the attacks, as operations on array
    contents, and the state of NumPy's global random generator. The calls
    are given frames that are not empty; the size [cv2.resize] is asked for
    is checked where it is called, see [cv2_resize]. *)
Class ArrayOps := {
  Array : Type;
  Rng : Type;
  (** [frame.shape[:2]]: height and width. *)
  array_shape : Array -> Z * Z;
  (** [cv2.imencode('.jpg', frame, [int(cv2.IMWRITE_JPEG_QUALITY), quality])[1]]. *)
  imencode_jpg : Array -> num -> Array;
  (** [cv2.imdecode(encoded, cv2.IMREAD_COLOR)]. *)
  imdecode_color : Array -> Array;
  (** [np.random.normal(0, sigma, frame.shape)]: a sample of the shape of
      [frame], and the next state of the generator. *)
  random_normal : num -> Array -> Rng -> Array * Rng;
  (** [np.random.randint(low, high)]. *)
  random_randint : num -> num -> Rng -> Z * Rng;
  (** [a.astype(np.float32)], [a + b], [np.clip(a, 0, 255).astype(np.uint8)]. *)
  astype_float32 : Array -> Array;
  array_add : Array -> Array -> Array;
  clip_uint8 : Array -> Array;
  (** [cv2.GaussianBlur(frame, (k, k), 0)]. *)
  gaussian_blur : Array -> num -> Array;
  (** [cv2.resize(a, (w, h))]. *)
  resize : Array -> Z -> Z -> Array;
  (** The content of the slice [a[r0:r1, c0:c1]]. *)
  slice : Array -> Z -> Z -> Z -> Z -> Array;
  (** [cv2.split(frame)] (channel [i]) and [cv2.merge([b, g, r])]. *)
  split_channel : Array -> nat -> Array;
  merge_channels : Array -> Array -> Array -> Array;
  (** [np.clip(c.astype(np.int16) + k, 0, 255).astype(np.uint8)]. *)
  shift_clip : Array -> Z -> Array
}.

Section WithArrays.
Context `{ArrayOps}.
(** The private state of the caller's scoring function. *)
Context {U : Type}.

Inductive pyobj :=
| ONdarray (a : Array)
| OList (items : list addr).

Record world := World {
  heap : gmap addr pyobj;
  rng : Rng;
  user : U
}.

Definition set_heap (h : gmap addr pyobj) (w : world) : world :=
  {| heap := h; rng := rng w; user := user w |}.
Definition set_rng (r : Rng) (w : world) : world :=
  {| heap := heap w; rng := r; user := user w |}.
Definition set_user (u : U) (w : world) : world :=
  {| heap := heap w; rng := rng w; user := u |}.

(** Computations that read and update the world and may raise. *)
Definition M (A : Type) : Type := world -> (pyexn + A) * world.

Definition ret {A} (a : A) : M A := fun w => (inr a, w).
Definition raise {A} (e : pyexn) : M A := fun w => (inl e, w).
Definition bind {A B} (c : M A) (k : A -> M B) : M B :=
  fun w => match c w with
           | (inl e, w') => (inl e, w')
           | (inr a, w') => k a w'
           end.

End WithArrays.

Notation "'let*' x ':=' c 'in' k" := (bind c (fun x => k))
  (at level 10, x name, c at level 200, k at level 200, only parsing).

Section Attacks.
Context `{ArrayOps}.
Context {U : Type}.

Abbreviation M := (@M _ U).

(** A new object: Python allocates it at an address not in use. *)
Definition alloc (o : pyobj) : M addr :=
  fun w => let a := fresh (dom (heap w)) in
           (inr a, set_heap (<[a := o]> (heap w)) w).

(** The content of the array at [a]; anything else is not a frame. *)
Definition read_array (a : addr) : M Array :=
  fun w => match heap w !! a with
           | Some (ONdarray x) => (inr x, w)
           | _ => (inl (TypeError "not an array"), w)
           end.

(** The items of the list at [l]. *)
Definition read_list (l : addr) : M (list addr) :=
  fun w => match heap w !! l with
           | Some (OList items) => (inr items, w)
           | _ => (inl (TypeError "not a list"), w)
           end.

(** [l.append(x)]: the list at [l] is updated in place. *)
Definition list_append (l x : addr) : M unit :=
  fun w => match heap w !! l with
           | Some (OList items) =>
               (inr tt, set_heap (<[l := OList (items ++ [x])]> (heap w)) w)
           | _ => (inl (TypeError "not a list"), w)
           end.

(** A draw from NumPy's global generator. *)
Definition draw {A} (sample : Rng -> A * Rng) : M A :=
  fun w => let '(x, r) := sample (rng w) in (inr x, set_rng r w).

(** [add_compression_artifacts(frame, quality)]. *)
Definition add_compression_artifacts (frame : addr) (quality : num) : M addr :=
  let* f := read_array frame in
  let encoded := imencode_jpg f quality in
  let compressed := imdecode_color encoded in
  alloc (ONdarray compressed).

(** [add_gaussian_noise(frame, sigma)]. *)
Definition add_gaussian_noise (frame : addr) (sigma : num) : M addr :=
  let* f := read_array frame in
  let* sample := draw (random_normal sigma f) in
  let noise := astype_float32 sample in
  let noisy := array_add (astype_float32 f) noise in
  let noisy := clip_uint8 noisy in
  alloc (ONdarray noisy).

(** [add_blur(frame, kernel_size)]. *)
Definition add_blur (frame : addr) (kernel_size : num) : M addr :=
  let* f := read_array frame in
  alloc (ONdarray (gaussian_blur f kernel_size)).

(** [cv2.resize(a, (w, h))]. OpenCV refuses a target size whose width or
    height is not positive with [cv2.error]; the text of the message names
    the failed assertion and varies with the version of the library. An
    empty source is refused as well; in the two attacks that resize, the
    target sizes are computed from the shape of the frame, and an empty
    frame gives a target that is refused already. *)
Definition cv2_error : pyexn :=
  PyExn "cv2.error" "(-215:Assertion failed) in function 'resize'".

Definition cv2_resize (a : Array) (w h : Z) : M Array :=
  if (0 <? w)%Z && (0 <? h)%Z then ret (resize a w h) else raise cv2_error.

(** [resize_and_upscale(frame, scale)]. *)
Definition resize_and_upscale (frame : addr) (scale : num) : M addr :=
  let* f := read_array frame in
  let '(h, w) := array_shape f in
  let* small := cv2_resize f (int_mul w scale) (int_mul h scale) in
  let* restored := cv2_resize small w h in
  alloc (ONdarray restored).

(** [crop_and_pad(frame, crop_percent)]. The slice is a view of the frame
    that is only read: [cv2.resize] returns a new array. *)
Definition crop_and_pad (frame : addr) (crop_percent : num) : M addr :=
  let* f := read_array frame in
  let '(h, w) := array_shape f in
  let crop_h := int_mul h crop_percent in
  let crop_w := int_mul w crop_percent in
  let cropped := slice f crop_h (h - crop_h) crop_w (w - crop_w) in
  let* padded := cv2_resize cropped w h in
  alloc (ONdarray padded).

(** [-n] for a number. *)
Definition num_opp (n : num) : num :=
  match n with NInt z => NInt (- z) | NFloat f => NFloat (- f)%float end.

(** [add_color_shift(frame, shift_amount)]. *)
Definition add_color_shift (frame : addr) (shift_amount : num) : M addr :=
  let* f := read_array frame in
  let* kb := draw (random_randint (num_opp shift_amount) shift_amount) in
  let b := shift_clip (split_channel f 0) kb in
  let* kg := draw (random_randint (num_opp shift_amount) shift_amount) in
  let g := shift_clip (split_channel f 1) kg in
  let* kr := draw (random_randint (num_opp shift_amount) shift_amount) in
  let r := shift_clip (split_channel f 2) kr in
  alloc (ONdarray (merge_channels b g r)).

(** One row of the [intensity_params] table; [None] is a missing key. *)
Definition intensity_row (low medium high : num) (intensity : string) : option num :=
  if String.eqb intensity "low" then Some low
  else if String.eqb intensity "medium" then Some medium
  else if String.eqb intensity "high" then Some high
  else None.

(** The [intensity_params] table. *)
Definition intensity_params (attack_type : string) : option (string -> option num) :=
  if String.eqb attack_type "compression" then
    Some (intensity_row (NInt 80) (NInt 50) (NInt 20))
  else if String.eqb attack_type "noise" then
    Some (intensity_row (NInt 10) (NInt 25) (NInt 50))
  else if String.eqb attack_type "blur" then
    Some (intensity_row (NInt 3) (NInt 5) (NInt 9))
  else if String.eqb attack_type "resolution" then
    Some (intensity_row (NFloat 0.8) (NFloat 0.5) (NFloat 0.3))
  else if String.eqb attack_type "crop" then
    Some (intensity_row (NFloat 0.1) (NFloat 0.2) (NFloat 0.35))
  else if String.eqb attack_type "color" then
    Some (intensity_row (NInt 10) (NInt 20) (NInt 40))
  else None.

(** Lines 141-154: the attack applied to one frame. *)
Definition attack_frame (attack_type : string) (param : num) (frame : addr) : M addr :=
  if String.eqb attack_type "compression" then add_compression_artifacts frame param
  else if String.eqb attack_type "noise" then add_gaussian_noise frame param
  else if String.eqb attack_type "blur" then add_blur frame param
  else if String.eqb attack_type "resolution" then resize_and_upscale frame param
  else if String.eqb attack_type "crop" then crop_and_pad frame param
  else if String.eqb attack_type "color" then add_color_shift frame param
  else ret frame.

(** Lines 140-156: the loop over the frames, appending to [attacked_frames]. *)
Fixpoint attack_loop (attack_type : string) (param : num) (attacked_frames : addr)
    (frames : list addr) : M unit :=
  match frames with
  | [] => ret tt
  | frame :: rest =>
      let* attacked := attack_frame attack_type param frame in
      let* _ := list_append attacked_frames attacked in
      attack_loop attack_type param attacked_frames rest
  end.

(** [apply_adversarial_attack(frames, attack_type, intensity)]. *)
Definition apply_adversarial_attack (frames : addr) (attack_type intensity : string)
  : M addr :=
  match intensity_params attack_type with
  | None => raise (KeyError attack_type)
  | Some row =>
      match row intensity with
      | None => raise (KeyError intensity)
      | Some param =>
          let* attacked_frames := alloc (OList []) in
          let* items := read_list frames in
          let* looped := attack_loop attack_type param attacked_frames items in
          ret attacked_frames
      end
  end.

(** The caller's scoring function: it is handed the frame list, may read
    the store, keeps a state of its own, and returns a score or raises. *)
Definition scorer := gmap addr pyobj -> addr -> U -> (pyexn + float) * U.

Definition call (analyze_function : scorer) (frames : addr) : M float :=
  fun w => let '(r, u) := analyze_function (heap w) frames (user w) in
           (r, set_user u w).

(** Lines 172-180: the catalog. *)
Definition attacks : list (string * string) :=
  [ ("compression", "low"); ("compression", "medium"); ("compression", "high");
    ("noise", "medium"); ("blur", "medium"); ("resolution", "medium");
    ("crop", "medium") ]%string.

(** One entry of [results['attacks']]. *)
Record attack_result := AttackResult {
  score : float;
  degradation : float
}.

(** The [results] dictionary. *)
Record robustness := Robustness {
  original : float;
  attack_results : gmap string attack_result
}.

(** Lines 188-195: the body of the loop for one catalog entry. *)
Definition run_attack (frames : addr) (analyze_function : scorer)
    (results : robustness) (attack : string * string) : M robustness :=
  let '(attack_type, intensity) := attack in
  let* attacked_frames := apply_adversarial_attack frames attack_type intensity in
  let* score := call analyze_function attacked_frames in
  let attack_name := attack_type +:+ "_" +:+ intensity in
  ret {| original := original results;
         attack_results :=
           <[attack_name := {| score := score;
                               degradation := abs (original results - score) |}]>
             (attack_results results) |}.

Fixpoint run_attacks (frames : addr) (analyze_function : scorer)
    (results : robustness) (catalog : list (string * string)) : M robustness :=
  match catalog with
  | [] => ret results
  | attack :: rest =>
      let* results' := run_attack frames analyze_function results attack in
      run_attacks frames analyze_function results' rest
  end.

(** [test_robustness(frames, analyze_function)]. *)
Definition test_robustness (frames : addr) (analyze_function : scorer) : M robustness :=
  let* original_score := call analyze_function frames in
  run_attacks frames analyze_function
    {| original := original_score; attack_results := ∅ |} attacks.

(** *** What the properties speak about *)


(** A frame sequence in the store: a list object whose items are arrays. *)
Definition is_array (h : gmap addr pyobj) (a : addr) : bool :=
  match h !! a with Some (ONdarray _) => true | _ => false end.

Definition valid_frames (h : gmap addr pyobj) (frames : addr) : bool :=
  match h !! frames with
  | Some (OList items) => forallb (is_array h) items
  | _ => false
  end.

(** A frame an attack accepts: it is not empty and, for the resolution
    attack, the size it is scaled down to, [int(w * scale)] by
    [int(h * scale)], has no side of 0 pixels. *)
Definition attackable (attack_type : string) (param : num) (f : Array) : bool :=
  let '(h, w) := array_shape f in
  (0 <? h)%Z && (0 <? w)%Z &&
  (if String.eqb attack_type "resolution"
   then (0 <? int_mul w param)%Z && (0 <? int_mul h param)%Z
   else true).

Definition attackable_at (attack_type : string) (param : num)
    (h : gmap addr pyobj) (a : addr) : bool :=
  match h !! a with
  | Some (ONdarray f) => attackable attack_type param f
  | _ => false
  end.

Definition attackable_frames (attack_type : string) (param : num)
    (h : gmap addr pyobj) (frames : addr) : bool :=
  match h !! frames with
  | Some (OList items) => forallb (attackable_at attack_type param h) items
  | _ => false
  end.

(** A frame sequence every attack of the catalog accepts: no frame is
    empty, and half the width and half the height of each, as the
    resolution attack at medium computes them, are at least one pixel. *)
Definition robust_frames (h : gmap addr pyobj) (frames : addr) : bool :=
  attackable_frames "resolution" (NFloat 0.5) h frames.



(** The keys of the [intensity_params] table and of each of its rows. *)
Definition attack_types : list string :=
  ["compression"; "noise"; "blur"; "resolution"; "crop"; "color"]%string.

Definition intensities : list string := ["low"; "medium"; "high"]%string.





End Attacks.

End Adversarial.

(** ** utils/batch_processor.py

    The methods of [BatchProcessor], run one call after the other. Of the
    worker threads that [start_batch] starts, one is modelled at a time, by
    the turns of its loop. *)

Module BatchProcessor.

Abbreviation addr := positive.

(** A job dictionary. [results] and [errors] hold the addresses of the two
    list objects; [end_time] and [progress] are keys added by the first
    progress update that sets them. *)
Record job := Job {
  job_id : string;
  files : list pyval;
  total : Z;
  completed : Z;
  status : string;
  start_time : string;
  results : addr;
  errors : addr;
  end_time : option string;
  progress : option float
}.

Definition set_completed (n : Z) (j : job) : job :=
  {| job_id := job_id j; files := files j; total := total j; completed := n;
     status := status j; start_time := start_time j; results := results j;
     errors := errors j; end_time := end_time j; progress := progress j |}.
Definition set_status (s : string) (j : job) : job :=
  {| job_id := job_id j; files := files j; total := total j;
     completed := completed j; status := s; start_time := start_time j;
     results := results j; errors := errors j; end_time := end_time j;
     progress := progress j |}.
Definition set_end_time (t : string) (j : job) : job :=
  {| job_id := job_id j; files := files j; total := total j;
     completed := completed j; status := status j; start_time := start_time j;
     results := results j; errors := errors j; end_time := Some t;
     progress := progress j |}.
Definition set_progress (x : float) (j : job) : job :=
  {| job_id := job_id j; files := files j; total := total j;
     completed := completed j; status := status j; start_time := start_time j;
     results := results j; errors := errors j; end_time := end_time j;
     progress := Some x |}.

(** The objects of the store: job dictionaries and the lists they refer to. *)
Inductive pyobj :=
| OJob (j : job)
| OList (items : list pyval).

(** The fields of a [BatchProcessor], the store, and the clock behind
    [datetime.now()]. A lock is [true] while it is held. *)
Record processor := Processor {
  max_workers : Z;
  jobs : gmap string addr;
  job_queue : list (string * Z);
  results_by_job : gmap string pyval;
  locks : gmap string bool;
  heap : gmap addr pyobj;
  clock : nat
}.

Definition set_jobs (m : gmap string addr) (p : processor) : processor :=
  {| max_workers := max_workers p; jobs := m; job_queue := job_queue p;
     results_by_job := results_by_job p; locks := locks p; heap := heap p;
     clock := clock p |}.
Definition set_locks (m : gmap string bool) (p : processor) : processor :=
  {| max_workers := max_workers p; jobs := jobs p; job_queue := job_queue p;
     results_by_job := results_by_job p; locks := m; heap := heap p;
     clock := clock p |}.
Definition set_heap (h : gmap addr pyobj) (p : processor) : processor :=
  {| max_workers := max_workers p; jobs := jobs p; job_queue := job_queue p;
     results_by_job := results_by_job p; locks := locks p; heap := h;
     clock := clock p |}.
Definition set_clock (n : nat) (p : processor) : processor :=
  {| max_workers := max_workers p; jobs := jobs p; job_queue := job_queue p;
     results_by_job := results_by_job p; locks := locks p; heap := heap p;
     clock := n |}.
Definition set_job_queue (q : list (string * Z)) (p : processor) : processor :=
  {| max_workers := max_workers p; jobs := jobs p; job_queue := q;
     results_by_job := results_by_job p; locks := locks p; heap := heap p;
     clock := clock p |}.

(** How a call ends: it returns, raises, or waits forever for a lock that
    is never released (the model runs one thread). *)
Inductive outcome (A : Type) :=
| Ok (a : A)
| Raise (e : pyexn)
| Blocked.
Arguments Ok {A} a.
Arguments Raise {A} e.
Arguments Blocked {A}.

Definition M (A : Type) : Type := processor -> outcome A * processor.

Definition ret {A} (a : A) : M A := fun p => (Ok a, p).
Definition raise {A} (e : pyexn) : M A := fun p => (Raise e, p).
Definition bind {A B} (c : M A) (k : A -> M B) : M B :=
  fun p => match c p with
           | (Ok a, p') => k a p'
           | (Raise e, p') => (Raise e, p')
           | (Blocked, p') => (Blocked, p')
           end.

Notation "'let*' x ':=' c 'in' k" := (bind c (fun x => k))
  (at level 10, x name, c at level 200, k at level 200, only parsing).

(** [try: c except Exception as e: handler(e)]. An exception that is no
    [Exception] (such as [SystemExit] or [KeyboardInterrupt]) is not
    caught. *)
Definition try_except {A} (c : M A) (handler : pyexn -> M A) : M A :=
  fun p => match c p with
           | (Raise e, p') => if is_Exception e then handler e p' else (Raise e, p')
           | other => other
           end.

(** [if cond: c]. *)
Definition when (cond : bool) (c : M unit) : M unit :=
  if cond then c else ret tt.

(** [__init__(max_workers)]. *)
Definition init (max_workers : Z) : processor :=
  {| max_workers := max_workers; jobs := ∅; job_queue := []; results_by_job := ∅;
     locks := ∅; heap := ∅; clock := 0 |}.

Definition alloc (o : pyobj) : M addr :=
  fun p => let a := fresh (dom (heap p)) in
           (Ok a, set_heap (<[a := o]> (heap p)) p).

(** [self.jobs[job_id]]. *)
Definition lookup_job (id : string) : M addr :=
  fun p => match jobs p !! id with
           | Some a => (Ok a, p)
           | None => (Raise (KeyError id), p)
           end.

Definition read_job (a : addr) : M job :=
  fun p => match heap p !! a with
           | Some (OJob j) => (Ok j, p)
           | _ => (Raise (TypeError "not a job dictionary"), p)
           end.

(** An assignment to keys of the job dictionary at [a], in place. *)
Definition update_job (a : addr) (f : job -> job) : M unit :=
  fun p => match heap p !! a with
           | Some (OJob j) => (Ok tt, set_heap (<[a := OJob (f j)]> (heap p)) p)
           | _ => (Raise (TypeError "not a job dictionary"), p)
           end.

(** [l.append(x)] on the list at [l], in place. *)
Definition list_append (l : addr) (x : pyval) : M unit :=
  fun p => match heap p !! l with
           | Some (OList items) =>
               (Ok tt, set_heap (<[l := OList (items ++ [x])]> (heap p)) p)
           | _ => (Raise (TypeError "not a list"), p)
           end.

(** Taking and releasing the lock of a job. *)
Definition acquire (id : string) (p : processor) : processor :=
  set_locks (<[id := true]> (locks p)) p.
Definition release (id : string) (p : processor) : processor :=
  set_locks (<[id := false]> (locks p)) p.

(** [with self.locks[job_id]: body]: the lock is taken before the body runs
    and released when the body returns or raises. *)
Definition with_lock {A} (id : string) (body : M A) : M A :=
  fun p => match locks p !! id with
           | None => (Raise (KeyError id), p)
           | Some true => (Blocked, p)
           | Some false =>
               let '(r, p') := body (acquire id p) in (r, release id p')
           end.

(** [d.get(key, default)] when [d] is a dictionary value. *)
Definition pyval_get (d : pyval) (key : string) (default : pyval) : pyval :=
  match d with
  | VDict entries => dict_get entries key default
  | _ => default
  end.

Section WithClock.

(** [datetime.now().isoformat()] at the n-th reading of the clock. *)
Variable isoformat : nat -> string.

Definition now : M string :=
  fun p => (Ok (isoformat (clock p)), set_clock (S (clock p)) p).

(** [create_job(job_id, files)]: returns the job dictionary itself. *)
Definition create_job (id : string) (file_list : list pyval) : M addr :=
  let* started := now in
  let* result_list := alloc (OList []) in
  let* error_list := alloc (OList []) in
  let* a := alloc (OJob {| job_id := id; files := file_list;
                           total := Z.of_nat (length file_list);
                           completed := 0; status := "pending";
                           start_time := started;
                           results := result_list; errors := error_list;
                           end_time := None; progress := None |}) in
  fun p =>
    let p := set_jobs (<[id := a]> (jobs p)) p in
    let p := set_locks (<[id := false]> (locks p)) p in
    lookup_job id p.

(** Lines 69-73: the file name of a file description. *)
Definition filename_of (file_info : pyval) : pyval :=
  if is_dict file_info then
    pyval_get file_info "filename" (pyval_get file_info "path" (VStr "unknown"))
  else file_info.

(** Lines 90-94: the status update. *)
Definition update_status (a : addr) : M unit :=
  let* j := read_job a in
  if (completed j =? total j)%Z then
    let* u := update_job a (set_status "completed") in
    let* finished := now in
    update_job a (set_end_time finished)
  else if String.eqb (status j) "pending" then
    update_job a (set_status "processing")
  else ret tt.

(** Line 97: [job['progress'] = (job['completed'] / job['total']) * 100]. *)
Definition update_progress (a : addr) : M unit :=
  let* j := read_job a in
  if (total j =? 0)%Z then raise ZeroDivisionError
  else update_job a
         (set_progress (float_of_Z (completed j) / float_of_Z (total j) * 100)%float).

(** [update_job_progress(job_id, file_index, result=None, error=None)]. *)
Definition update_job_progress (id : string) (file_index : Z)
    (result error : pyval) : M unit :=
  with_lock id (
    let* a := lookup_job id in
    let* u := update_job a (fun j => set_completed (completed j + 1) j) in
    let* j := read_job a in
    match list_index (files j) file_index with
    | None => raise IndexError
    | Some file_info =>
        let filename := filename_of file_info in
        let* u := when (truthy result)
                    (list_append (results j)
                       (VDict [("file_index"%string, VInt file_index);
                               ("filename"%string, filename);
                               ("result"%string, result)])) in
        let* u := when (truthy error)
                    (list_append (errors j)
                       (VDict [("file_index"%string, VInt file_index);
                               ("filename"%string, filename);
                               ("error"%string, error)])) in
        let* u := update_status a in
        update_progress a
    end).

(** [self.jobs[job_id].copy()]: a new dictionary with the same keys and
    values; the two lists are shared with the job, not copied. *)
Definition copy_job (id : string) : M addr :=
  let* a := lookup_job id in
  let* j := read_job a in
  alloc (OJob j).

(** [get_job_status(job_id)]: [None] or the copy. *)
Definition get_job_status (id : string) : M (option addr) :=
  fun p =>
    match jobs p !! id with
    | None => (Ok None, p)
    | Some _ =>
        with_lock id (let* snapshot := copy_job id in ret (Some snapshot)) p
    end.

(** Lines 127-130: the path handed to the analysis function. *)
Definition filepath_of (file_info : pyval) : pyval :=
  if is_dict file_info then pyval_get file_info "path" file_info else file_info.

(** [process_file(job_id, file_index, analyze_function)]. The analysis
    function returns a result or raises. *)
Definition process_file (id : string) (file_index : Z)
    (analyze_function : pyval -> pyexn + pyval) : M unit :=
  try_except
    (let* a := lookup_job id in
     let* j := read_job a in
     match list_index (files j) file_index with
     | None => raise IndexError
     | Some file_info =>
         match analyze_function (filepath_of file_info) with
         | inl e => raise e
         | inr result => update_job_progress id file_index result VNone
         end
     end)
    (fun e => update_job_progress id file_index VNone (VStr (exn_str e))).

(** [start_batch(job_id, analyze_function)]: one task per file is put on
    the queue, in the order of the files. The value is the number of worker
    threads the method starts, [min(max_workers, len(files))] of them; each
    thread runs [_worker]. *)
Definition start_batch (id : string) : M Z :=
  let* a := lookup_job id in
  let* j := read_job a in
  fun p =>
    let n := length (files j) in
    (Ok (Z.max 0 (Z.min (max_workers p) (Z.of_nat n))),
     set_job_queue
       (job_queue p ++ List.map (fun i => (id, Z.of_nat i)) (seq 0 n)) p).

(** [start_processing] is [start_batch] under another name. *)
Definition start_processing (id : string) : M Z := start_batch id.

(** One turn of the loop of [_worker], run with no other thread at work.
    The value is [true] when the worker leaves the loop. With a task on the
    queue: a task of this job is processed, an [Exception] that
    [process_file] lets through ends the loop at [except Exception], and
    any other exception leaves the worker as it is raised; a task of
    another job goes back to the end of the queue. With the queue empty,
    [get] times out and the worker ends if the job is complete. *)
Definition worker_turn (id : string)
    (analyze_function : pyval -> pyexn + pyval) : M bool :=
  fun p =>
    match job_queue p with
    | (task_job_id, file_index) :: rest =>
        if String.eqb task_job_id id then
          match process_file id file_index analyze_function (set_job_queue rest p) with
          | (Ok _, p') => (Ok false, p')
          | (Raise e, p') => if is_Exception e then (Ok true, p') else (Raise e, p')
          | (Blocked, p') => (Blocked, p')
          end
        else
          (Ok false, set_job_queue (rest ++ [(task_job_id, file_index)]) p)
    | [] =>
        with_lock id
          (let* a := lookup_job id in
           let* j := read_job a in
           ret (completed j =? total j)%Z) p
    end.

(** [_worker(job_id, analyze_function)], for at most [turns] turns of its
    loop. The value is [true] when the worker has returned and [false] when
    it is still in the loop after that many turns. *)
Fixpoint worker (turns : nat) (id : string)
    (analyze_function : pyval -> pyexn + pyval) : M bool :=
  match turns with
  | O => ret false
  | S turns' =>
      let* done := worker_turn id analyze_function in
      if done then ret true else worker turns' id analyze_function
  end.

End WithClock.

(** What a client sees of a job: the counters, the status, and how many
    results and errors are recorded. *)
Record job_view := JobView {
  view_total : Z;
  view_completed : Z;
  view_status : string;
  view_results : nat;
  view_errors : nat
}.

Definition list_length (p : processor) (l : addr) : option nat :=
  match heap p !! l with
  | Some (OList items) => Some (length items)
  | _ => None
  end.

Definition view_at (p : processor) (a : addr) : option job_view :=
  match heap p !! a with
  | Some (OJob j) =>
      match list_length p (results j), list_length p (errors j) with
      | Some nr, Some ne =>
          Some {| view_total := total j; view_completed := completed j;
                  view_status := status j; view_results := nr; view_errors := ne |}
      | _, _ => None
      end
  | _ => None
  end.

Definition view (p : processor) (id : string) : option job_view :=
  match jobs p !! id with
  | Some a => view_at p a
  | None => None
  end.

(** *** What the properties speak about *)

(** A job dictionary together with its two lists, when all three are in the
    store and the lists are two different objects. *)
Definition cell (p : processor) (a : addr) : option (job * list pyval * list pyval) :=
  match heap p !! a with
  | Some (OJob j) =>
      match heap p !! results j, heap p !! errors j with
      | Some (OList rs), Some (OList es) =>
          if decide (results j = errors j) then None else Some (j, rs, es)
      | _, _ => None
      end
  | _ => None
  end.

(** The job dictionary after a progress update that runs to its end (lines
    66 and 90-97); [finished] is what the clock reads if the job completes. *)
Definition updated (finished : string) (j : job) : job :=
  let j := set_completed (completed j + 1) j in
  let j :=
    if (completed j =? total j)%Z then set_end_time finished (set_status "completed" j)
    else if String.eqb (status j) "pending" then set_status "processing" j
    else j in
  set_progress (float_of_Z (completed j) / float_of_Z (total j) * 100)%float j.

(** The entry a progress update appends to [results] or [errors] for a
    value that is truthy, under the key [kind]. *)
Definition recorded (kind : string) (file_index : Z) (file_info value : pyval)
  : list pyval :=
  if truthy value then
    [VDict [("file_index"%string, VInt file_index);
            ("filename"%string, filename_of file_info);
            (kind, value)]]
  else [].

(** What [process_file] appends to [results] and to [errors] for one file:
    the result of the analysis if it is truthy, or the message of the
    exception it raised if that is not empty. *)
Definition results_of (analyze_function : pyval -> pyexn + pyval)
    (file_index : Z) (file_info : pyval) : list pyval :=
  match analyze_function (filepath_of file_info) with
  | inr result => recorded "result" file_index file_info result
  | inl _ => []
  end.

Definition errors_of (analyze_function : pyval -> pyexn + pyval)
    (file_index : Z) (file_info : pyval) : list pyval :=
  match analyze_function (filepath_of file_info) with
  | inr _ => []
  | inl e => recorded "error" file_index file_info (VStr (exn_str e))
  end.

(** The same for all the files of a job, processed in their order. *)
Definition all_results (analyze_function : pyval -> pyexn + pyval)
    (file_list : list pyval) : list pyval :=
  concat (imap (fun i => results_of analyze_function (Z.of_nat i)) file_list).

Definition all_errors (analyze_function : pyval -> pyexn + pyval)
    (file_list : list pyval) : list pyval :=
  concat (imap (fun i => errors_of analyze_function (Z.of_nat i)) file_list).

(** What [except Exception] in [process_file] makes of the outcome of the
    analysis: a result and an [Exception] lead to a progress update, any
    other exception passes through. *)
Definition caught (outcome : pyexn + pyval) : bool :=
  match outcome with
  | inl e => is_Exception e
  | inr _ => true
  end.

(** The queue after its first task has been taken and put back. *)
Definition requeue (queue : list (string * Z)) : list (string * Z) :=
  match queue with
  | [] => []
  | task :: rest => rest ++ [task]
  end.

(** Two states that agree on everything but the clock and the objects at
    the three addresses. *)
Definition same_but (a r e : addr) (p p' : processor) : Prop :=
  max_workers p' = max_workers p /\ jobs p' = jobs p /\
  job_queue p' = job_queue p /\ results_by_job p' = results_by_job p /\
  locks p' = locks p /\
  forall x, x <> a -> x <> r -> x <> e -> heap p' !! x = heap p !! x.

(** The three statuses in the order a job goes through them. *)
Definition status_rank (s : string) : nat :=
  if String.eqb s "completed" then 2
  else if String.eqb s "processing" then 1
  else 0.

(** The status after a progress update (lines 90-94). *)
Definition next_status (j : job) : string :=
  if (completed j + 1 =? total j)%Z then "completed"
  else if String.eqb (status j) "pending" then "processing"
  else status j.

(** A computation that replaces no job and no lock, and leaves a job
    dictionary wherever there was one. *)
Definition keeps {A} (c : M A) : Prop :=
  forall p,
    jobs (c p).2 = jobs p /\ locks (c p).2 = locks p /\
    forall a j, heap p !! a = Some (OJob j) ->
      exists j', heap (c p).2 !! a = Some (OJob j').

(** Every job in the table has its dictionary in the store and a free
    lock. *)
Definition jobs_ok (p : processor) : Prop :=
  forall id a, jobs p !! id = Some a ->
    locks p !! id = Some false /\ exists j, heap p !! a = Some (OJob j).

(** A computation that never ends waiting for a lock, whatever the state,
    and one that does not when it starts with no lock held. *)
Definition never_blocks {A} (c : M A) : Prop :=
  forall p, (c p).1 <> Blocked.

Definition no_lock_held (p : processor) : Prop :=
  forall id, locks p !! id <> Some true.

Definition blocks_on_no_free_lock {A} (c : M A) : Prop :=
  forall p, no_lock_held p -> (c p).1 <> Blocked.

(** What holds of a job however it has been processed: its two lists are
    in the store, [total] is the number of its files, no more outcomes are
    recorded than files are counted, the status is one of the three, and a
    completed job has counted at least all its files. *)
Definition job_ok (p : processor) (a : addr) : Prop :=
  exists j rs es,
    cell p a = Some (j, rs, es) /\
    total j = Z.of_nat (length (files j)) /\
    (Z.of_nat (length rs + length es) <= completed j)%Z /\
    (status j = "pending" \/ status j = "processing" \/ status j = "completed")%string /\
    (status j = "completed"%string -> (total j <= completed j)%Z).

(** Two jobs of the table that are different dictionaries share no list. *)
Definition apart (p : processor) : Prop :=
  forall id1 id2 a1 a2 j1 j2,
    jobs p !! id1 = Some a1 -> jobs p !! id2 = Some a2 -> a1 <> a2 ->
    heap p !! a1 = Some (OJob j1) -> heap p !! a2 = Some (OJob j2) ->
    results j1 <> results j2 /\ results j1 <> errors j2 /\
    errors j1 <> results j2 /\ errors j1 <> errors j2.

Definition table_ok (p : processor) : Prop :=
  (forall id a, jobs p !! id = Some a -> locks p !! id = Some false /\ job_ok p a) /\
  (forall id, jobs p !! id = None -> locks p !! id = None) /\
  apart p.

Section Reachable.

Variable isoformat : nat -> string.

(** The states of a processor: a new one, and what the methods make of a
    state, called one after the other with any arguments; a worker is run
    for any number of turns of its loop. *)
Inductive reachable : processor -> Prop :=
| reach_init n : reachable (init n)
| reach_create p id file_list :
    reachable p -> reachable (create_job isoformat id file_list p).2
| reach_update p id file_index result error :
    reachable p ->
    reachable (update_job_progress isoformat id file_index result error p).2
| reach_process p id file_index analyze_function :
    reachable p ->
    reachable (process_file isoformat id file_index analyze_function p).2
| reach_status p id :
    reachable p -> reachable (get_job_status id p).2
| reach_start p id :
    reachable p -> reachable (start_batch id p).2
| reach_worker p turns id analyze_function :
    reachable p ->
    reachable (worker isoformat turns id analyze_function p).2.

(** The states the endpoints and the workers bring about: they create
    jobs, start them, run workers and ask for the status, and a progress
    update is made by [process_file] only. *)
Inductive served : processor -> Prop :=
| served_init n : served (init n)
| served_create p id file_list :
    served p -> served (create_job isoformat id file_list p).2
| served_start p id :
    served p -> served (start_batch id p).2
| served_process p id file_index analyze_function :
    served p ->
    served (process_file isoformat id file_index analyze_function p).2
| served_worker p turns id analyze_function :
    served p ->
    served (worker isoformat turns id analyze_function p).2
| served_status p id :
    served p -> served (get_job_status id p).2.

End Reachable.

End BatchProcessor.

(** ** The batch endpoints of main.py and app.py

    The two HTTP handlers that submit a batch to the processor, with what
    the web framework does before and after them: FastAPI checks a request
    against the parameters of the handler before it calls it, and a response
    is written as JSON after the handler has returned its content. The
    upload machinery (saving a file, sanitising its name, drawing a UUID) is
    outside the modelled core and enters as parameters; the background
    thread that main.py starts after the job is created is not part of this
    sequential model. *)

Module Endpoints.

Import BatchProcessor.

(** An HTTP response: an error with its status code, or a JSON body. *)
Inductive response :=
| HttpError (status_code : Z) (detail : string)
| HttpJson (body : list (string * pyval)).

Section WithUploads.

Variable isoformat : nat -> string.
(** main.py [save_upload_file(video)]: the path the upload is stored at. *)
Variable save_upload_file : string -> string.
(** app.py: [secure_filename] and [os.path.join(UPLOAD_FOLDER, name)]. *)
Variable secure_filename : string -> string.
Variable upload_path : string -> string.

(** main.py lines 411-415: one dictionary per upload that has a file name. *)
Fixpoint main_file_paths (videos : list string) : list pyval :=
  match videos with
  | [] => []
  | filename :: rest =>
      if negb (String.eqb filename "") then
        VDict [("path"%string, VStr (save_upload_file filename));
               ("filename"%string, VStr filename)] :: main_file_paths rest
      else main_file_paths rest
  end.

(** main.py, the body of [create_batch_job(videos)]; [id] is the UUID
    drawn for the job and [videos] the file names of the uploads. *)
Definition main_create_batch_job (id : string) (videos : list string)
    (p : processor) : response * processor :=
  match videos with
  | [] => (HttpError 400 "No video files provided", p)
  | _ :: _ =>
      let file_paths := main_file_paths videos in
      match file_paths with
      | [] => (HttpError 400 "No valid video files", p)
      | _ :: _ =>
          match create_job isoformat id file_paths p with
          | (Ok _, p') =>
              (HttpJson [("job_id"%string, VStr id);
                         ("total_files"%string, VInt (Z.of_nat (length file_paths)));
                         ("status"%string, VStr "pending")], p')
          | (_, p') => (HttpError 500 "Internal Server Error", p')
          end
      end
  end.

(** main.py, the route [POST /api/batch/create]. The handler declares
    [videos: List[UploadFile] = File(...)], a required field: to a request
    with no upload under that name FastAPI answers 422 itself, with the
    validation error for the missing field as detail, and does not call the
    handler. The handler is entered with at least one upload, so its own
    test [if not videos] never fires. *)
Definition main_post_batch_create (id : string) (videos : list string)
    (p : processor) : response * processor :=
  match videos with
  | [] => (HttpError 422 "Field required", p)
  | _ :: _ => main_create_batch_job id videos p
  end.

(** The text after the last dot of a file name: [filename.rsplit('.', 1)[1]]
    when ['.' in filename]. *)
Fixpoint extension (filename : string) : option string :=
  match filename with
  | EmptyString => None
  | String c rest =>
      match extension rest with
      | Some e => Some e
      | None => if Ascii.eqb c "."%char then Some rest else None
      end
  end.

(** ['.' in filename]. *)
Fixpoint has_dot (filename : string) : bool :=
  match filename with
  | EmptyString => false
  | String c rest => Ascii.eqb c "."%char || has_dot rest
  end.

Definition ALLOWED_EXTENSIONS : list string :=
  ["mp4"; "avi"; "mov"; "mkv"; "webm"]%string.

(** app.py [allowed_file(filename)]. *)
Definition allowed_file (filename : string) : bool :=
  match extension filename with
  | Some e => existsb (String.eqb (lower_all e)) ALLOWED_EXTENSIONS
  | None => false
  end.

(** app.py lines 439-445: one path per upload with an allowed extension. *)
Fixpoint flask_file_paths (id : string) (files : list string) : list pyval :=
  match files with
  | [] => []
  | filename :: rest =>
      if allowed_file filename then
        VStr (upload_path (id +:+ "_" +:+ secure_filename filename))
          :: flask_file_paths id rest
      else flask_file_paths id rest
  end.

(** app.py [create_batch_job()]; [files] are the names of the uploads in
    [request.files.getlist('videos')]. *)
Definition flask_create_batch_job (id : string) (files : list string)
    (p : processor) : response * processor :=
  match files with
  | [] => (HttpError 400 "No videos provided", p)
  | _ :: _ =>
      let file_paths := flask_file_paths id files in
      match file_paths with
      | [] => (HttpError 400 "No valid video files", p)
      | _ :: _ =>
          match (let* a := create_job isoformat id file_paths in read_job a) p with
          | (Ok j, p') =>
              (HttpJson [("job_id"%string, VStr id);
                         ("status"%string, VStr (status j));
                         ("total_files"%string, VInt (total j));
                         ("status_url"%string, VStr ("/api/batch/status/" +:+ id))], p')
          | (Raise e, p') =>
              (HttpError 500 ("Batch creation failed: " +:+ exn_str e), p')
          | (Blocked, p') => (HttpError 500 "Batch creation failed: ", p')
          end
      end
  end.

End WithUploads.

(** The answer of a status endpoint: an error with its status code, the
    JSON form of the status dictionary, which holds the content of the two
    lists as they are when the answer is written, or no answer at all when
    the handler waits for a lock. *)
Inductive status_response :=
| StatusError (status_code : Z) (detail : string)
| StatusJson (snapshot : job) (results errors : list pyval)
| NoAnswer.

(** The floats of a status dictionary are those of its file descriptions,
    of the recorded results and errors, and the progress; its other values
    are strings and integers. *)
Definition status_compliant (j : job) (rs es : list pyval) : bool :=
  forallb json_compliant (files j) && forallb json_compliant rs &&
  forallb json_compliant es &&
  match progress j with
  | Some percentage => is_finite percentage
  | None => true
  end.

(** app.py [jsonify(status)]: Flask writes the dictionary with
    [json.dumps] and its default [allow_nan=True], which writes every
    float, NaN and the infinities as [NaN] and [Infinity]. *)
Definition jsonify (p : processor) (snapshot : addr) : option status_response :=
  match cell p snapshot with
  | Some (j, rs, es) => Some (StatusJson j rs es)
  | None => None
  end.

(** main.py [JSONResponse(content=status)]: Starlette renders the content
    with [json.dumps(content, allow_nan=False)], which raises [ValueError]
    on a float that is NaN or an infinity. *)
Definition JSONResponse_status (p : processor) (snapshot : addr)
  : option (pyexn + status_response) :=
  match cell p snapshot with
  | Some (j, rs, es) =>
      Some (if status_compliant j rs es then inr (StatusJson j rs es)
            else inl (ValueError "Out of range float values are not JSON compliant"))
  | None => None
  end.

(** main.py [get_batch_status(job_id)]. An exception that leaves the
    handler, the one of [JSONResponse(content=status)] among them, is
    answered by the server with status 500. *)
Definition main_get_batch_status (id : string) (p : processor)
  : status_response * processor :=
  match get_job_status id p with
  | (Ok None, p') => (StatusError 404 "Job not found", p')
  | (Ok (Some snapshot), p') =>
      (match JSONResponse_status p' snapshot with
       | Some (inr answer) => answer
       | Some (inl _) | None => StatusError 500 "Internal Server Error"
       end, p')
  | (Raise e, p') => (StatusError 500 "Internal Server Error", p')
  | (Blocked, p') => (NoAnswer, p')
  end.

(** app.py [get_batch_status(job_id)]. *)
Definition flask_get_batch_status (id : string) (p : processor)
  : status_response * processor :=
  match get_job_status id p with
  | (Ok None, p') => (StatusError 404 "Job not found", p')
  | (Ok (Some snapshot), p') =>
      (default (StatusError 500 "Status fetch failed: ") (jsonify p' snapshot), p')
  | (Raise e, p') => (StatusError 500 ("Status fetch failed: " +:+ exn_str e), p')
  | (Blocked, p') => (NoAnswer, p')
  end.

End Endpoints.

(** ** utils/video_processing.py

    An OpenCV capture is modelled by what it delivers: whether the file
    could be opened, the frame rate it reports, and the frames [cap.read()]
    returns one after the other until it fails at the end. *)

Module VideoProcessing.

Local Open Scope float_scope.

(** [int(x)] for a float: truncation toward zero, and an exception on NaN
    and on the infinities. *)
Definition int_checked (x : float) : pyexn + Z :=
  if is_nan x then inl (ValueError "cannot convert float NaN to integer")
  else if is_infinity x
  then inl (OverflowError "cannot convert float infinity to integer")
  else inr (int_of_float x).

(** Line 30: [max(1, int(original_fps / fps)) if original_fps > fps else 1],
    with [fps] at 5. *)
Definition frame_interval (original_fps : float) : pyexn + Z :=
  if gtb original_fps 5 then
    let? n := int_checked (original_fps / 5) in inr (Z.max 1 n)
  else inr 1%Z.

Section WithFrames.
Context {Frame : Type}.

Record capture := Capture {
  opened : bool;
  frame_rate : float;
  stream : list Frame
}.

(** Lines 33-41: the loop that reads the capture. *)
Fixpoint read_frames (frame_interval max_frames : Z) (stream : list Frame)
    (count : Z) (frames : list Frame) : list Frame :=
  if (Z.of_nat (length frames) <? max_frames)%Z then
    match stream with
    | [] => frames
    | frame :: rest =>
        read_frames frame_interval max_frames rest (count + 1)
          (if (count mod frame_interval =? 0)%Z then frames ++ [frame] else frames)
    end
  else frames.

(** [extract_frames(video_path, max_frames)], with [fps] at its default of
    5 as in every call. *)
Definition extract_frames (cap : capture) (max_frames : Z) : pyexn + list Frame :=
  if negb (opened cap) then inr []
  else
    let original_fps := frame_rate cap in
    let? frame_interval := frame_interval original_fps in
    inr (read_frames frame_interval max_frames (stream cap) 0 []).

(** The frames of a video that are kept: those whose position, counted from
    [count], is a multiple of the interval. *)
Fixpoint kept (frame_interval count : Z) (stream : list Frame) : list Frame :=
  match stream with
  | [] => []
  | frame :: rest =>
      (if (count mod frame_interval =? 0)%Z then [frame] else [])
      ++ kept frame_interval (count + 1) rest
  end.

End WithFrames.

End VideoProcessing.


(** ** signals/vision.py, signals/audio.py, signals/temporal.py

    The three analysers of the Flask application. The vision scores are
    computed from the same OpenCV calls as the quality metrics; the audio
    and temporal scores come from librosa and from optical flow, and are
    operations of an interface, named after the functions that compute
    them. *)

Module Signals.

Local Open Scope float_scope.

Class SignalOps `{ImageOps} := {
  (** signals/audio.py: the three scores of an audio file. *)
  audio_score : string -> float;
  spectral_rolloff_score : string -> float;
  zero_crossing_rate_score : string -> float;
  (** signals/temporal.py: the three scores of a frame sequence. *)
  temporal_consistency : list Image -> float;
  temporal_variance : list Image -> float;
  optical_flow_consistency : list Image -> float
}.

Section WithSignals.
Context `{SignalOps}.

(** signals/vision.py [artifact_score(frame)]. *)
Definition artifact_score (frame : Image) : float :=
  let gray := cvtColor_gray frame in
  let variance := laplacian_var gray in
  min2 1.0 (variance / 1000).

(** signals/vision.py [edge_consistency_score(frame)]. *)
Definition edge_consistency_score (frame : Image) : float :=
  let gray := cvtColor_gray frame in
  let edges := canny gray in
  let edge_density := np_mean edges / 255.0 in
  if (0.1 <=? edge_density) && (edge_density <=? 0.3) then 1.0
  else if edge_density <? 0.1 then edge_density / 0.1
  else max2 0.0 (1.0 - (edge_density - 0.3) / 0.3).

(** signals/vision.py [analyze_frame(frame)]. *)
Definition analyze_frame (frame : Image) : list (string * float) :=
  let artifact := artifact_score frame in
  let edge_consistency := edge_consistency_score frame in
  let combined := 0.6 * artifact + 0.4 * edge_consistency in
  [ ("artifact_score"%string, artifact);
    ("edge_consistency"%string, edge_consistency);
    ("combined"%string, combined) ].

(** signals/vision.py [analyze_frames(frames)]. *)
Definition analyze_frames (frames : list Image) : float :=
  match frames with
  | [] => 0.0
  | _ :: _ =>
      np_mean_list
        (List.map (fun frame => dict_get (analyze_frame frame) "combined" 0.0) frames)
  end.

(** signals/audio.py [analyze_audio(audio_path)]. *)
Definition analyze_audio (audio_path : option string) : list (string * float) :=
  match audio_path with
  | None =>
      [ ("flatness"%string, 0.5); ("rolloff"%string, 0.5);
        ("zcr"%string, 0.5); ("combined"%string, 0.5) ]
  | Some path =>
      let flatness := audio_score path in
      let rolloff := spectral_rolloff_score path in
      let zcr := zero_crossing_rate_score path in
      let combined := 0.5 * flatness + 0.3 * rolloff + 0.2 * zcr in
      [ ("flatness"%string, flatness); ("rolloff"%string, rolloff);
        ("zcr"%string, zcr); ("combined"%string, combined) ]
  end.

(** signals/temporal.py [analyze_temporal_signals(frames)]. *)
Definition analyze_temporal_signals (frames : list Image) : list (string * float) :=
  let consistency := temporal_consistency frames in
  let variance := temporal_variance frames in
  let optical_flow := optical_flow_consistency frames in
  let combined := 0.5 * consistency + 0.3 * variance + 0.2 * optical_flow in
  [ ("consistency"%string, consistency); ("variance"%string, variance);
    ("optical_flow"%string, optical_flow); ("combined"%string, combined) ].

(** signals/audio_signal.py [analyze_audio(audio_path)]. *)
Definition audio_signal (audio_path : option string) : list (string * float) :=
  match audio_path with
  | None => [("score"%string, 0.5); ("confidence"%string, 0.0)]
  | Some _ =>
      let result := analyze_audio audio_path in
      [ ("score"%string, dict_get result "combined" 0.5);
        ("confidence"%string,
         if negb (dict_get result "combined" 0.5 =? 0.5) then 0.8 else 0.0) ]
  end.

(** [min(1.0, len(frames) / 30)]. *)
Definition frame_confidence (frames : list Image) : float :=
  min2 1.0 (float_of_Z (Z.of_nat (length frames)) / 30).

(** signals/temporal_signal.py [analyze_temporal(frames)]. *)
Definition temporal_signal (frames : list Image) : list (string * float) :=
  if (length frames <? 2)%nat then [("score"%string, 0.5); ("confidence"%string, 0.0)]
  else
    let result := analyze_temporal_signals frames in
    let confidence :=
      if negb (dict_get result "combined" 0.5 =? 0.5) then frame_confidence frames
      else 0.0 in
    [ ("score"%string, dict_get result "combined" 0.5);
      ("confidence"%string, confidence) ].

End WithSignals.

End Signals.

(** ** main.py and app.py: the analysis of one video

    Both applications are given what [extract_frames] and [extract_audio]
    read from the uploaded file. The FastAPI application (main.py) also asks
    a neural network and, if one is configured, an LLM; what these answer is
    an input of the model. Removing the temporary files is outside it. *)

Module Analysis.

Import Signals.
Local Open Scope float_scope.

(** model/inference.py [analyze_frames(frames)]: the entries of its
    dictionary that the pipeline reads, and the others. [model_loaded] is a
    key of the successful results only. *)
Record dl_result := DlResult {
  success : bool;
  dl_score : float;
  dl_confidence : float;
  model_loaded : option bool;
  dl_others : list (string * pyval)
}.

(** llm/groq_analyzer.py: the ["parsed"] entry of an answer, a dictionary
    of these four keys. *)
Record llm_parsed := LlmParsed {
  llm_confidence : string;
  llm_verdict : string;
  artifacts_detected : list string;
  llm_reasoning : string
}.

(** The dictionary [groq_analyzer.analyze_frames] returns: it always has
    the key ["enabled"], and the key ["parsed"] when the API answered. *)
Record llm_answer := LlmAnswer {
  parsed : option llm_parsed;
  llm_others : list (string * pyval)
}.

Class Analyzers `{SignalOps} := {
  (** signals/enhanced_vision.py [analyze_vision(frames)]: the score and
      the confidence of its dictionary, and its other entries. *)
  enhanced_vision : list Image -> float * float * list (string * pyval);
  (** model/inference.py [analyze_frames(frames)]. *)
  analyze_frames_dl : list Image -> dl_result
}.

(** A dictionary of floats, a dictionary of such dictionaries, and the
    dictionaries of the network and of the LLM, as Python values. The order
    of the keys is that of the records, not that of the source. *)
Definition floats_dict (d : list (string * float)) : pyval :=
  VDict (List.map (fun entry => (entry.1, VFloat entry.2)) d).

Definition dl_dict (dl : dl_result) : pyval :=
  VDict ([ ("success"%string, VBool (success dl));
           ("score"%string, VFloat (dl_score dl));
           ("confidence"%string, VFloat (dl_confidence dl)) ]
         ++ match model_loaded dl with
            | Some loaded => [("model_loaded"%string, VBool loaded)]
            | None => []
            end
         ++ dl_others dl).

Definition parsed_dict (p : llm_parsed) : pyval :=
  VDict [ ("confidence"%string, VStr (llm_confidence p));
          ("verdict"%string, VStr (llm_verdict p));
          ("artifacts_detected"%string, VList (List.map VStr (artifacts_detected p)));
          ("reasoning"%string, VStr (llm_reasoning p)) ].

Definition llm_dict (answer : llm_answer) : pyval :=
  VDict (match parsed answer with
         | Some p => [("parsed"%string, parsed_dict p)]
         | None => []
         end ++ llm_others answer).

(** main.py lines 178-187: the score of the network is weighed in. *)
Definition fuse_model (trust_score : float) (dl : dl_result) : float :=
  if success dl then
    if default false (model_loaded dl) then trust_score * 0.4 + dl_score dl * 0.6
    else trust_score * 0.7 + dl_score dl * 0.3
  else trust_score.

(** main.py lines 204-216: a verdict the LLM is highly confident of moves
    the score. *)
Definition refine_score (trust_score : float) (answer : option llm_answer) : float :=
  match answer ≫= parsed with
  | Some p =>
      if String.eqb (llm_confidence p) "high" then
        if String.eqb (llm_verdict p) "authentic" then trust_score * 0.7 + 0.3
        else if String.eqb (llm_verdict p) "manipulated" then trust_score * 0.7
        else trust_score
      else trust_score
  | None => trust_score
  end.

(** main.py lines 219-220: the reasoning of the LLM, if it gave one,
    replaces the reason of the report. *)
Definition refine_reason (reason : string) (answer : option llm_answer) : string :=
  match answer ≫= parsed with
  | Some p => if negb (String.eqb (llm_reasoning p) "") then llm_reasoning p else reason
  | None => reason
  end.

(** main.py lines 227-236: the decision. *)
Definition final_decision (trust_score : float) : string :=
  if geb trust_score 0.8 then "Likely Real"
  else if geb trust_score 0.6 then "Possibly Real"
  else if geb trust_score 0.4 then "Ambiguous"
  else if geb trust_score 0.2 then "Possibly Fake"
  else "Likely Fake".

Section WithAnalyzers.
Context `{Analyzers}.

(** [groq_analyzer.analyze_frames(frames, signal_scores)]. *)
Definition llm_analyzer : Type := list Image -> list (string * float) -> llm_answer.

(** main.py [run_analysis(video_path, include_llm)], from the frames and
    the audio path read from the video. [llm] is the analyser when one is
    asked for, available and enabled. *)
Definition run_analysis (frames : list Image) (audio_path : option string)
    (llm : option llm_analyzer) : pyval :=
  match frames with
  | [] =>
      VDict [ ("trust_score"%string, VFloat 0.5);
              ("decision"%string, VStr "Analysis Failed");
              ("confidence"%string, VStr "none");
              ("reason"%string, VStr "Could not extract frames from video");
              ("signals"%string, VDict []);
              ("model_prediction"%string, VNone);
              ("llm_analysis"%string, VNone) ]
  | _ :: _ =>
      let dl_result := analyze_frames_dl frames in
      let '(vision_score, vision_confidence, vision_others) := enhanced_vision frames in
      let vision_result :=
        [("score"%string, vision_score); ("confidence"%string, vision_confidence)] in
      let audio_result :=
        match audio_path with
        | Some path =>
            if negb (String.eqb path "") then audio_signal audio_path
            else [("score"%string, 0.5); ("confidence"%string, 0.0)]
        | None => [("score"%string, 0.5); ("confidence"%string, 0.0)]
        end in
      let temporal_result := temporal_signal frames in
      let signals :=
        [ ("vision"%string, vision_result); ("audio"%string, audio_result);
          ("temporal"%string, temporal_result) ] in
      let '(trust_score, quality_assessment) := ScoreFusion.calculate_trust_score signals in
      let trust_score := fuse_model trust_score dl_result in
      let report := ScoreFusion.generate_report trust_score signals quality_assessment in
      let llm_analysis :=
        match llm with
        | Some analyze =>
            Some (analyze frames
                    [ ("vision"%string, dict_get vision_result "score" 0.5);
                      ("audio"%string, dict_get audio_result "score" 0.5);
                      ("temporal"%string, dict_get temporal_result "score" 0.5);
                      ("model_probability"%string,
                       if success dl_result then dl_score dl_result else 0.5) ])
        | None => None
        end in
      let trust_score := refine_score trust_score llm_analysis in
      let reason := refine_reason (ScoreFusion.reason report) llm_analysis in
      let decision := final_decision trust_score in
      VDict [ ("trust_score"%string, VFloat trust_score);
              ("decision"%string, VStr decision);
              ("confidence"%string, VStr (ScoreFusion.confidence report));
              ("reason"%string, VStr reason);
              ("signals"%string,
               VDict [ ("vision"%string,
                        VDict ([ ("score"%string, VFloat vision_score);
                                 ("confidence"%string, VFloat vision_confidence) ]
                               ++ vision_others));
                       ("audio"%string, floats_dict audio_result);
                       ("temporal"%string, floats_dict temporal_result) ]);
              ("model_prediction"%string, dl_dict dl_result);
              ("llm_analysis"%string,
               match llm_analysis with
               | Some answer => llm_dict answer
               | None => VNone
               end);
              ("quality_assessment"%string, floats_dict quality_assessment) ]
  end.

End WithAnalyzers.

(** main.py lines 470-471: two trust scores compared. *)
Definition main_comparison (score1 score2 : float) : float * string :=
  let score_diff := abs (score1 - score2) in
  (score_diff, if score_diff <? 0.15 then "Similar"%string else "Different"%string).

(** app.py lines 545 and 549: the same in the Flask application, which
    hands the two to [jsonify]; that writes every float, NaN as [NaN]. *)
Definition flask_comparison (score1 score2 : float) : float * string :=
  (abs (score1 - score2),
   if gtb (abs (score1 - score2)) 0.3 then "Significantly Different"%string
   else "Similar"%string).

(** A value in arithmetic and the operations main.py applies to two trust
    scores; [bool] is a subclass of [int]. Two integers give an integer,
    and a float on either side makes the other side a float. The messages
    are those of CPython 3.11. *)
Definition int_value (v : pyval) : option Z :=
  match v with
  | VInt z => Some z
  | VBool b => Some (if b then 1 else 0)%Z
  | _ => None
  end.

Definition is_number (v : pyval) : bool :=
  match v with VInt _ | VBool _ | VFloat _ => true | _ => false end.

(** [a - b]. *)
Definition sub (a b : pyval) : pyexn + pyval :=
  match int_value a, int_value b with
  | Some x, Some y => inr (VInt (x - y))
  | _, _ =>
      if is_number a && is_number b then
        let? x := operand "-" a in
        let? y := operand "-" b in
        inr (VFloat (x - y))
      else
        inl (TypeError ("unsupported operand type(s) for -: '" +:+ type_name a
                        +:+ "' and '" +:+ type_name b +:+ "'"))
  end.

(** [abs(v)]. *)
Definition py_abs (v : pyval) : pyexn + pyval :=
  match v with
  | VFloat x => inr (VFloat (abs x))
  | VInt z => inr (VInt (Z.abs z))
  | VBool b => inr (VInt (if b then 1 else 0))
  | _ => inl (TypeError ("bad operand type for abs(): '" +:+ type_name v +:+ "'"))
  end.

(** [d[key] = value]: the value of a key the dictionary has is replaced
    where it stands, a new key goes to the end. *)
Fixpoint dict_set {A} (entries : list (string * A)) (key : string) (value : A)
  : list (string * A) :=
  match entries with
  | [] => [(key, value)]
  | (k, v) :: rest =>
      if String.eqb k key then (k, value) :: rest
      else (k, v) :: dict_set rest key value
  end.

(** [{"filename": filename, **result}]. *)
Definition with_filename (filename : string) (result : pyval) : pyexn + pyval :=
  match result with
  | VDict entries =>
      inr (VDict (fold_left (fun d entry => dict_set d entry.1 entry.2) entries
                    [("filename"%string, VStr filename)]))
  | _ => inl (TypeError ("'" +:+ type_name result +:+ "' object is not a mapping"))
  end.

(** [JSONResponse(content=...)]: Starlette renders the content when the
    response is built, with [json.dumps(content, allow_nan=False)], which
    raises [ValueError] on a float that is NaN or an infinity. *)
Definition JSONResponse (content : pyval) : pyexn + pyval :=
  if json_compliant content then inr content
  else inl (ValueError "Out of range float values are not JSON compliant").

(** main.py [compare_videos], lines 470-486, with [result1] and
    [result2] what [run_analysis] returned for the two videos: the value is
    the content of the answer, or the exception that leaves the handler,
    which the server answers with status 500. *)
Definition main_compare_videos (filename1 filename2 : string)
    (result1 result2 : pyval) : pyexn + pyval :=
  let? score1 := getitem result1 "trust_score" in
  let? score2 := getitem result2 "trust_score" in
  let? difference := sub score1 score2 in
  let? score_diff := py_abs difference in
  let? compared_diff := compared "<" score_diff in
  let verdict := if compared_diff <? 0.15 then "Similar"%string else "Different"%string in
  let? video1 := with_filename filename1 result1 in
  let? video2 := with_filename filename2 result2 in
  JSONResponse
    (VDict [ ("video1"%string, video1);
             ("video2"%string, video2);
             ("comparison"%string,
              VDict [ ("trust_score_diff"%string, score_diff);
                      ("verdict"%string, VStr verdict) ]) ]).

(** The decision of main.py and the confidence of the report, both as
    functions of one score. *)
Definition joint_bands (s : float) : string * string :=
  if geb s 0.8 then ("Likely Real"%string, "high"%string)
  else if geb s 0.7 then ("Possibly Real"%string, "high"%string)
  else if geb s 0.6 then ("Possibly Real"%string, "medium"%string)
  else if geb s 0.55 then ("Ambiguous"%string, "medium"%string)
  else if geb s 0.45 then ("Ambiguous"%string, "low"%string)
  else if geb s 0.4 then ("Ambiguous"%string, "medium"%string)
  else if geb s 0.3 then ("Possibly Fake"%string, "medium"%string)
  else if geb s 0.2 then ("Possibly Fake"%string, "high"%string)
  else ("Likely Fake"%string, "high"%string).

(** utils/video_utils.py [get_video_metadata]: the dictionary it returns.
    The duration is a float, or the integer 0 when no frame rate is
    known. *)
Record video_metadata := VideoMetadata {
  fps : float;
  frame_count : Z;
  width : Z;
  height : Z;
  duration : num
}.

Section Flask.
Context `{SignalOps}.

Import FailureModes.

(** [round(x, 2)] and the decimal text of an integer. *)
Variable round2 : float -> float.
Variable str_int : Z -> string.

(** The dictionary [analyze_quality] returns. *)
Definition quality_dict (q : quality) : list (string * float) :=
  [ ("compression"%string, compression q); ("blocking"%string, blocking q);
    ("noise"%string, noise q); ("resolution"%string, resolution q);
    ("overall"%string, overall q) ].

(** app.py lines 336-373: the report of the Flask application, with the
    metadata of the video added. Lines 81-134 build the same dictionary,
    after a test that there are frames. *)
Definition flask_report (metadata : video_metadata) (frames : list Image)
    (audio_path : option string) (filename : string) : list (string * pyval) :=
  let vision_score := analyze_frames frames in
  let audio_data := analyze_audio audio_path in
  let temporal_data := analyze_temporal_signals frames in
  let quality_data := quality_dict (analyze_quality frames) in
  let '(final_score, decision, reason) :=
    Scorer.trust_score vision_score (dict_get audio_data "combined" 0.5)
      (dict_get temporal_data "combined" 0.5) (dict_get quality_data "overall" 0.5) in
  let report :=
    Scorer.generate_report round2
      [ ("combined"%string, vision_score); ("artifact_score"%string, vision_score);
        ("edge_consistency"%string, vision_score) ]
      audio_data temporal_data quality_data final_score decision reason in
  report ++
  [ ("metadata"%string,
     VDict [ ("filename"%string, VStr filename);
             ("duration"%string,
              match duration metadata with
              | NInt z => VInt z
              | NFloat f => VFloat (round2 f)
              end);
             ("fps"%string, VFloat (round2 (fps metadata)));
             ("resolution"%string,
              VStr (str_int (width metadata) +:+ "x" +:+ str_int (height metadata)));
             ("frames_analyzed"%string, VInt (Z.of_nat (length frames))) ]) ].

End Flask.

End Analysis.

(** ** trust_engine/educational.py

    The functions read the result of an analysis, a JSON-like dictionary
    that either application may have built, so they are modelled on Python
    values, with the exceptions a missing key or a value of another type
    raises. *)

Module Educational.

Local Open Scope string_scope.
Local Open Scope float_scope.

Definition DEEPFAKE_STATS : pyval :=
  VDict
    [ ("global_incidents",
       VDict [ ("2023", VInt 95820); ("2024", VInt 143000);
               ("growth_rate", VStr "49.2%") ]);
      ("detection_accuracy",
       VDict [ ("human_detection", VStr "0.54"); ("ai_detection", VStr "0.82");
               ("hybrid_approach", VStr "0.91") ]);
      ("common_targets",
       VList [ VDict [("category", VStr "Political Figures"); ("percentage", VInt 42)];
               VDict [("category", VStr "Celebrities"); ("percentage", VInt 31)];
               VDict [("category", VStr "General Public"); ("percentage", VInt 27)] ]);
      ("generation_methods",
       VList [ VDict [("method", VStr "GAN-based (StyleGAN, etc.)"); ("prevalence", VInt 38)];
               VDict [("method", VStr "Face Swap (DeepFaceLab)"); ("prevalence", VInt 29)];
               VDict [("method", VStr "Face Reenactment (First Order Motion)");
                      ("prevalence", VInt 21)];
               VDict [("method", VStr "Audio Synthesis (TTS)"); ("prevalence", VInt 12)] ]) ].

(** One entry of [SIGNAL_EXPLANATIONS]. *)
Definition explanation (title text : string) (indicators : list string) : pyval :=
  VDict [ ("title", VStr title); ("explanation", VStr text);
          ("indicators", VList (List.map VStr indicators)) ].

Definition SIGNAL_EXPLANATIONS : list (string * pyval) :=
    [ ("vision",
       VDict
         [ ("high",
            explanation "Strong Visual Authenticity"
              "The video shows natural texture details and consistent edge patterns. Real videos typically have high-frequency noise from camera sensors and natural skin texture."
              [ "Consistent Laplacian variance across frames";
                "Natural edge transitions";
                "Appropriate skin texture detail";
                "No signs of over-smoothing" ]);
           ("low",
            explanation "Visual Artifacts Detected"
              "The analysis found suspicious visual patterns. Deepfake generators often over-smooth faces to hide artifacts, reducing natural texture variance."
              [ "Unnaturally smooth skin regions";
                "Inconsistent edge patterns";
                "Low Laplacian variance";
                "Possible GAN fingerprints" ]) ]);
      ("audio",
       VDict
         [ ("high",
            explanation "Natural Voice Characteristics"
              "The audio exhibits characteristics of natural human speech, including appropriate spectral distribution and energy patterns."
              [ "Natural spectral flatness (0.05-0.2)";
                "Appropriate spectral rolloff";
                "Normal zero crossing rate";
                "Consistent formant structure" ]);
           ("low",
            explanation "Synthetic Audio Detected"
              "The voice shows characteristics common in text-to-speech systems or voice cloning technology."
              [ "Unusually flat spectral characteristics";
                "Abnormal zero crossing patterns";
                "Missing micro-variations in pitch";
                "Unnatural prosody" ]) ]);
      ("temporal",
       VDict
         [ ("high",
            explanation "Consistent Temporal Flow"
              "Frame-to-frame analysis shows natural progression and motion. Real videos have consistent temporal patterns."
              [ "Smooth frame transitions";
                "Consistent motion vectors";
                "Stable optical flow";
                "Natural temporal variance" ]);
           ("low",
            explanation "Temporal Inconsistencies"
              "Significant frame-to-frame instabilities detected. Deepfakes often process frames independently, creating temporal artifacts."
              [ "Erratic frame differences";
                "Inconsistent optical flow";
                "Sudden facial feature shifts";
                "Motion discontinuities" ]) ]);
      ("quality",
       VDict
         [ ("high",
            explanation "High Quality Input"
              "The video quality is sufficient for reliable analysis. All detection signals can operate at full confidence."
              [ "Minimal compression artifacts";
                "Adequate resolution";
                "Low noise levels";
                "Clean edges" ]);
           ("low",
            explanation "Degraded Input Quality"
              "Heavy compression, low resolution, or noise limits analysis reliability. The system has reduced confidence accordingly."
              [ "Heavy JPEG/H.264 compression";
                "Low resolution";
                "High noise levels";
                "Blocking artifacts" ]) ]) ].

(** One entry of [DETECTION_TIPS]. *)
Definition tip (title description difficulty : string) : pyval :=
  VDict [ ("title", VStr title); ("description", VStr description);
          ("difficulty", VStr difficulty) ].

Definition DETECTION_TIPS : pyval :=
  VList
    [ tip "Watch for Unnatural Blinking"
        "Early deepfakes had irregular blinking patterns. While modern ones improved, watch for unnaturally slow or absent blinks."
        "Easy";
      tip "Check Facial Boundaries"
        "Look at where the face meets hair, ears, or background. Deepfakes often blur these boundaries unnaturally."
        "Medium";
      tip "Analyze Lip Sync"
        "Does the mouth movement perfectly match the words? Perfect sync can indicate synthesis, as natural speech has micro-delays."
        "Medium";
      tip "Observe Lighting Consistency"
        "Check if lighting on the face matches the environment. Deepfakes may have inconsistent light sources."
        "Hard";
      tip "Look for Temporal Glitches"
        "Watch frame-by-frame for sudden jumps in facial features, especially during head turns."
        "Hard" ].

(** [get_signal_explanation(signal_type, score)]. *)
Definition get_signal_explanation (signal_type : string) (score : pyval)
  : pyexn + pyval :=
  let? s := compared ">=" score in
  let level := if geb s 0.5 then "high" else "low" in
  if dict_has SIGNAL_EXPLANATIONS signal_type then
    let? by_level := getitem (VDict SIGNAL_EXPLANATIONS) signal_type in
    getitem by_level level
  else
    inr (VDict [ ("title", VStr "Unknown Signal");
                 ("explanation", VStr "No explanation available");
                 ("indicators", VList []) ]).

(** [generate_risk_assessment(analysis_result)]. *)
Definition generate_risk_assessment (analysis_result : pyval) : pyexn + pyval :=
  let? score := getitem analysis_result "trust_score" in
  let? decision := getitem analysis_result "decision" in
  let? s := compared ">=" score in
  let '(risk_level, risk_color, risk_description) :=
    if geb s 0.7 then
      ("Low", "green", "Content appears authentic with strong validation signals.")
    else if geb s 0.4 then
      ("Medium", "orange",
       "Authenticity uncertain. Exercise caution and verify through other means.")
    else
      ("High", "red",
       "Strong indicators of manipulation. Do not trust without verification.") in
  let? x := operand "-" score in
  inr (VDict [ ("level", VStr risk_level); ("color", VStr risk_color);
               ("description", VStr risk_description);
               ("confidence", VFloat (abs (x - 0.5) * 2)) ]).

(** One entry of the recommendations. *)
Definition recommendation (icon title description : string) : pyval :=
  VDict [("icon", VStr icon); ("title", VStr title); ("description", VStr description)].

(** [generate_recommendations(analysis_result)]. *)
Definition generate_recommendations (analysis_result : pyval) : pyexn + pyval :=
  let? score := getitem analysis_result "trust_score" in
  let? quality_assessment := getitem analysis_result "quality_assessment" in
  let? quality := getitem quality_assessment "overall" in
  let? q := compared "<" quality in
  let recommendations :=
    if q <? 0.5 then
      [ recommendation "⚠️" "Obtain Higher Quality Source"
          "The input quality limits analysis reliability. Try to find an original, uncompressed version." ]
    else [] in
  let? s := compared "<" score in
  let recommendations :=
    (recommendations ++
     if s <? 0.4 then
       [ recommendation "🚨" "Treat as Potentially Manipulated"
           "Multiple signals indicate manipulation. Do not share or trust this content.";
         recommendation "📢" "Report to Platforms"
           "If found on social media, report it to platform moderators for review." ]
     else if s <? 0.7 then
       [ recommendation "🔍" "Verify Through Alternative Sources"
           "Cross-check with official sources, news outlets, or fact-checking organizations.";
         recommendation "👥" "Consult Experts"
           "For important decisions, consult digital forensics experts or fact-checkers." ]
     else
       [ recommendation "✅" "Content Appears Authentic"
           "Strong validation signals detected. However, always maintain healthy skepticism.";
         recommendation "📌" "Save Verification Record"
           "Download the analysis report for future reference if needed." ])%list in
  inr (VList (recommendations ++
              [ recommendation "🎓" "Learn More About Deepfakes"
                  "Stay informed about deepfake technology and detection methods." ])%list).

(** [generate_educational_content(analysis_result)]. *)
Definition generate_educational_content (analysis_result : pyval) : pyexn + pyval :=
  let? signals := getitem analysis_result "signals" in
  let? quality := getitem analysis_result "quality_assessment" in
  let? vision :=
    (let? signal := getitem signals "vision" in
     let? score := getitem signal "score" in
     get_signal_explanation "vision" score) in
  let? audio :=
    (let? signal := getitem signals "audio" in
     let? score := getitem signal "score" in
     get_signal_explanation "audio" score) in
  let? temporal :=
    (let? signal := getitem signals "temporal" in
     let? score := getitem signal "score" in
     get_signal_explanation "temporal" score) in
  let? quality_explanation :=
    (let? overall := getitem quality "overall" in
     get_signal_explanation "quality" overall) in
  let? risk_assessment := generate_risk_assessment analysis_result in
  let? recommended_actions := generate_recommendations analysis_result in
  inr (VDict [ ("statistics", DEEPFAKE_STATS);
               ("signal_explanations",
                VDict [ ("vision", vision); ("audio", audio);
                        ("temporal", temporal); ("quality", quality_explanation) ]);
               ("detection_tips", DETECTION_TIPS);
               ("risk_assessment", risk_assessment);
               ("recommended_actions", recommended_actions) ]).

(** The titles of a list of recommendations, in order. *)
Definition titles (recommendations : list pyval) : list string :=
  List.map (fun item => match getitem item "title" with
                        | inr (VStr title) => title
                        | _ => ""
                        end) recommendations.

End Educational.

(** ** trust_engine/report_generator.py *)

Module ReportGenerator.

Local Open Scope string_scope.

Section Report.

(** What Python's text formatting does to a value: [str(v)], and
    [format(x, '.2f')] for a float. *)
Variable str_of : pyval -> string.
Variable format_2f : float -> string.

(** The text of the page around its replacement fields, as a function of
    the texts of the fields in the order they appear. *)
Variable template : list string -> string.

(** ['Real' in v]. *)
Definition has_word (word : string) (v : pyval) : pyexn + bool :=
  match v with
  | VStr s => inr (contains word s)
  | VList items =>
      inr (existsb (fun item => match item with
                                | VStr s => String.eqb s word
                                | _ => false
                                end) items)
  | VDict entries => inr (dict_has entries word)
  | _ => inl (TypeError ("argument of type '" +:+ type_name v +:+ "' is not iterable"))
  end.

(** [v * 100]. *)
Definition times_100 (v : pyval) : pyexn + pyval :=
  match v with
  | VFloat f => inr (VFloat (f * 100)%float)
  | VInt z => inr (VInt (z * 100))
  | VBool b => inr (VInt (if b then 100 else 0))
  | VStr s => inr (VStr (Nat.iter 100 (String.append s) ""))
  | VList items => inr (VList (Nat.iter 100 (app items) []))
  | _ =>
      inl (TypeError ("unsupported operand type(s) for *: '" +:+ type_name v
                      +:+ "' and 'int'"))
  end.

(** [format(v, '.2f')]. *)
Definition format_fixed (v : pyval) : pyexn + string :=
  match v with
  | VFloat f => inr (format_2f f)
  | VInt z =>
      if is_infinity (float_of_Z z)
      then inl (OverflowError "int too large to convert to float")
      else inr (format_2f (float_of_Z z))
  | VBool b => inr (format_2f (float_of_Z (if b then 1 else 0)))
  | VStr _ => inl (ValueError "Unknown format code 'f' for object of type 'str'")
  | _ =>
      inl (TypeError ("unsupported format string passed to " +:+ type_name v
                      +:+ ".__format__"))
  end.

(** The two fields of a score bar, [{value*100}] and [{value:.2f}]; the
    expression [value] is written, and so evaluated, in both. *)
Definition bar (value : pyexn + pyval) : pyexn + list string :=
  let? v := value in
  let? percent := times_100 v in
  let? v := value in
  let? text := format_fixed v in
  inr [str_of percent; text].

(** [generate_html_report(analysis_result, video_path, sample_frames,
    heatmaps)]. [timestamp] is the current time as the function formats it
    and [video_hash] the fingerprint of the file, or ["N/A"] if there is no
    such file; the frames and the heatmaps are not used. *)
Definition generate_html_report (analysis_result : pyval)
    (timestamp video_hash : string) : pyexn + string :=
  let? decision := getitem analysis_result "decision" in
  let? real := has_word "Real" decision in
  let? verdict :=
    (if real then inr ("#43e97b", "✓")
     else
       let? fake := has_word "Fake" decision in
       inr (if fake then ("#fa709a", "✗") else ("#ffa500", "?"))) in
  let '(verdict_color, verdict_icon) := verdict in
  let? trust_score := getitem analysis_result "trust_score" in
  let? trust_text := format_fixed trust_score in
  let? reason := getitem analysis_result "reason" in
  let signal_score name :=
    (let? signals := getitem analysis_result "signals" in
     let? signal := getitem signals name in
     getitem signal "score") in
  let? vision := bar (signal_score "vision") in
  let? audio := bar (signal_score "audio") in
  let? temporal := bar (signal_score "temporal") in
  let? quality :=
    bar (let? quality_assessment := getitem analysis_result "quality_assessment" in
         getitem quality_assessment "overall") in
  let info key :=
    (let? metadata := getitem analysis_result "metadata" in
     let? value := getitem metadata key in
     inr (str_of value)) in
  let? filename := info "filename" in
  let? duration := info "duration" in
  let? resolution := info "resolution" in
  let? frames_analyzed := info "frames_analyzed" in
  inr (template
         ([verdict_color; verdict_color; verdict_icon; str_of decision; trust_text;
           str_of reason]
          ++ vision ++ audio ++ temporal ++ quality
          ++ [filename; duration; resolution; frames_analyzed; video_hash; timestamp])%list).

End Report.

End ReportGenerator.


(** ** Concrete inputs

    A small instance of the array interface, on which an array is just its
    shape, and the stores and scoring functions the examples run on. *)

Module Fixtures.

Import Adversarial.

#[export] Instance shape_arrays : ArrayOps := {|
  Array := Z * Z;
  Rng := nat;
  array_shape := fun a => a;
  imencode_jpg := fun a _ => a;
  imdecode_color := fun a => a;
  random_normal := fun _ a r => (a, S r);
  random_randint := fun _ _ r => (0%Z, S r);
  astype_float32 := fun a => a;
  array_add := fun a _ => a;
  clip_uint8 := fun a => a;
  gaussian_blur := fun a _ => a;
  resize := fun _ w h => (h, w);
  slice := fun _ r0 r1 c0 c1 => ((r1 - r0)%Z, (c1 - c0)%Z);
  split_channel := fun a _ => a;
  merge_channels := fun a _ _ => a;
  shift_clip := fun a _ => a
|}.

(** One 4x6 frame at address 2, in the list at address 1; the scoring
    function's own state counts its calls. *)
Definition one_frame : @world shape_arrays nat :=
  {| heap := {[ 1%positive := OList [2%positive];
                2%positive := ONdarray (4%Z, 6%Z) ]};
     rng := 0%nat; user := 0%nat |}.


(** A scoring function that raises on its third call. *)
Definition fails_on_third_call : @scorer shape_arrays nat :=
  fun _ _ calls =>
    if (calls =? 2)%nat then (inl (PyExn "RuntimeError" "no face found"), S calls)
    else (inr 0.5%float, S calls).

(** Scoring functions that return the same score on every call. *)
Definition always (c : float) : @scorer shape_arrays nat :=
  fun _ _ calls => (inr c, S calls).

(** The clock of the batch examples, and analysis functions: one that
    raises an exception with an empty message (a bare [assert] does), one
    that returns [None], one that fails on the second file only. *)
Definition clock_text (n : nat) : string := "2024-01-01T00:00:00".

Definition raises_silently (path : pyval) : pyexn + pyval :=
  inl (PyExn "AssertionError" "").

Definition returns_none (path : pyval) : pyexn + pyval := inr VNone.

(** An analysis whose result holds a trust score that is not a number. *)
Definition returns_nan (path : pyval) : pyexn + pyval :=
  inr (VDict [("trust_score"%string, VFloat nan)]).

Definition fails_on_f2 (path : pyval) : pyexn + pyval :=
  match path with
  | VStr "f2.mp4" => inl (PyExn "ValueError" "cannot open video")
  | _ => inr (VDict [("trust_score"%string, VFloat 0.8)])
  end.

(** A small instance of the image interface: an image is its shape, and
    every measurement of it is 0. *)
#[export] Instance flat_images : ImageOps := {|
  Image := Z * Z;
  shape := fun image => image;
  cvtColor_gray := fun image => image;
  laplacian_var := fun _ => 0%float;
  np_std := fun _ => 0%float;
  np_var := fun _ => 0%float;
  np_mean := fun _ => 0%float;
  row_mean := fun _ _ => 0%float;
  canny := fun image => image;
  sobel_magnitude := fun image => image;
  median_residual := fun image => image;
  np_mean_list := fun _ => 0%float;
  np_std_list := fun _ => 0%float
|}.


(** Analysers for the examples: every audio and temporal score is 0.5, the
    vision analyser is sure of an authentic video, and no network is
    loaded. *)
#[export] Instance flat_signals : Signals.SignalOps := {|
  Signals.audio_score := fun _ => 0.5%float;
  Signals.spectral_rolloff_score := fun _ => 0.5%float;
  Signals.zero_crossing_rate_score := fun _ => 0.5%float;
  Signals.temporal_consistency := fun _ => 0.5%float;
  Signals.temporal_variance := fun _ => 0.5%float;
  Signals.optical_flow_consistency := fun _ => 0.5%float
|}.

#[export] Instance flat_analyzers : Analysis.Analyzers := {|
  Analysis.enhanced_vision := fun _ =>
    (1.0%float, 1.0%float, [("face_detected"%string, VBool true)]);
  Analysis.analyze_frames_dl := fun _ =>
    {| Analysis.success := false; Analysis.dl_score := 0.5%float;
       Analysis.dl_confidence := 0.0%float; Analysis.model_loaded := None;
       Analysis.dl_others := [("error"%string, VStr "Model not loaded")] |}
|}.

(** A result with a trust score that is not a number. *)
Definition nan_result : pyval :=
  VDict [ ("trust_score"%string, VFloat nan); ("decision"%string, VStr "Ambiguous");
          ("quality_assessment"%string, VDict [("overall"%string, VFloat 0.9%float)]) ].


End Fixtures.

(** ** The classifiers as the specification words them *)

Module Spec.

Local Open Scope float_scope.

(** The five-band classifier of the top quality tier: [> 0.7] is Real,
    [< 0.3] is Fake, [> 0.55] is Likely Real, [< 0.45] is Likely Fake,
    anything else is Ambiguous; the rules are tried in this order. *)
Definition five_band (score : float) : string :=
  if gtb score 0.7 then "Real"
  else if score <? 0.3 then "Fake"
  else if gtb score 0.55 then "Likely Real"
  else if score <? 0.45 then "Likely Fake"
  else "Ambiguous".

(** The three-band classifier of the moderate quality tier. *)
Definition moderate_band (score : float) : string :=
  if gtb score 0.65 then "Likely Real"
  else if score <? 0.35 then "Likely Fake"
  else "Ambiguous".

(** The weighted sum as the specification writes it. *)
Definition weighted_sum (vision audio temporal : float) : float :=
  0.4 * vision + 0.3 * audio + 0.3 * temporal.


End Spec.

(* ===================================================================== *)
(** * Part II: properties                                                 *)
(* ===================================================================== *)

(** Membership in a list that is written out. *)
Ltac listed := repeat first [apply list_elem_of_here | apply list_elem_of_further].
Ltac unlisted := rewrite ?elem_of_cons, elem_of_nil; intuition congruence.

(** ** Facts about binary64 comparisons and arithmetic *)

Module FloatFacts.

Local Open Scope float_scope.

Lemma compare_cont_Z p q : Pos.compare_cont Eq p q = (Z.pos p ?= Z.pos q)%Z.
Proof. reflexivity. Qed.

(** The specification value of a literal, proved by computation once and
    then used by rewriting. *)
Ltac float_literal c :=
  let v := eval vm_compute in (Prim2SF c) in
  let E := fresh "E" in
  assert (E : Prim2SF c = v) by (vm_compute; reflexivity);
  rewrite !E in *; clear E.

Ltac float_literals :=
  repeat match goal with
  | |- context [Prim2SF ?c] => tryif is_var c then fail else float_literal c
  | H : context [Prim2SF ?c] |- _ => tryif is_var c then fail else float_literal c
  end.

Ltac float_close := try discriminate; try reflexivity; try lia.

(** Comparisons of one unknown float [x] against literals: case analysis on
    the class of [x], then on exponents and mantissas. *)
Ltac float_cases x :=
  unfold gtb, geb in *;
  rewrite ?ltb_spec, ?leb_spec in *;
  float_literals;
  destruct (Prim2SF x) as [[]|[]| |[] ?m ?e];
  unfold SFltb, SFleb, SFcompare in *;
  try discriminate; try reflexivity;
  rewrite ?compare_cont_Z in *;
  repeat match goal with
  | H : context [(?a ?= ?b)%Z] |- _ => destruct (Z.compare_spec a b); float_close
  | |- context [(?a ?= ?b)%Z] => destruct (Z.compare_spec a b); float_close
  end.

(** Multiplication is commutative in IEEE 754. *)
Lemma mul_comm x y : x * y = y * x.
Proof.
  apply Prim2SF_inj. rewrite !mul_spec. unfold SF64mul.
  destruct (Prim2SF x) as [sx|sx| |sx mx ex], (Prim2SF y) as [sy|sy| |sy my ey];
    cbn [SFmul]; rewrite ?(xorb_comm sx sy); try reflexivity.
  by rewrite Pos.mul_comm, Z.add_comm.
Qed.

(** A quality of at least 0.7 is below none of the tier bounds. *)
Lemma top_tier q :
  geb q 0.7 = true -> (q <? 0.3) = false /\ (q <? 0.5) = false /\ (q <? 0.7) = false.
Proof. intros Hq. repeat split; float_cases q. Qed.

Lemma second_tier q : geb q 0.3 = true -> (q <? 0.3) = false.
Proof. intros Hq. float_cases q. Qed.

Lemma third_tier q : geb q 0.5 = true -> (q <? 0.3) = false /\ (q <? 0.5) = false.
Proof. intros Hq. split; float_cases q. Qed.













(** NaN: the one float that is not equal to itself. It compares false
    with everything and goes through every operation. *)
Lemma is_nan_spec x : is_nan x = true -> Prim2SF x = S754_nan.
Proof.
  unfold is_nan. rewrite FloatAxioms.eqb_spec. unfold SFeqb, SFcompare.
  destruct (Prim2SF x) as [[]|[]| |[] m e]; try discriminate; try reflexivity;
    rewrite Z.compare_refl, ?compare_cont_Z, Z.compare_refl; discriminate.
Qed.

Lemma nan_ltb_l x c : is_nan x = true -> (x <? c) = false.
Proof. intros Hx. rewrite ltb_spec, (is_nan_spec x Hx). reflexivity. Qed.

Lemma nan_ltb_r x c : is_nan x = true -> (c <? x) = false.
Proof.
  intros Hx. rewrite ltb_spec, (is_nan_spec x Hx). unfold SFltb, SFcompare.
  by destruct (Prim2SF c) as [[]|[]| |[] m e].
Qed.

Lemma nan_mul_l x y : is_nan x = true -> is_nan (x * y) = true.
Proof.
  intros Hx. unfold is_nan. rewrite FloatAxioms.eqb_spec, mul_spec, (is_nan_spec x Hx).
  reflexivity.
Qed.

Lemma nan_add_l x y : is_nan x = true -> is_nan (x + y) = true.
Proof.
  intros Hx. unfold is_nan. rewrite FloatAxioms.eqb_spec, add_spec, (is_nan_spec x Hx).
  reflexivity.
Qed.

Lemma nan_add_r x y : is_nan y = true -> is_nan (x + y) = true.
Proof.
  intros Hy. unfold is_nan. rewrite FloatAxioms.eqb_spec, add_spec, (is_nan_spec y Hy).
  unfold SF64add, SFadd. by destruct (Prim2SF x) as [[]|[]| |[] m e].
Qed.

Lemma nan_leb_r x c : is_nan x = true -> (c <=? x) = false.
Proof.
  intros Hx. rewrite leb_spec, (is_nan_spec x Hx). unfold SFleb, SFcompare.
  by destruct (Prim2SF c) as [[]|[]| |[] m e].
Qed.


End FloatFacts.

(** ** Facts about enumeration *)

Module EnumerationFacts.

Import Enumeration.

Lemma check_range_spec P len :
  forall lo,
    check_range P lo len = true ->
    forall z, (lo <= z < lo + Z.pos len)%Z -> P z = true.
Proof.
  induction len as [half IH|half IH|]; intros lo Hall z Hz; cbn in Hall.
  - apply andb_prop in Hall as [Hall Hupper]. apply andb_prop in Hall as [Hlo Hlower].
    destruct (Z.eq_dec z lo) as [->|Hne]; [done|].
    destruct (Z_lt_ge_dec z (lo + 1 + Z.pos half)).
    + apply (IH (lo + 1)%Z); [done|lia].
    + apply (IH (lo + 1 + Z.pos half)%Z); [done|lia].
  - apply andb_prop in Hall as [Hlower Hupper].
    destruct (Z_lt_ge_dec z (lo + Z.pos half)).
    + apply (IH lo); [done|lia].
    + apply (IH (lo + Z.pos half)%Z); [done|lia].
  - by assert (z = lo) as -> by lia.
Qed.

End EnumerationFacts.


(** ** Facts about stores: allocation at a fresh address *)

Module StoreFacts.

Section WithObjects.
Context {V : Type}.
Implicit Types (h : gmap positive V).

Lemma fresh_not_in h : h !! fresh (dom h) = None.
Proof. apply not_elem_of_dom, is_fresh. Qed.

Lemma alloc_subseteq h o : h ⊆ <[fresh (dom h) := o]> h.
Proof. apply insert_subseteq, fresh_not_in. Qed.

Lemma subseteq_dom_not_in h0 h (a : positive) : h0 ⊆ h -> a ∉ dom h -> a ∉ dom h0.
Proof. intros Hsub Ha Ha0. apply Ha. by apply (subseteq_dom h0 h). Qed.

Lemma lookup_alloc h o x v :
  h !! x = Some v -> <[fresh (dom h) := o]> h !! x = Some v.
Proof.
  intros Hx. rewrite lookup_insert_ne; [done|]. intros <-.
  by rewrite fresh_not_in in Hx.
Qed.

End WithObjects.

End StoreFacts.

(** ** Properties of trust_engine/scorer.py *)

Module ScorerProps.

Import Scorer Spec FloatFacts.
Local Open Scope float_scope.

Lemma raw_score_weighted_sum v a t : raw_score v a t = weighted_sum v a t.
Proof.
  unfold raw_score, weighted_sum.
  change (weights "vision") with 0.4.
  change (weights "audio") with 0.3.
  change (weights "temporal") with 0.3.
  by rewrite (mul_comm v), (mul_comm a), (mul_comm t).
Qed.

(** The branch [trust_score] takes in each quality tier. *)
Lemma trust_score_tier1 v a t q :
  (q <? 0.3) = true ->
  score_of (trust_score v a t q) = raw_score v a t * 0.4 /\
  decision_of (trust_score v a t q) = "Ambiguous"%string.
Proof. intros Hq. unfold trust_score. by rewrite Hq. Qed.

Lemma trust_score_tier2 v a t q :
  (q <? 0.3) = false -> (q <? 0.5) = true ->
  score_of (trust_score v a t q) = raw_score v a t * 0.6 /\
  decision_of (trust_score v a t q) = "Ambiguous"%string.
Proof. intros H3 H5. unfold trust_score. by rewrite H3, H5. Qed.

Lemma trust_score_tier3 v a t q :
  (q <? 0.3) = false -> (q <? 0.5) = false -> (q <? 0.7) = true ->
  score_of (trust_score v a t q) = raw_score v a t * 0.85 /\
  decision_of (trust_score v a t q) = moderate_band (raw_score v a t * 0.85).
Proof.
  intros H3 H5 H7. unfold trust_score, moderate_band. rewrite H3, H5, H7.
  destruct (gtb (raw_score v a t * 0.85) 0.65); [done|].
  by destruct (raw_score v a t * 0.85 <? 0.35).
Qed.

Lemma trust_score_tier4 v a t q :
  (q <? 0.3) = false -> (q <? 0.5) = false -> (q <? 0.7) = false ->
  score_of (trust_score v a t q) = raw_score v a t /\
  decision_of (trust_score v a t q) = five_band (raw_score v a t).
Proof.
  intros H3 H5 H7. unfold trust_score, five_band. rewrite H3, H5, H7.
  destruct (gtb (raw_score v a t) 0.7); [done|].
  destruct (raw_score v a t <? 0.3); [done|].
  destruct (gtb (raw_score v a t) 0.55); [done|].
  by destruct (raw_score v a t <? 0.45).
Qed.

(** C2. With [quality >= 0.7] the score is the undampened weighted sum
    [0.4*vision + 0.3*audio + 0.3*temporal] and the decision is the
    five-band classification of that score. It holds for all floats, in
    particular for signals in [0,1]. *)
Theorem trust_score_good_quality v a t q :
  geb q 0.7 = true ->
  score_of (trust_score v a t q) = 0.4 * v + 0.3 * a + 0.3 * t /\
  decision_of (trust_score v a t q) = five_band (score_of (trust_score v a t q)).
Proof.
  intros Hq. destruct (top_tier q Hq) as (H3 & H5 & H7).
  destruct (trust_score_tier4 v a t q H3 H5 H7) as [Hs Hd].
  rewrite Hd, Hs. split; [|done]. apply raw_score_weighted_sum.
Qed.

Lemma trust_score_good_quality_witness :
  geb 0.9 0.7 = true /\
  score_of (trust_score 0.8 0.8 0.8 0.9) = 0.4 * 0.8 + 0.3 * 0.8 + 0.3 * 0.8 /\
  decision_of (trust_score 0.8 0.8 0.8 0.9)
  = five_band (score_of (trust_score 0.8 0.8 0.8 0.9)).
Proof.
  split; [reflexivity|].
  apply (trust_score_good_quality 0.8 0.8 0.8 0.9). reflexivity.
Defined.

(** The specification's first example: the decision is Real. *)
Example trust_score_example_real :
  decision_of (trust_score 0.8 0.8 0.8 0.9) = "Real"%string.
Proof. vm_compute. reflexivity. Qed.

(** C3. The dampening tiers: below 0.3 the score is [raw*0.4] and below 0.5
    it is [raw*0.6], both with decision Ambiguous; below 0.7 it is
    [raw*0.85] with the three-band decision; a quality equal to a bound
    (0.3, 0.5 or 0.7) is in the tier above the bound. *)
Theorem trust_score_dampening_tiers v a t q :
  let raw := 0.4 * v + 0.3 * a + 0.3 * t in
  let r := trust_score v a t q in
  ((q <? 0.3) = true ->
     score_of r = raw * 0.4 /\ decision_of r = "Ambiguous"%string) /\
  (geb q 0.3 = true -> (q <? 0.5) = true ->
     score_of r = raw * 0.6 /\ decision_of r = "Ambiguous"%string) /\
  (geb q 0.5 = true -> (q <? 0.7) = true ->
     score_of r = raw * 0.85 /\ decision_of r = moderate_band (raw * 0.85)) /\
  (score_of (trust_score v a t 0.3) = raw * 0.6 /\
   decision_of (trust_score v a t 0.3) = "Ambiguous"%string) /\
  (score_of (trust_score v a t 0.5) = raw * 0.85 /\
   decision_of (trust_score v a t 0.5) = moderate_band (raw * 0.85)) /\
  (score_of (trust_score v a t 0.7) = raw /\
   decision_of (trust_score v a t 0.7) = five_band raw).
Proof.
  intros raw r. subst raw r.
  change (0.4 * v + 0.3 * a + 0.3 * t) with (weighted_sum v a t).
  rewrite <- raw_score_weighted_sum.
  split; [|split; [|split; [|split; [|split]]]].
  - apply trust_score_tier1.
  - intros H3 H5. apply trust_score_tier2; [by apply second_tier | done].
  - intros H5 H7. destruct (third_tier q H5). by apply trust_score_tier3.
  - by apply trust_score_tier2.
  - by apply trust_score_tier3.
  - by apply trust_score_tier4.
Qed.

Lemma trust_score_dampening_tiers_witness :
  (0.2 <? 0.3) = true /\ geb 0.4 0.3 = true /\ (0.4 <? 0.5) = true /\
  geb 0.6 0.5 = true /\ (0.6 <? 0.7) = true /\
  score_of (trust_score 0.2 0.2 0.2 0.2) = (0.4 * 0.2 + 0.3 * 0.2 + 0.3 * 0.2) * 0.4 /\
  score_of (trust_score 0.2 0.2 0.2 0.4) = (0.4 * 0.2 + 0.3 * 0.2 + 0.3 * 0.2) * 0.6 /\
  score_of (trust_score 0.2 0.2 0.2 0.6) = (0.4 * 0.2 + 0.3 * 0.2 + 0.3 * 0.2) * 0.85.
Proof.
  do 5 (split; [reflexivity|]).
  split; [|split].
  - apply (proj1 (trust_score_dampening_tiers 0.2 0.2 0.2 0.2)). reflexivity.
  - apply (proj1 (proj2 (trust_score_dampening_tiers 0.2 0.2 0.2 0.4))); reflexivity.
  - apply (proj1 (proj2 (proj2 (trust_score_dampening_tiers 0.2 0.2 0.2 0.6)))); reflexivity.
Defined.

(** The five bands as intervals of the score. *)
Lemma five_band_intervals s :
  (gtb s 0.7 = true -> five_band s = "Real"%string) /\
  ((s <? 0.3) = true -> five_band s = "Fake"%string) /\
  (gtb s 0.55 = true -> (s <=? 0.7) = true -> five_band s = "Likely Real"%string) /\
  (geb s 0.3 = true -> (s <? 0.45) = true -> five_band s = "Likely Fake"%string) /\
  (geb s 0.45 = true -> (s <=? 0.55) = true -> five_band s = "Ambiguous"%string).
Proof.
  unfold five_band. repeat split.
  - by intros ->.
  - intros H. assert (gtb s 0.7 = false) as -> by float_cases s. by rewrite H.
  - intros H1 H2. assert (gtb s 0.7 = false) as -> by float_cases s.
    assert ((s <? 0.3) = false) as -> by float_cases s. by rewrite H1.
  - intros H1 H2. assert (gtb s 0.7 = false) as -> by float_cases s.
    assert ((s <? 0.3) = false) as -> by float_cases s.
    assert (gtb s 0.55 = false) as -> by float_cases s. by rewrite H2.
  - intros H1 H2. assert (gtb s 0.7 = false) as -> by float_cases s.
    assert ((s <? 0.3) = false) as -> by float_cases s.
    assert (gtb s 0.55 = false) as -> by float_cases s.
    by assert ((s <? 0.45) = false) as -> by float_cases s.
Qed.

Lemma five_band_cover s :
  is_nan s = false ->
  (gtb s 0.7 || (s <? 0.3) || (gtb s 0.55 && (s <=? 0.7))
   || (geb s 0.3 && (s <? 0.45)) || (geb s 0.45 && (s <=? 0.55))) = true.
Proof.
  unfold is_nan. rewrite FloatAxioms.eqb_spec. intros Hnan.
  unfold SFeqb in Hnan.
  float_cases s.
Qed.

Lemma moderate_band_intervals s :
  (gtb s 0.65 = true -> moderate_band s = "Likely Real"%string) /\
  ((s <? 0.35) = true -> moderate_band s = "Likely Fake"%string) /\
  (geb s 0.35 = true -> (s <=? 0.65) = true -> moderate_band s = "Ambiguous"%string).
Proof.
  unfold moderate_band. repeat split.
  - by intros ->.
  - intros H. assert (gtb s 0.65 = false) as -> by float_cases s. by rewrite H.
  - intros H1 H2. assert (gtb s 0.65 = false) as -> by float_cases s.
    by assert ((s <? 0.35) = false) as -> by float_cases s.
Qed.

Lemma moderate_band_cover s :
  is_nan s = false ->
  (gtb s 0.65 || (s <? 0.35) || (geb s 0.35 && (s <=? 0.65))) = true.
Proof.
  unfold is_nan. rewrite FloatAxioms.eqb_spec. intros Hnan.
  unfold SFeqb in Hnan.
  float_cases s.
Qed.

(** The decision bands of each quality tier are intervals of the score that
    do not overlap, and every score that is not NaN is in one of them. *)
Theorem decision_bands_partition v a t q :
  let s := score_of (trust_score v a t q) in
  let d := decision_of (trust_score v a t q) in
  ((q <? 0.5) = true -> d = "Ambiguous"%string) /\
  (geb q 0.5 = true -> (q <? 0.7) = true ->
     (gtb s 0.65 = true -> d = "Likely Real"%string) /\
     ((s <? 0.35) = true -> d = "Likely Fake"%string) /\
     (geb s 0.35 = true -> (s <=? 0.65) = true -> d = "Ambiguous"%string) /\
     (is_nan s = false ->
        (gtb s 0.65 || (s <? 0.35) || (geb s 0.35 && (s <=? 0.65))) = true)) /\
  (geb q 0.7 = true ->
     (gtb s 0.7 = true -> d = "Real"%string) /\
     ((s <? 0.3) = true -> d = "Fake"%string) /\
     (gtb s 0.55 = true -> (s <=? 0.7) = true -> d = "Likely Real"%string) /\
     (geb s 0.3 = true -> (s <? 0.45) = true -> d = "Likely Fake"%string) /\
     (geb s 0.45 = true -> (s <=? 0.55) = true -> d = "Ambiguous"%string) /\
     (is_nan s = false ->
        (gtb s 0.7 || (s <? 0.3) || (gtb s 0.55 && (s <=? 0.7))
         || (geb s 0.3 && (s <? 0.45)) || (geb s 0.45 && (s <=? 0.55))) = true)).
Proof.
  intros s d. subst s d. split; [|split].
  - intros Hq. destruct (q <? 0.3) eqn:H3.
    + by destruct (trust_score_tier1 v a t q H3).
    + by destruct (trust_score_tier2 v a t q H3 Hq).
  - intros H5 H7. destruct (third_tier q H5) as [H3 H5'].
    destruct (trust_score_tier3 v a t q H3 H5' H7) as [-> ->].
    destruct (moderate_band_intervals (raw_score v a t * 0.85)) as (I1 & I2 & I3).
    split; [done|]. split; [done|]. split; [done|]. apply moderate_band_cover.
  - intros H7. destruct (top_tier q H7) as (H3 & H5 & H7').
    destruct (trust_score_tier4 v a t q H3 H5 H7') as [-> ->].
    destruct (five_band_intervals (raw_score v a t)) as (I1 & I2 & I3 & I4 & I5).
    split; [done|]. split; [done|]. split; [done|]. split; [done|]. split; [done|].
    apply five_band_cover.
Qed.

Lemma decision_bands_partition_witness :
  (0.4 <? 0.5) = true /\ geb 0.9 0.7 = true /\
  decision_of (trust_score 0.8 0.8 0.8 0.4) = "Ambiguous"%string /\
  decision_of (trust_score 0.2 0.2 0.2 0.9) = "Fake"%string.
Proof.
  split; [reflexivity|]. split; [reflexivity|].
  destruct (decision_bands_partition 0.8 0.8 0.8 0.4) as (Hlow & _).
  destruct (decision_bands_partition 0.2 0.2 0.2 0.9) as (_ & _ & Htop).
  split; [by apply Hlow|].
  destruct (Htop eq_refl) as (_ & Hfake & _). by apply Hfake.
Defined.

(** Inputs that are not numbers. A quality that is NaN is below no tier
    bound, so it is treated like the best quality: the score is the
    weighted sum with no dampening. A signal that is NaN makes the score
    NaN, which is in no band: the decision is Ambiguous whatever the
    quality, and no insight is reported for that signal. *)
Theorem trust_score_on_nan v a t q :
  (is_nan q = true ->
   score_of (trust_score v a t q) = raw_score v a t /\
   decision_of (trust_score v a t q) = five_band (raw_score v a t)) /\
  (is_nan v = true \/ is_nan a = true \/ is_nan t = true ->
   is_nan (score_of (trust_score v a t q)) = true /\
   decision_of (trust_score v a t q) = "Ambiguous"%string).
Proof.
  split.
  - intros Hq. apply trust_score_tier4; by apply nan_ltb_l.
  - intros Hsignal.
    assert (is_nan (raw_score v a t) = true) as Hraw.
    { unfold raw_score. destruct Hsignal as [H|[H|H]].
      - by apply nan_add_l, nan_add_l, nan_mul_l.
      - by apply nan_add_l, nan_add_r, nan_mul_l.
      - by apply nan_add_r, nan_mul_l. }
    destruct (q <? 0.3) eqn:H3; [|destruct (q <? 0.5) eqn:H5; [|destruct (q <? 0.7) eqn:H7]].
    + destruct (trust_score_tier1 v a t q H3) as [-> ->]. split; [by apply nan_mul_l|done].
    + destruct (trust_score_tier2 v a t q H3 H5) as [-> ->].
      split; [by apply nan_mul_l|done].
    + destruct (trust_score_tier3 v a t q H3 H5 H7) as [-> ->].
      pose proof (nan_mul_l _ 0.85 Hraw) as Hadj. split; [done|].
      unfold moderate_band, gtb. by rewrite (nan_ltb_r _ _ Hadj), (nan_ltb_l _ _ Hadj).
    + destruct (trust_score_tier4 v a t q H3 H5 H7) as [-> ->]. split; [done|].
      unfold five_band, gtb. by rewrite !(nan_ltb_r _ _ Hraw), !(nan_ltb_l _ _ Hraw).
Qed.

Lemma trust_score_on_nan_witness :
  score_of (trust_score 0.8 0.8 0.8 nan) = raw_score 0.8 0.8 0.8 /\
  decision_of (trust_score nan 0.9 0.9 0.9) = "Ambiguous"%string.
Proof.
  split.
  - apply (proj1 (trust_score_on_nan 0.8 0.8 0.8 nan)). reflexivity.
  - apply (proj2 (trust_score_on_nan nan 0.9 0.9 0.9)). by left.
Defined.

End ScorerProps.

(** ** Properties of trust_engine/score_fusion.py and failure_modes.py *)

Module ScoreFusionProps.

Import ScoreFusion FloatFacts.
Local Open Scope float_scope.

(** The five branches of [decide_band], by the interval the score is in. *)
Lemma band_top ts :
  geb ts 0.7 = true -> decide_band ts = ("Likely Real", "high")%string.
Proof. intros H. unfold decide_band. by rewrite H. Qed.

Lemma band_upper ts :
  (ts <? 0.7) = true -> geb ts 0.55 = true ->
  decide_band ts = ("Possibly Real", "medium")%string.
Proof.
  intros H7 H55. unfold decide_band.
  assert (geb ts 0.7 = false) as -> by float_cases ts.
  by rewrite H55.
Qed.

Lemma band_middle ts :
  (ts <? 0.55) = true -> geb ts 0.45 = true ->
  decide_band ts = ("Ambiguous", "low")%string.
Proof.
  intros H55 H45. unfold decide_band.
  assert (geb ts 0.7 = false) as -> by float_cases ts.
  assert (geb ts 0.55 = false) as -> by float_cases ts.
  by rewrite H45.
Qed.

Lemma band_lower ts :
  (ts <? 0.45) = true -> geb ts 0.3 = true ->
  decide_band ts = ("Possibly Fake", "medium")%string.
Proof.
  intros H45 H3. unfold decide_band.
  assert (geb ts 0.7 = false) as -> by float_cases ts.
  assert (geb ts 0.55 = false) as -> by float_cases ts.
  assert (geb ts 0.45 = false) as -> by float_cases ts.
  by rewrite H3.
Qed.

Lemma band_bottom ts :
  geb ts 0.3 = false -> decide_band ts = ("Likely Fake", "high")%string.
Proof.
  intros H3. unfold decide_band.
  assert (geb ts 0.7 = false) as -> by float_cases ts.
  assert (geb ts 0.55 = false) as -> by float_cases ts.
  assert (geb ts 0.45 = false) as -> by float_cases ts.
  by rewrite H3.
Qed.

Lemma below_bottom ts : (ts <? 0.3) = true -> geb ts 0.3 = false.
Proof. intros H. float_cases ts. Qed.

Lemma decide_band_levels ts :
  (decide_band ts).2 = "high"%string \/ (decide_band ts).2 = "medium"%string
  \/ (decide_band ts).2 = "low"%string.
Proof.
  unfold decide_band.
  repeat match goal with |- context [if ?b then _ else _] => destruct b end;
    cbn; auto.
Qed.

Lemma generate_report_bands ts signals qa :
  (decision (generate_report ts signals qa), confidence (generate_report ts signals qa))
  = decide_band ts.
Proof. unfold generate_report. by destruct (decide_band ts). Qed.

(** C4, as the code has it. The confidence of a report is one of high,
    medium and low and is a function of the trust score alone: the signals
    and the quality assessment do not change it. It is high from 0.7 up and
    below 0.3, medium in [0.55, 0.7) and [0.3, 0.45), low in [0.45, 0.55),
    always paired with the decision of the same band. *)
Theorem report_confidence_from_score_alone ts signals qa :
  let r := generate_report ts signals qa in
  (confidence r = "high"%string \/ confidence r = "medium"%string
   \/ confidence r = "low"%string) /\
  (forall signals' qa',
     confidence (generate_report ts signals' qa') = confidence r) /\
  (geb ts 0.7 = true ->
     confidence r = "high"%string /\ decision r = "Likely Real"%string) /\
  ((ts <? 0.7) = true -> geb ts 0.55 = true ->
     confidence r = "medium"%string /\ decision r = "Possibly Real"%string) /\
  ((ts <? 0.55) = true -> geb ts 0.45 = true ->
     confidence r = "low"%string /\ decision r = "Ambiguous"%string) /\
  ((ts <? 0.45) = true -> geb ts 0.3 = true ->
     confidence r = "medium"%string /\ decision r = "Possibly Fake"%string) /\
  ((ts <? 0.3) = true ->
     confidence r = "high"%string /\ decision r = "Likely Fake"%string).
Proof.
  intros r. subst r.
  pose proof (generate_report_bands ts signals qa) as Hb.
  split; [|split; [|split; [|split; [|split; [|split]]]]].
  - pose proof (decide_band_levels ts) as Hl. rewrite <- Hb in Hl. exact Hl.
  - intros signals' qa'.
    pose proof (generate_report_bands ts signals' qa') as Hb'.
    rewrite <- Hb in Hb'. by inversion Hb'.
  - intros H. rewrite (band_top ts H) in Hb. by inversion Hb.
  - intros H1 H2. rewrite (band_upper ts H1 H2) in Hb. by inversion Hb.
  - intros H1 H2. rewrite (band_middle ts H1 H2) in Hb. by inversion Hb.
  - intros H1 H2. rewrite (band_lower ts H1 H2) in Hb. by inversion Hb.
  - intros H. rewrite (band_bottom ts (below_bottom ts H)) in Hb. by inversion Hb.
Qed.

Lemma report_confidence_from_score_alone_witness :
  geb 0.9 0.7 = true /\ (0.5 <? 0.55) = true /\ geb 0.5 0.45 = true /\
  (0.1 <? 0.3) = true /\
  confidence (generate_report 0.9 [] []) = "high"%string /\
  confidence (generate_report 0.5 [] []) = "low"%string /\
  confidence (generate_report 0.1 [] []) = "high"%string.
Proof.
  do 4 (split; [reflexivity|]).
  pose proof (report_confidence_from_score_alone 0.9 [] []) as H9.
  pose proof (report_confidence_from_score_alone 0.5 [] []) as H5.
  pose proof (report_confidence_from_score_alone 0.1 [] []) as H1.
  cbv zeta in H9, H5, H1.
  destruct H9 as (_ & _ & H9 & _).
  destruct H5 as (_ & _ & _ & _ & H5 & _).
  destruct H1 as (_ & _ & _ & _ & _ & _ & H1).
  split; [|split].
  - apply H9. reflexivity.
  - apply H5; reflexivity.
  - apply H1. reflexivity.
Defined.

(** C4 does not hold as the specification states it: a trust score of 0.9
    reported together with a quality assessment of 0.2 (the lowest tier) has
    confidence high. *)
Lemma report_confidence_high_at_low_quality :
  confidence (generate_report 0.9 [] [("overall"%string, 0.2)]) = "high"%string
  /\ (dict_get [("overall"%string, 0.2)] "overall" 0.5 <? 0.3) = true.
Proof. split; reflexivity. Qed.

(** The result of the scorer has no confidence level at all: [trust_score]
    returns the triple of score, decision and reason, and the report built
    from it has no such key. *)
Lemma scorer_report_has_no_confidence round2 vd ad td qd score decision reason :
  dict_has (Scorer.generate_report round2 vd ad td qd score decision reason)
    "confidence" = false.
Proof. reflexivity. Qed.

Lemma dict_get_missing {A} (entries : list (string * A)) key default :
  dict_has entries key = false -> dict_get entries key default = default.
Proof.
  induction entries as [|[k v] rest IH]; [done|]. cbn.
  destruct (String.eqb k key); [done|]. exact IH.
Qed.

(** The reason of a report. It is never empty, and it is the fallback
    "Mixed signals across analysis" exactly when no signal score is below
    0.4 or above 0.7: each of the three is in [0.4, 0.7] or is NaN. *)
Theorem report_reason_mixed ts signals qa :
  let v := signal_score signals "vision" in
  let a := signal_score signals "audio" in
  let t := signal_score signals "temporal" in
  reason (generate_report ts signals qa) <> ""%string /\
  (reason (generate_report ts signals qa) = "Mixed signals across analysis"%string <->
   ((v <? 0.4) || gtb v 0.7 || (a <? 0.4) || gtb a 0.7 || (t <? 0.4) || gtb t 0.7)
   = false).
Proof.
  intros v a t. subst v a t.
  assert (reason (generate_report ts signals qa)
          = capitalize (join "; " (report_reasons signals))) as ->.
  { unfold generate_report. by destruct (decide_band ts). }
  unfold report_reasons.
  destruct (signal_score signals "vision" <? 0.4);
    destruct (gtb (signal_score signals "vision") 0.7);
    destruct (signal_score signals "audio" <? 0.4);
    destruct (gtb (signal_score signals "audio") 0.7);
    destruct (signal_score signals "temporal" <? 0.4);
    destruct (gtb (signal_score signals "temporal") 0.7);
    vm_compute; (split; [discriminate|]);
    split; intros E; reflexivity || discriminate E.
Qed.

Section WithImages.
Context `{ImageOps}.

Lemma dict_get_absent {A} (entries : list (string * A)) key default :
  dict_has entries key = false -> dict_get entries key default = default.
Proof.
  induction entries as [|[k v] rest IH]; [done|]. cbn.
  destruct (String.eqb k key); [done|]. exact IH.
Qed.

(** Signals that are missing. A signal that is not in the dictionary, or
    has no score, counts as 0.5: it enters the weighted sum with that
    value, whatever the other signals are. With all three missing the trust
    score is exactly 0.5, and the report for it is Ambiguous with confidence
    low and the fallback reason. *)
Theorem calculate_trust_score_defaults signals :
  (forall name,
     dict_has signals name = false ->
     dict_has (dict_get signals name []) "score" = false) /\
  (forall name,
     dict_has (dict_get signals name []) "score" = false ->
     signal_score signals name = 0.5) /\
  (dict_has (dict_get signals "vision" []) "score" = false ->
   (calculate_trust_score signals).1
   = 0.5 * 0.4 + signal_score signals "audio" * 0.3
     + signal_score signals "temporal" * 0.3) /\
  (dict_has (dict_get signals "audio" []) "score" = false ->
   (calculate_trust_score signals).1
   = signal_score signals "vision" * 0.4 + 0.5 * 0.3
     + signal_score signals "temporal" * 0.3) /\
  (dict_has (dict_get signals "temporal" []) "score" = false ->
   (calculate_trust_score signals).1
   = signal_score signals "vision" * 0.4 + signal_score signals "audio" * 0.3
     + 0.5 * 0.3) /\
  (dict_has (dict_get signals "vision" []) "score" = false ->
   dict_has (dict_get signals "audio" []) "score" = false ->
   dict_has (dict_get signals "temporal" []) "score" = false ->
   (calculate_trust_score signals).1 = 0.5 /\
   generate_report (calculate_trust_score signals).1 signals
     (calculate_trust_score signals).2
   = {| decision := "Ambiguous"; confidence := "low";
        reason := "Mixed signals across analysis" |}).
Proof.
  assert (forall name, dict_has (dict_get signals name []) "score" = false ->
            signal_score signals name = 0.5) as Hdefault.
  { intros name Hname. unfold signal_score. by apply dict_get_missing. }
  split; [|split; [exact Hdefault|]].
  { intros name Hname. by rewrite (dict_get_absent signals name [] Hname). }
  unfold calculate_trust_score. cbn [fst snd].
  split; [|split; [|split]].
  - intros Hv. by rewrite (Hdefault "vision"%string Hv).
  - intros Ha. by rewrite (Hdefault "audio"%string Ha).
  - intros Ht. by rewrite (Hdefault "temporal"%string Ht).
  - intros Hv Ha Ht. unfold generate_report, report_reasons.
    rewrite !(Hdefault "vision"%string Hv), !(Hdefault "audio"%string Ha),
      !(Hdefault "temporal"%string Ht).
    split; reflexivity.
Qed.

End WithImages.

Import Fixtures.

Lemma calculate_trust_score_defaults_witness :
  (@calculate_trust_score flat_images
     [("vision"%string, [("confidence"%string, 0.9)]);
      ("audio"%string, [("score"%string, 0.9)])]).1
  = 0.5 * 0.4 + 0.9 * 0.3 + 0.5 * 0.3 /\
  (@calculate_trust_score flat_images [("vision"%string, [("confidence"%string, 0.9)])]).1
  = 0.5.
Proof.
  destruct (@calculate_trust_score_defaults flat_images
              [("vision"%string, [("confidence"%string, 0.9)]);
               ("audio"%string, [("score"%string, 0.9)])])
    as (_ & Hdefault & Hvision & _).
  destruct (@calculate_trust_score_defaults flat_images
              [("vision"%string, [("confidence"%string, 0.9)])])
    as (_ & _ & _ & _ & _ & Hall).
  split.
  - rewrite (Hvision eq_refl). rewrite (Hdefault "temporal"%string eq_refl). reflexivity.
  - by apply Hall.
Defined.


End ScoreFusionProps.

Module QualityProps.

Local Open Scope float_scope.

Section WithImages.
Context `{ImageOps}.

(** C8. Both quality functions return on the empty frame list, and they
    disagree: [analyze_quality] answers with all metrics 0.0, hence overall
    0.0, while [assess_quality] answers with the single entry overall 0.5. *)
Theorem empty_frames_defaults_disagree :
  FailureModes.analyze_quality []
  = FailureModes.Quality 0.0 0.0 0.0 0.0 0.0 /\
  FailureModes.overall (FailureModes.analyze_quality []) = 0.0 /\
  ScoreFusion.assess_quality [] = [("overall"%string, 0.5)] /\
  dict_get (ScoreFusion.assess_quality []) "overall" 0.0 = 0.5 /\
  (FailureModes.overall (FailureModes.analyze_quality [])
   =? dict_get (ScoreFusion.assess_quality []) "overall" 0.0) = false.
Proof.
  assert (FailureModes.analyze_quality [] = FailureModes.Quality 0.0 0.0 0.0 0.0 0.0)
    as Ha by reflexivity.
  assert (ScoreFusion.assess_quality [] = [("overall"%string, 0.5)])
    as Hs by reflexivity.
  rewrite Ha, Hs. cbn [FailureModes.overall dict_get String.eqb Ascii.eqb Bool.eqb].
  repeat split.
Qed.

End WithImages.

End QualityProps.

(** ** Properties of trust_engine/failure_modes.py *)

Module FailureModesProps.

(** *** The frames [analyze_quality] looks at *)

Lemma every_nth_lookup {A} (step : nat) :
  1 <= step ->
  forall fuel (l : list A) k,
    length l <= fuel -> FailureModes.every_nth fuel step l !! k = l !! (k * step).
Proof.
  intros Hstep. induction fuel as [|fuel IH]; intros l k Hlen.
  - destruct l; [|cbn in Hlen; lia]. done.
  - destruct l as [|x l]; [done|]. cbn [FailureModes.every_nth].
    destruct k as [|k]; [done|].
    rewrite lookup_cons. rewrite IH.
    + by rewrite lookup_drop.
    + rewrite length_drop. cbn in Hlen. cbn [length]. lia.
Qed.

(** The sample of [analyze_quality]. It has five frames, or all of them
    when there are fewer, and its k-th frame is the frame at index
    [k * max(1, n // 5)] of the [n] frames: the sample starts at the first
    frame, and the frames after index [4 * max(1, n // 5)] are never looked
    at. *)
Theorem sample_frames_strided {A} (frames : list A) :
  let stride := Nat.max 1 (length frames / 5) in
  length (FailureModes.sample_frames frames) = Nat.min 5 (length frames) /\
  (forall k, k < 5 -> FailureModes.sample_frames frames !! k = frames !! (k * stride)) /\
  (forall k, 5 <= k -> FailureModes.sample_frames frames !! k = None).
Proof.
  intros stride.
  assert (1 <= stride) as Hstride by (subst stride; lia).
  assert (forall k, k < 5 ->
            FailureModes.sample_frames frames !! k = frames !! (k * stride)) as Hlookup.
  { intros k Hk. unfold FailureModes.sample_frames. rewrite lookup_take_lt by done.
    by apply every_nth_lookup. }
  assert (forall k, 5 <= k -> FailureModes.sample_frames frames !! k = None) as Hnone.
  { intros k Hk. apply lookup_ge_None_2. unfold FailureModes.sample_frames.
    rewrite length_take. lia. }
  split; [|done].
  pose proof (Nat.div_mod_eq (length frames) 5) as Hdiv.
  pose proof (Nat.mod_upper_bound (length frames) 5) as Hmod.
  destruct (le_lt_dec 5 (length frames)) as [Hmany|Hfew].
  - rewrite Nat.min_l by done.
    apply Nat.le_antisymm.
    + apply lookup_ge_None_1, Hnone. done.
    + apply lookup_lt_is_Some_1. rewrite Hlookup by lia.
      apply lookup_lt_is_Some_2. subst stride. lia.
  - rewrite Nat.min_r by lia.
    assert (stride = 1) as Hone.
    { subst stride. rewrite Nat.div_small by done. done. }
    apply Nat.le_antisymm.
    + apply lookup_ge_None_1. rewrite Hlookup by done.
      apply lookup_ge_None_2. lia.
    + destruct (length frames) as [|n] eqn:Hn; [lia|].
      apply lookup_lt_is_Some_1. rewrite Hlookup by lia.
      apply lookup_lt_is_Some_2. lia.
Qed.

Section WithImages.
Context `{ImageOps}.

Local Open Scope float_scope.

Lemma max2_lower a b : is_nan a = false -> geb (max2 a b) a = true.
Proof.
  intros Ha. unfold max2, geb, gtb. destruct (a <? b) eqn:Hab.
  - revert Hab. rewrite ltb_spec, leb_spec. unfold SFltb, SFleb.
    by destruct (SFcompare (Prim2SF a) (Prim2SF b)) as [[]|].
  - revert Ha. unfold is_nan. rewrite leb_spec, FloatAxioms.eqb_spec.
    unfold SFleb, SFeqb. by destruct (SFcompare (Prim2SF a) (Prim2SF a)) as [[]|].
Qed.

(** The score of the third branch of [resolution_quality], for each pixel
    count above 70 percent of 640 x 480 and below 640 x 480. *)
Lemma below_480p_above_70_percent :
  Enumeration.check_range
    (fun pixels =>
       let score := max2 0.3 (float_of_Z pixels / float_of_Z (640 * 480)) in
       gtb score 0.7 && (score <? 1.0))
    215041 92159 = true.
Proof. vm_compute. reflexivity. Qed.

(** The steps of [resolution_quality]. The score is 1.0 from 1280 x 720
    pixels on and 0.7 from 640 x 480 pixels on; below that it is never
    under 0.3. It does not grow with the resolution: every frame with more
    than 215040 and fewer than 307200 pixels scores above 0.7, that is,
    higher than every frame from 640 x 480 up to just under 1280 x 720. *)
Theorem resolution_quality_steps (frame : Image) :
  let pixels := ((shape frame).1 * (shape frame).2)%Z in
  ((1280 * 720 <= pixels)%Z -> FailureModes.resolution_quality frame = 1.0) /\
  ((640 * 480 <= pixels < 1280 * 720)%Z -> FailureModes.resolution_quality frame = 0.7) /\
  geb (FailureModes.resolution_quality frame) 0.3 = true /\
  ((215040 < pixels < 640 * 480)%Z ->
   gtb (FailureModes.resolution_quality frame) 0.7 = true /\
   (FailureModes.resolution_quality frame <? 1.0) = true).
Proof.
  intros pixels. subst pixels.
  unfold FailureModes.resolution_quality. destruct (shape frame) as [height width].
  cbn [fst snd].
  split; [|split; [|split]].
  - intros Hp. destruct (1280 * 720 <=? height * width)%Z eqn:E; [done|].
    apply Z.leb_gt in E. lia.
  - intros Hp. destruct (1280 * 720 <=? height * width)%Z eqn:E.
    { apply Z.leb_le in E. lia. }
    destruct (640 * 480 <=? height * width)%Z eqn:E'; [done|].
    apply Z.leb_gt in E'. lia.
  - destruct (1280 * 720 <=? height * width)%Z; [reflexivity|].
    destruct (640 * 480 <=? height * width)%Z; [reflexivity|].
    by apply max2_lower.
  - intros Hp. destruct (1280 * 720 <=? height * width)%Z eqn:E.
    { apply Z.leb_le in E. lia. }
    destruct (640 * 480 <=? height * width)%Z eqn:E'.
    { apply Z.leb_le in E'. lia. }
    pose proof (EnumerationFacts.check_range_spec _ _ _ below_480p_above_70_percent
                  (height * width)%Z) as Hscore.
    cbn zeta in Hscore. apply andb_prop. apply Hscore. lia.
Qed.

End WithImages.

Import Fixtures.

Lemma resolution_quality_steps_witness :
  @FailureModes.resolution_quality flat_images (480, 640)%Z = 0.7%float /\
  gtb (@FailureModes.resolution_quality flat_images (480, 639)%Z) 0.7 = true.
Proof.
  destruct (@resolution_quality_steps flat_images (480, 639)%Z) as (_ & _ & _ & Hbelow).
  destruct (@resolution_quality_steps flat_images (480, 640)%Z) as (_ & Hat & _).
  split.
  - apply Hat. cbn. lia.
  - apply Hbelow. cbn. lia.
Defined.

End FailureModesProps.

(** ** Properties of trust_engine/adversarial.py *)

Module AdversarialProps.

Import Adversarial Spec FloatFacts StoreFacts.
Local Open Scope float_scope.

Section WithArrays.
Context `{ArrayOps} {U : Type}.
Implicit Types (w : @world _ U) (h : gmap addr pyobj) (c : float).

(** *** The store only grows *)


(** One attacked frame: the read fails on anything but an array and changes
    nothing; on an array either a new array is allocated and nothing else
    is written, or [cv2.resize] refuses the size and nothing is written at
    all, which happens to no frame the attack accepts. *)
Lemma attack_frame_spec ty row param frame w :
  intensity_params ty = Some row ->
  match heap w !! frame with
  | Some (ONdarray x) =>
      (attack_frame ty param frame w = (inl cv2_error, w) /\
       attackable ty param x = false) \/
      exists y r',
        attack_frame ty param frame w
        = (inr (fresh (dom (heap w))),
           {| heap := <[fresh (dom (heap w)) := ONdarray y]> (heap w);
              rng := r'; user := user w |})
  | _ => attack_frame ty param frame w = (inl (TypeError "not an array"), w)
  end.
Proof.
  intros Hrow. unfold attack_frame, intensity_params, attackable in *.
  repeat match goal with
  | |- context [if String.eqb ty ?s then _ else _] => destruct (String.eqb ty s)
  end; try discriminate;
  unfold add_compression_artifacts, add_gaussian_noise, add_blur,
    resize_and_upscale, crop_and_pad, add_color_shift, cv2_resize, bind, read_array,
    draw, alloc;
  destruct (heap w !! frame) as [[x|l]|]; try reflexivity.
  all: cbn.
  all: repeat match goal with
       | |- context [random_normal ?a ?b ?r] => destruct (random_normal a b r); cbn
       | |- context [random_randint ?a ?b ?r] => destruct (random_randint a b r); cbn
       | |- context [array_shape ?a] => destruct (array_shape a); cbn
       end.
  all: repeat match goal with
       | |- context [(0 <? ?z)%Z] => destruct (0 <? z)%Z; cbn
       end.
  all: first [right; by eauto | left; by split].
Qed.

Lemma attackable_at_weaken ty param h0 h a :
  h0 ⊆ h -> attackable_at ty param h0 a = true ->
  exists x, h !! a = Some (ONdarray x) /\ attackable ty param x = true.
Proof.
  unfold attackable_at. intros Hsub.
  destruct (h0 !! a) as [[x|l]|] eqn:Ha; try discriminate.
  intros Hx. exists x. by rewrite (lookup_weaken _ _ _ _ Ha Hsub).
Qed.

Lemma is_array_weaken h0 h a : h0 ⊆ h -> is_array h0 a = true -> is_array h a = true.
Proof.
  unfold is_array. intros Hsub.
  destruct (h0 !! a) as [[x|l]|] eqn:Ha; try discriminate.
  by rewrite (lookup_weaken _ _ _ _ Ha Hsub).
Qed.

(** The loop over the frames writes only to the list it fills, and runs to
    its end on frames the attack accepts. *)
Lemma attack_loop_spec ty row param out h0 items :
  intensity_params ty = Some row ->
  out ∉ dom h0 ->
  forall w acc,
    h0 ⊆ heap w ->
    heap w !! out = Some (OList acc) ->
    h0 ⊆ heap (attack_loop ty param out items w).2 /\
    user (attack_loop ty param out items w).2 = user w /\
    ((attack_loop ty param out items w).1 = inr tt ->
       exists new,
         heap (attack_loop ty param out items w).2 !! out = Some (OList (acc ++ new)) /\
         length new = length items /\
         Forall (fun a => a ∉ dom h0) new) /\
    (forallb (attackable_at ty param h0) items = true ->
       (attack_loop ty param out items w).1 = inr tt).
Proof.
  intros Hrow Hout. induction items as [|frame rest IH]; intros w acc Hsub Hacc.
  - cbn. repeat split; try done. intros _. exists []. by rewrite app_nil_r.
  - pose proof (attack_frame_spec ty row param frame w Hrow) as Hframe.
    destruct (heap w !! frame) as [[x|l]|] eqn:Hfr.
    + destruct Hframe as [[Hfail Hno]|(y & r' & Hframe)].
      { assert (attack_loop ty param out (frame :: rest) w = (inl cv2_error, w)) as ->.
        { cbn [attack_loop]. unfold bind. by rewrite Hfail. }
        cbn. repeat split; try done.
        intros Hv. destruct (andb_prop _ _ Hv) as [Hv1 _].
        destruct (attackable_at_weaken ty param h0 (heap w) frame Hsub Hv1)
          as (x' & Hx' & Hyes).
        rewrite Hfr in Hx'. injection Hx' as <-. congruence. }
      set (a := fresh (dom (heap w))) in *.
      assert (a ≠ out) as Hne.
      { intros Heq. pose proof (fresh_not_in (heap w)) as Hf. fold a in Hf.
        rewrite Heq in Hf. congruence. }
      set (w2 := {| heap := <[out := OList (acc ++ [a])]> (<[a := ONdarray y]> (heap w));
                    rng := r'; user := user w |}).
      assert (attack_loop ty param out (frame :: rest) w
              = attack_loop ty param out rest w2) as ->.
      { cbn [attack_loop]. unfold bind. rewrite Hframe.
        unfold list_append. cbn [heap].
        rewrite lookup_insert_ne by done. by rewrite Hacc. }
      assert (h0 ⊆ heap w2) as Hsub2.
      { subst w2. cbn. apply insert_subseteq_r; [by apply not_elem_of_dom|].
        etrans; [exact Hsub|]. apply alloc_subseteq. }
      assert (heap w2 !! out = Some (OList (acc ++ [a]))) as Hacc2.
      { subst w2. cbn. by rewrite lookup_insert_eq. }
      destruct (IH w2 (acc ++ [a]) Hsub2 Hacc2) as (Hs & Hu & Hok & Hvalid).
      split; [done|]. split; [by rewrite Hu|]. split.
      * intros Hr. destruct (Hok Hr) as (new & Hl & Hlen & Hfresh).
        exists (a :: new). split; [by rewrite Hl, <- app_assoc|].
        split; [by cbn; rewrite Hlen|].
        constructor; [|done].
        apply (subseteq_dom_not_in h0 (heap w)); [done|apply is_fresh].
      * intros Hv. apply Hvalid. cbn in Hv. by destruct (andb_prop _ _ Hv).
    + assert (attack_loop ty param out (frame :: rest) w
              = (inl (TypeError "not an array"), w)) as ->.
      { cbn [attack_loop]. unfold bind. by rewrite Hframe. }
      cbn. repeat split; try done.
      intros Hv. destruct (andb_prop _ _ Hv) as [Hv1 _].
      destruct (attackable_at_weaken ty param h0 (heap w) frame Hsub Hv1)
        as (x' & Hx' & _). congruence.
    + assert (attack_loop ty param out (frame :: rest) w
              = (inl (TypeError "not an array"), w)) as ->.
      { cbn [attack_loop]. unfold bind. by rewrite Hframe. }
      cbn. repeat split; try done.
      intros Hv. destruct (andb_prop _ _ Hv) as [Hv1 _].
      destruct (attackable_at_weaken ty param h0 (heap w) frame Hsub Hv1)
        as (x' & Hx' & _). congruence.
Qed.

(** [apply_adversarial_attack]: every object of the store is kept as it
    is, the returned list is a new object and so is each of its items. *)
Lemma apply_adversarial_attack_spec frames ty int w :
  heap w ⊆ heap (apply_adversarial_attack frames ty int w).2 /\
  user (apply_adversarial_attack frames ty int w).2 = user w /\
  (forall out,
     (apply_adversarial_attack frames ty int w).1 = inr out ->
     (out ∉ dom (heap w)) /\
     exists attacked,
       heap (apply_adversarial_attack frames ty int w).2 !! out = Some (OList attacked) /\
       Forall (fun a => a ∉ dom (heap w)) attacked) /\
  (forall row param,
     intensity_params ty = Some row -> row int = Some param ->
     attackable_frames ty param (heap w) frames = true ->
     exists out items attacked,
       (apply_adversarial_attack frames ty int w).1 = inr out /\
       heap w !! frames = Some (OList items) /\
       heap (apply_adversarial_attack frames ty int w).2 !! out = Some (OList attacked) /\
       length attacked = length items).
Proof.
  remember (apply_adversarial_attack frames ty int w) as r eqn:Hr.
  unfold apply_adversarial_attack in Hr.
  destruct (intensity_params ty) as [row|] eqn:Hrow;
    [|subst r; cbn; (split; [|split; [|split]]); try done; intros; discriminate].
  destruct (row int) as [param|] eqn:Hparam;
    [|subst r; cbn; (split; [|split; [|split]]); try done; intros; simplify_eq].
  set (out := fresh (dom (heap w))) in *.
  set (w1 := set_heap (<[out := OList []]> (heap w)) w).
  assert (out ∉ dom (heap w)) as Hout by apply is_fresh.
  assert (heap w ⊆ heap w1) as Hsub1 by apply alloc_subseteq.
  assert (heap w1 !! out = Some (OList [])) as Hacc1.
  { subst w1. cbn. by rewrite lookup_insert_eq. }
  assert (attackable_frames ty param (heap w) frames = true ->
            exists items, heap w !! frames = Some (OList items) /\
                          heap w1 !! frames = Some (OList items) /\
                          forallb (attackable_at ty param (heap w)) items = true)
    as Hvalid_in.
  { intros Hv. unfold attackable_frames in Hv.
    destruct (heap w !! frames) as [[x'|items']|] eqn:Hfr0; try discriminate.
    exists items'. by rewrite (lookup_weaken _ _ _ _ Hfr0 Hsub1). }
  unfold bind, alloc, read_list in Hr. fold out in Hr. fold w1 in Hr.
  destruct (heap w1 !! frames) as [[x|items]|] eqn:Hfr.
  - subst r. cbn. (split; [|split; [|split]]); try done.
    intros row' param' [= <-] Hp Hv. rewrite Hparam in Hp. injection Hp as <-.
    destruct (Hvalid_in Hv) as (items & _ & ? & _). discriminate.
  - destruct (attack_loop_spec ty row param out (heap w) items Hrow Hout w1 []
                Hsub1 Hacc1) as (Hs & Hu & Hok & Hvalid).
    destruct (attack_loop ty param out items w1) as [[e|[]] w2] eqn:Hloop;
      subst r; cbn in *.
    + (split; [|split; [|split]]); try done.
      intros row' param' [= <-] Hp Hv. rewrite Hparam in Hp. injection Hp as <-.
      destruct (Hvalid_in Hv) as (items' & _ & [= <-] & Hall).
      by specialize (Hvalid Hall).
    + destruct (Hok eq_refl) as (new & Hl & Hlen & Hfresh).
      (split; [|split; [|split]]); try done.
      * intros out' [= <-]. split; [done|]. by exists new.
      * intros row' param' [= <-] Hp Hv. rewrite Hparam in Hp. injection Hp as <-.
        destruct (Hvalid_in Hv) as (items' & Hfr0 & [= <-] & Hall).
        by exists out, items, new.
  - subst r. cbn. (split; [|split; [|split]]); try done.
    intros row' param' [= <-] Hp Hv. rewrite Hparam in Hp. injection Hp as <-.
    destruct (Hvalid_in Hv) as (items & _ & ? & _). discriminate.
Qed.

Lemma valid_frames_weaken h0 h frames :
  h0 ⊆ h -> valid_frames h0 frames = true -> valid_frames h frames = true.
Proof.
  unfold valid_frames. intros Hsub.
  destruct (h0 !! frames) as [[x|items]|] eqn:Hfr; try discriminate.
  rewrite (lookup_weaken _ _ _ _ Hfr Hsub).
  rewrite !forallb_forall. intros Hall a Ha.
  by apply (is_array_weaken h0 h), Hall.
Qed.


(** A call of the scoring function leaves the store and the generator as
    they are. *)
Lemma call_spec (analyze_function : scorer) frames w :
  call analyze_function frames w
  = ((analyze_function (heap w) frames (user w)).1,
     set_user (analyze_function (heap w) frames (user w)).2 w).
Proof. unfold call. by destruct (analyze_function (heap w) frames (user w)). Qed.

(** The body of the loop of [test_robustness], step by step. *)
Lemma run_attack_unfold frames (analyze_function : scorer) results ty int w :
  run_attack frames analyze_function results (ty, int) w
  = match apply_adversarial_attack frames ty int w with
    | (inl e, w1) => (inl e, w1)
    | (inr attacked, w1) =>
        match call analyze_function attacked w1 with
        | (inl e, w2) => (inl e, w2)
        | (inr s, w2) =>
            (inr {| original := original results;
                    attack_results :=
                      <[ty +:+ "_" +:+ int :=
                          {| score := s; degradation := abs (original results - s) |}]>
                        (attack_results results) |}, w2)
        end
    end.
Proof.
  unfold run_attack, bind.
  destruct (apply_adversarial_attack frames ty int w) as [[e|attacked] w1]; [done|].
  by destruct (call analyze_function attacked w1) as [[e|s] w2].
Qed.

Lemma run_attack_frame frames (analyze_function : scorer) results attack w :
  heap w ⊆ heap (run_attack frames analyze_function results attack w).2.
Proof.
  destruct attack as [ty int]. rewrite run_attack_unfold.
  destruct (apply_adversarial_attack_spec frames ty int w) as (Hsub & _).
  destruct (apply_adversarial_attack frames ty int w) as [[e|attacked] w1]; [done|].
  rewrite call_spec.
  by destruct (analyze_function (heap w1) attacked (user w1)) as [[e|s] u].
Qed.

Lemma run_attacks_frame frames (analyze_function : scorer) catalog :
  forall results w,
    heap w ⊆ heap (run_attacks frames analyze_function results catalog w).2.
Proof.
  induction catalog as [|attack rest IH]; intros results w; [done|].
  cbn [run_attacks]. unfold bind.
  pose proof (run_attack_frame frames analyze_function results attack w) as Hstep.
  destruct (run_attack frames analyze_function results attack w) as [[e|r1] w1];
    [done|].
  etrans; [exact Hstep|]. apply IH.
Qed.

Lemma test_robustness_frame frames (analyze_function : scorer) w :
  heap w ⊆ heap (test_robustness frames analyze_function w).2.
Proof.
  unfold test_robustness, bind. rewrite call_spec.
  destruct (analyze_function (heap w) frames (user w)) as [[e|s] u]; [done|].
  apply (run_attacks_frame frames analyze_function attacks _ (set_user u w)).
Qed.

Lemma run_attacks_app frames (analyze_function : scorer) before after :
  forall results w,
    run_attacks frames analyze_function results (before ++ after) w
    = match run_attacks frames analyze_function results before w with
      | (inl e, w1) => (inl e, w1)
      | (inr results1, w1) => run_attacks frames analyze_function results1 after w1
      end.
Proof.
  induction before as [|attack rest IH]; intros results w; [done|].
  cbn [app run_attacks]. unfold bind.
  destruct (run_attack frames analyze_function results attack w) as [[e|r1] w1];
    [done|apply IH].
Qed.






Lemma attacks_known :
  Forall (fun attack => exists row param,
            intensity_params attack.1 = Some row /\ row attack.2 = Some param)
         attacks.
Proof. unfold attacks. repeat constructor; by eexists _, _. Qed.



(** C5, as the code has it. [test_robustness] has no handler: when the
    scoring function raises, on the original frames or on the frames of any
    catalog entry, the exception leaves [test_robustness] at once. No result
    is returned, the entries recorded before are lost with it, and the world
    is the one the failing call left, so no later entry is evaluated. *)
Theorem scorer_failure_aborts_test_robustness frames (analyze_function : scorer) w :
  (forall e w',
     call analyze_function frames w = (inl e, w') ->
     test_robustness frames analyze_function w = (inl e, w')) /\
  (forall s w0 before ty int after recorded w1 attacked w2 e w',
     attacks = before ++ (ty, int) :: after ->
     call analyze_function frames w = (inr s, w0) ->
     run_attacks frames analyze_function
       {| original := s; attack_results := ∅ |} before w0 = (inr recorded, w1) ->
     apply_adversarial_attack frames ty int w1 = (inr attacked, w2) ->
     call analyze_function attacked w2 = (inl e, w') ->
     test_robustness frames analyze_function w = (inl e, w')).
Proof.
  split.
  - intros e w' Hcall. unfold test_robustness, bind. by rewrite Hcall.
  - intros s w0 before ty int after recorded w1 attacked w2 e w'
      Hcat Hcall Hbefore Happly Hfail.
    unfold test_robustness, bind. rewrite Hcall, Hcat, run_attacks_app, Hbefore.
    cbn [run_attacks]. unfold bind. rewrite run_attack_unfold, Happly.
    by rewrite Hfail.
Qed.

(** Half of every size from 2 to 100001 pixels, computed as the resolution
    attack at medium does, is at least one pixel: frames of such a width
    and height are accepted by every attack of the catalog. *)
Lemma half_sizes_positive :
  Enumeration.check_range (fun size => (0 <? int_mul size (NFloat 0.5))%Z) 2 100000
  = true.
Proof. vm_compute. reflexivity. Qed.

Lemma frames_from_two_pixels h frames items :
  h !! frames = Some (OList items) ->
  Forall (fun a => exists x, h !! a = Some (ONdarray x) /\
                             (2 <= (array_shape x).1 <= 100001)%Z /\
                             (2 <= (array_shape x).2 <= 100001)%Z) items ->
  robust_frames h frames = true.
Proof.
  intros Hfr Hall. unfold robust_frames, attackable_frames. rewrite Hfr.
  apply forallb_forall. intros a Ha. rewrite Forall_forall in Hall.
  destruct (Hall a) as (x & Hx & Hh & Hw); [by apply list_elem_of_In|].
  unfold attackable_at, attackable. rewrite Hx.
  destruct (array_shape x) as [height width]. cbn [fst snd] in *.
  cbn [String.eqb Ascii.eqb Bool.eqb].
  pose proof (EnumerationFacts.check_range_spec _ _ _ half_sizes_positive) as Hhalf.
  rewrite (Hhalf height), (Hhalf width) by lia.
  destruct (Z.ltb_spec 0 height), (Z.ltb_spec 0 width); try done; lia.
Qed.


(** C7. Testing writes to no object of the caller: every object that is in
    the store before [test_robustness] runs, the frame list and each frame
    among them, is there unchanged afterwards, whatever the outcome. Each
    attack reads the frames and builds its output out of new objects: the
    list it returns and every array in it are at addresses that were not in
    use before. The scoring function is the caller's own code; it enters
    as a reader of the store with a state of its own. *)
Theorem attacks_never_write_input frames (analyze_function : scorer) w :
  (forall a o,
     heap w !! a = Some o ->
     heap (test_robustness frames analyze_function w).2 !! a = Some o) /\
  (forall ty int,
     (forall a o,
        heap w !! a = Some o ->
        heap (apply_adversarial_attack frames ty int w).2 !! a = Some o) /\
     (forall out,
        (apply_adversarial_attack frames ty int w).1 = inr out ->
        heap w !! out = None /\
        exists attacked,
          heap (apply_adversarial_attack frames ty int w).2 !! out
          = Some (OList attacked) /\
          Forall (fun a => heap w !! a = None) attacked)).
Proof.
  split.
  - intros a o Ha.
    by apply (lookup_weaken _ _ _ _ Ha (test_robustness_frame frames analyze_function w)).
  - intros ty int.
    destruct (apply_adversarial_attack_spec frames ty int w) as (Hsub & _ & Hfresh & _).
    split.
    + intros a o Ha. by apply (lookup_weaken _ _ _ _ Ha Hsub).
    + intros out Hout. destruct (Hfresh out Hout) as (Hnew & attacked & Hl & Hall).
      split; [by apply not_elem_of_dom|]. exists attacked. split; [done|].
      eapply Forall_impl; [exact Hall|]. intros a Ha. by apply not_elem_of_dom.
Qed.

(** *** Unknown attacks, and what the attacks without randomness compute *)

Lemma intensity_params_known ty :
  match intensity_params ty with
  | Some _ => ty ∈ attack_types
  | None => ty ∉ attack_types
  end.
Proof.
  unfold intensity_params, attack_types.
  repeat match goal with
  | |- context [if String.eqb ty ?s then _ else _] =>
      destruct (String.eqb_spec ty s) as [->|?]; [listed|]
  end.
  unlisted.
Qed.

Lemma intensity_row_known low medium high int :
  match intensity_row low medium high int with
  | Some _ => int ∈ intensities
  | None => int ∉ intensities
  end.
Proof.
  unfold intensity_row, intensities.
  repeat match goal with
  | |- context [if String.eqb int ?s then _ else _] =>
      destruct (String.eqb_spec int s) as [->|?]; [listed|]
  end.
  unlisted.
Qed.

Lemma intensity_params_rows ty row int :
  intensity_params ty = Some row ->
  match row int with
  | Some _ => int ∈ intensities
  | None => int ∉ intensities
  end.
Proof.
  unfold intensity_params.
  repeat match goal with
  | |- context [if String.eqb ty ?s then _ else _] =>
      destruct (String.eqb ty s); [intros [= <-]; apply intensity_row_known|]
  end.
  discriminate.
Qed.

(** An attack type or an intensity that is not a key of the table ends
    [apply_adversarial_attack] with [KeyError] before anything is read or
    built, the attack type being looked up first. So a call that returns
    has run one of the six attacks on every frame: the branch of the loop
    that would hand a frame on as it is is never taken, and no item of the
    returned list is an object the caller had. *)
Theorem unknown_attack_is_key_error frames ty int w :
  (ty ∉ attack_types ->
   apply_adversarial_attack frames ty int w = (inl (KeyError ty), w)) /\
  (ty ∈ attack_types -> int ∉ intensities ->
   apply_adversarial_attack frames ty int w = (inl (KeyError int), w)) /\
  (forall out,
     (apply_adversarial_attack frames ty int w).1 = inr out ->
     ty ∈ attack_types /\ int ∈ intensities /\
     exists attacked,
       heap (apply_adversarial_attack frames ty int w).2 !! out = Some (OList attacked) /\
       Forall (fun a => a ∉ dom (heap w)) attacked).
Proof.
  pose proof (intensity_params_known ty) as Hty.
  pose proof (intensity_params_rows ty) as Hint.
  destruct (apply_adversarial_attack_spec frames ty int w) as (_ & _ & Hout & _).
  revert Hout. unfold apply_adversarial_attack.
  destruct (intensity_params ty) as [row|].
  - specialize (Hint row int eq_refl).
    destruct (row int) as [param|].
    + intros Hout. split; [done|]. split; [done|].
      intros out Hr. destruct (Hout out Hr) as [_ Hnew]. by repeat split.
    + intros _. by repeat split.
  - intros _. by repeat split.
Qed.




(** On a frame one pixel wide or high the resolution attack at medium asks
    [cv2.resize] for a side of 0 pixels, and the call ends with
    [cv2.error]. *)
Lemma resolution_refuses_thin_frame frames items frame x w :
  heap w !! frames = Some (OList (frame :: items)) ->
  heap w !! frame = Some (ONdarray x) ->
  frame <> fresh (dom (heap w)) ->
  attackable "resolution" (NFloat 0.5) x = false ->
  (apply_adversarial_attack frames "resolution" "medium" w).1 = inl cv2_error.
Proof.
  intros Hfr Hx Hne Hno.
  unfold apply_adversarial_attack. cbn [intensity_params intensity_row String.eqb
    Ascii.eqb Bool.eqb].
  unfold bind, alloc, read_list. cbn [heap set_heap].
  set (out := fresh (dom (heap w))) in *.
  assert (frames <> out) as Hne2.
  { intros ->. pose proof (fresh_not_in (heap w)) as Hf. fold out in Hf. congruence. }
  rewrite lookup_insert_ne, Hfr by done.
  cbn [attack_loop]. unfold bind.
  set (w1 := set_heap _ w).
  pose proof (attack_frame_spec "resolution" _ (NFloat 0.5) frame w1 eq_refl) as Hspec.
  assert (heap w1 !! frame = Some (ONdarray x)) as Hx1.
  { subst w1. cbn. by rewrite lookup_insert_ne. }
  rewrite Hx1 in Hspec. destruct Hspec as [[-> _]|(y & r' & Hsucc)]; [done|].
  exfalso. revert Hsucc Hno.
  unfold attack_frame, attackable. cbn [String.eqb Ascii.eqb Bool.eqb].
  unfold resize_and_upscale, cv2_resize, bind, read_array, alloc. rewrite Hx1.
  destruct (array_shape x) as [h0 w0].
  repeat match goal with
         | |- context [(0 <? ?z)%Z] => destruct (0 <? z)%Z; cbn
         end; done.
Qed.

End WithArrays.

Import Fixtures.

Lemma scorer_failure_aborts_test_robustness_witness :
  (test_robustness 1%positive fails_on_third_call one_frame).1
  = inl (PyExn "RuntimeError" "no face found").
Proof.
  destruct (scorer_failure_aborts_test_robustness 1%positive fails_on_third_call
              one_frame) as [_ Habort].
  erewrite (Habort _ _ [("compression", "low")]%string "compression"%string
              "medium"%string); reflexivity.
Defined.

(** C5 does not hold as the specification states it: the scoring function
    raises on its third call, the one for compression at medium.
    [test_robustness] ends with that exception instead of a result, and the
    scoring function has been called three times, not eight. *)
Lemma test_robustness_aborts_on_third_call :
  (test_robustness 1%positive fails_on_third_call one_frame).1
  = inl (PyExn "RuntimeError" "no face found") /\
  user (test_robustness 1%positive fails_on_third_call one_frame).2 = 3%nat /\
  length attacks = 7%nat.
Proof. vm_compute. repeat split. Qed.



(** The degradation need not be a number either: a scoring function
    that always returns NaN never fails and is constant, and the degradation
    it is given is NaN, which is neither at least 0 nor equal to 0. *)
Lemma test_robustness_nan_degradation :
  match (test_robustness 1%positive (always nan) one_frame).1 with
  | inr results =>
      option_map degradation (attack_results results !! "compression_low"%string)
  | inl _ => None
  end = Some nan /\
  (0 <=? nan) = false /\ (nan =? 0) = false.
Proof. vm_compute. repeat split. Qed.

Lemma attacks_never_write_input_witness :
  heap (test_robustness 1%positive (always 0.5) one_frame).2 !! 1%positive
  = Some (OList [2%positive]) /\
  heap (test_robustness 1%positive (always 0.5) one_frame).2 !! 2%positive
  = Some (ONdarray (4%Z, 6%Z)) /\
  heap one_frame
    !! default 1%positive
         (match (apply_adversarial_attack 1%positive "blur" "medium" one_frame).1 with
          | inr out => Some out
          | inl _ => None
          end) = None.
Proof.
  destruct (attacks_never_write_input 1%positive (always 0.5) one_frame)
    as [Hkept Hattack].
  split; [by apply Hkept|]. split; [by apply Hkept|].
  destruct (Hattack "blur"%string "medium"%string) as [_ Hfresh].
  destruct (apply_adversarial_attack 1%positive "blur" "medium" one_frame).1
    as [e|out] eqn:Hout.
  - by vm_compute in Hout.
  - cbn. by destruct (Hfresh out eq_refl).
Defined.

Lemma unknown_attack_is_key_error_witness :
  apply_adversarial_attack 1%positive "sharpen" "medium" one_frame
  = (inl (KeyError "sharpen"), one_frame) /\
  apply_adversarial_attack 1%positive "blur" "extreme" one_frame
  = (inl (KeyError "extreme"), one_frame).
Proof.
  destruct (unknown_attack_is_key_error 1%positive "sharpen" "medium" one_frame)
    as (Hty & _ & _).
  destruct (unknown_attack_is_key_error 1%positive "blur" "extreme" one_frame)
    as (_ & Hint & _).
  split.
  - apply Hty. unfold attack_types. unlisted.
  - apply Hint; [unfold attack_types; listed|unfold intensities; unlisted].
Defined.



End AdversarialProps.

(** ** Properties of utils/batch_processor.py and of the batch endpoints *)

Module BatchProps.

Import BatchProcessor StoreFacts.

Section WithClock.
Variable isoformat : nat -> string.
Implicit Types (p : processor) (id : string) (a : addr) (j : job).


(** *** Running the primitives *)

Lemma bind_ok {A B} (c : M A) (k : A -> M B) p x p' :
  c p = (Ok x, p') -> bind c k p = k x p'.
Proof. unfold bind. by intros ->. Qed.

Lemma lookup_job_ok id p a : jobs p !! id = Some a -> lookup_job id p = (Ok a, p).
Proof. unfold lookup_job. by intros ->. Qed.

Lemma read_job_ok a p j : heap p !! a = Some (OJob j) -> read_job a p = (Ok j, p).
Proof. unfold read_job. by intros ->. Qed.

Lemma update_job_ok a f p j :
  heap p !! a = Some (OJob j) ->
  update_job a f p = (Ok tt, set_heap (<[a := OJob (f j)]> (heap p)) p).
Proof. unfold update_job. by intros ->. Qed.

Lemma list_append_ok l x p items :
  heap p !! l = Some (OList items) ->
  list_append l x p = (Ok tt, set_heap (<[l := OList (items ++ [x])]> (heap p)) p).
Proof. unfold list_append. by intros ->. Qed.

Lemma with_lock_free {A} id (body : M A) p :
  locks p !! id = Some false ->
  with_lock id body p = ((body (acquire id p)).1, release id (body (acquire id p)).2).
Proof. unfold with_lock. intros ->. by destruct (body (acquire id p)). Qed.

Lemma release_acquire id p :
  locks p !! id = Some false -> release id (acquire id p) = p.
Proof.
  intros Hfree. destruct p as [mw js q rs ls h c]. unfold release, acquire, set_locks.
  cbn in *. f_equal. rewrite insert_insert_eq. by apply insert_id.
Qed.

(** *** Computations that keep the jobs *)

Lemma keeps_ret {A} (x : A) : keeps (ret x).
Proof. intros p. cbn. eauto. Qed.

Lemma keeps_raise {A} e : keeps (@raise A e).
Proof. intros p. cbn. eauto. Qed.

Lemma keeps_bind {A B} (c : M A) (k : A -> M B) :
  keeps c -> (forall x, keeps (k x)) -> keeps (bind c k).
Proof.
  intros Hc Hk p. unfold bind. destruct (Hc p) as (Hj & Hl & Hh).
  destruct (c p) as [[x|e|] p1]; cbn in *; [|by eauto..].
  destruct (Hk x p1) as (Hj' & Hl' & Hh').
  split; [congruence|]. split; [congruence|].
  intros a j Ha. destruct (Hh a j Ha) as [j1 Hj1]. eauto.
Qed.

Lemma keeps_try_except {A} (c : M A) handler :
  keeps c -> (forall e, keeps (handler e)) -> keeps (try_except c handler).
Proof.
  intros Hc Hk p. unfold try_except. destruct (Hc p) as (Hj & Hl & Hh).
  destruct (c p) as [[x|e|] p1]; cbn in *; [by eauto| |by eauto].
  destruct (is_Exception e); [|by eauto].
  destruct (Hk e p1) as (Hj' & Hl' & Hh').
  split; [congruence|]. split; [congruence|].
  intros a j Ha. destruct (Hh a j Ha) as [j1 Hj1]. eauto.
Qed.

Lemma keeps_when cond (c : M unit) : keeps c -> keeps (when cond c).
Proof. destruct cond; [done|]. intros _. apply keeps_ret. Qed.

Lemma keeps_lookup_job id : keeps (lookup_job id).
Proof. intros p. unfold lookup_job. destruct (jobs p !! id); cbn; eauto. Qed.

Lemma keeps_read_job a : keeps (read_job a).
Proof. intros p. unfold read_job. destruct (heap p !! a) as [[j|l]|]; cbn; eauto. Qed.

Lemma keeps_now : keeps (now isoformat).
Proof. intros p. cbn. eauto. Qed.

Lemma keeps_alloc o : keeps (alloc o).
Proof.
  intros p. cbn. split; [done|]. split; [done|]. intros a j Ha. exists j.
  rewrite lookup_insert_ne; [done|]. intros <-. by rewrite fresh_not_in in Ha.
Qed.

Lemma keeps_update_job a f : keeps (update_job a f).
Proof.
  intros p. unfold update_job. destruct (heap p !! a) as [[j|l]|] eqn:Ha0; cbn; eauto.
  split; [done|]. split; [done|]. intros a' j' Ha'.
  destruct (decide (a = a')) as [<-|Hne].
  - rewrite lookup_insert_eq. eauto.
  - rewrite lookup_insert_ne by done. eauto.
Qed.

Lemma keeps_list_append l x : keeps (list_append l x).
Proof.
  intros p. unfold list_append. destruct (heap p !! l) as [[j|items]|] eqn:Hl; cbn; eauto.
  split; [done|]. split; [done|]. intros a' j' Ha'.
  rewrite lookup_insert_ne; [eauto|]. intros <-. congruence.
Qed.

Lemma keeps_with_lock {A} id (body : M A) : keeps body -> keeps (with_lock id body).
Proof.
  intros Hb p. unfold with_lock. destruct (locks p !! id) as [[]|] eqn:Hl; cbn; eauto.
  destruct (Hb (acquire id p)) as (Hj & Hlk & Hh).
  destruct (body (acquire id p)) as [r p1]. cbn in *.
  split; [done|]. split; [|done].
  rewrite Hlk, insert_insert_eq. by apply insert_id.
Qed.

Create HintDb keeps.
Hint Resolve keeps_ret keeps_raise keeps_bind keeps_try_except keeps_when
  keeps_lookup_job keeps_read_job keeps_now keeps_alloc keeps_update_job
  keeps_list_append keeps_with_lock : keeps.

Lemma keeps_update_status a : keeps (update_status isoformat a).
Proof.
  unfold update_status. apply keeps_bind; [auto with keeps|]. intros j.
  destruct (completed j =? total j)%Z; [auto 6 with keeps|].
  destruct (String.eqb (status j) "pending"); auto with keeps.
Qed.

Lemma keeps_update_progress a : keeps (update_progress a).
Proof.
  unfold update_progress. apply keeps_bind; [auto with keeps|]. intros j.
  destruct (total j =? 0)%Z; auto with keeps.
Qed.

Lemma keeps_update_job_progress id file_index result error :
  keeps (update_job_progress isoformat id file_index result error).
Proof.
  unfold update_job_progress. apply keeps_with_lock.
  apply keeps_bind; [auto with keeps|]. intros a.
  apply keeps_bind; [auto with keeps|]. intros [].
  apply keeps_bind; [auto with keeps|]. intros j.
  destruct (list_index (files j) file_index); [|auto with keeps].
  pose proof keeps_update_status. pose proof keeps_update_progress.
  auto 8 with keeps.
Qed.

Lemma keeps_process_file id file_index analyze_function :
  keeps (process_file isoformat id file_index analyze_function).
Proof.
  unfold process_file. pose proof keeps_update_job_progress as Hu.
  apply keeps_try_except; [|auto].
  apply keeps_bind; [auto with keeps|]. intros a.
  apply keeps_bind; [auto with keeps|]. intros j.
  destruct (list_index (files j) file_index); [|auto with keeps].
  destruct (analyze_function _); auto with keeps.
Qed.

Lemma keeps_get_job_status id : keeps (get_job_status id).
Proof.
  intros p. unfold get_job_status. destruct (jobs p !! id); [|cbn; eauto].
  apply keeps_with_lock. unfold copy_job. auto 8 with keeps.
Qed.

Lemma keeps_set_job_queue {A} (c : M A) q :
  keeps c -> keeps (fun p => c (set_job_queue q p)).
Proof. intros Hc p. apply (Hc (set_job_queue q p)). Qed.

Lemma keeps_start_batch id : keeps (start_batch id).
Proof.
  unfold start_batch. apply keeps_bind; [auto with keeps|]. intros a.
  apply keeps_bind; [auto with keeps|]. intros j p. cbn. eauto.
Qed.

Lemma keeps_worker_turn id analyze_function :
  keeps (worker_turn isoformat id analyze_function).
Proof.
  intros p. unfold worker_turn. destruct (job_queue p) as [|[task_job_id file_index] rest].
  - apply keeps_with_lock. auto 6 with keeps.
  - destruct (String.eqb task_job_id id); [|cbn; eauto].
    pose proof (keeps_process_file id file_index analyze_function (set_job_queue rest p))
      as Hp.
    destruct (process_file isoformat id file_index analyze_function (set_job_queue rest p))
      as [[[]|e|] p1]; [done| |done].
    by destruct (is_Exception e).
Qed.

Lemma keeps_worker turns id analyze_function :
  keeps (worker isoformat turns id analyze_function).
Proof.
  induction turns as [|turns IH]; cbn [worker]; [apply keeps_ret|].
  apply keeps_bind; [apply keeps_worker_turn|]. intros [|]; [apply keeps_ret|done].
Qed.

Lemma jobs_ok_keeps {A} (c : M A) p : keeps c -> jobs_ok p -> jobs_ok (c p).2.
Proof.
  intros Hc Hok id a. destruct (Hc p) as (-> & -> & Hh). intros Hid.
  destruct (Hok id a Hid) as (Hl & j & Hj). split; [done|]. by apply (Hh a j).
Qed.

(** [create_job] allocates the two lists and the dictionary, and registers
    the job and a free lock under its identifier. *)
Lemma create_job_spec id file_list p :
  let r := fresh (dom (heap p)) in
  let e := fresh (dom (<[r := OList []]> (heap p))) in
  let a := fresh (dom (<[e := OList []]> (<[r := OList []]> (heap p)))) in
  let j := {| job_id := id; files := file_list;
              total := Z.of_nat (length file_list); completed := 0;
              status := "pending"; start_time := isoformat (clock p);
              results := r; errors := e; end_time := None; progress := None |} in
  create_job isoformat id file_list p
  = (Ok a,
     {| max_workers := max_workers p; jobs := <[id := a]> (jobs p);
        job_queue := job_queue p; results_by_job := results_by_job p;
        locks := <[id := false]> (locks p);
        heap := <[a := OJob j]> (<[e := OList []]> (<[r := OList []]> (heap p)));
        clock := S (clock p) |}).
Proof.
  intros r e a j. unfold create_job, bind, now, alloc, lookup_job. cbn.
  by rewrite lookup_insert_eq.
Qed.

Lemma jobs_ok_create_job id file_list p :
  jobs_ok p -> jobs_ok (create_job isoformat id file_list p).2.
Proof.
  intros Hok. rewrite create_job_spec. cbn.
  set (r := fresh (dom (heap p))).
  set (e := fresh (dom (<[r := OList []]> (heap p)))).
  set (a := fresh (dom (<[e := OList []]> (<[r := OList []]> (heap p))))).
  intros id' a' Hid'. cbn in *.
  destruct (decide (id = id')) as [<-|Hne].
  - rewrite lookup_insert_eq in Hid'. injection Hid' as <-.
    rewrite !lookup_insert_eq. eauto.
  - rewrite lookup_insert_ne in Hid' by done. rewrite lookup_insert_ne by done.
    destruct (Hok id' a' Hid') as (Hl & j' & Hj'). split; [done|]. exists j'.
    subst a e r. by do 3 apply lookup_alloc.
Qed.

Lemma reachable_jobs_ok p : reachable isoformat p -> jobs_ok p.
Proof.
  induction 1 as [n|p id file_list _ IH|p id file_index result error _ IH
                  |p id file_index analyze_function _ IH|p id _ IH|p id _ IH
                  |p turns id analyze_function _ IH].
  - intros id a Hid. cbn in Hid. by rewrite lookup_empty in Hid.
  - by apply jobs_ok_create_job.
  - by apply jobs_ok_keeps; [apply keeps_update_job_progress|].
  - by apply jobs_ok_keeps; [apply keeps_process_file|].
  - by apply jobs_ok_keeps; [apply keeps_get_job_status|].
  - by apply jobs_ok_keeps; [apply keeps_start_batch|].
  - by apply jobs_ok_keeps; [apply keeps_worker|].
Qed.

Lemma copy_job_spec id p a j :
  jobs p !! id = Some a -> heap p !! a = Some (OJob j) ->
  copy_job id p
  = (Ok (fresh (dom (heap p))), set_heap (<[fresh (dom (heap p)) := OJob j]> (heap p)) p).
Proof.
  intros Hid Ha. unfold copy_job.
  rewrite (bind_ok _ _ p a p) by (by apply lookup_job_ok).
  by rewrite (bind_ok _ _ p j p) by (by apply read_job_ok).
Qed.

(** C10. For an identifier that is not in the job table, [get_job_status]
    returns [None] and changes nothing. For a job of a reachable state it
    returns a new dictionary, a copy of the job's dictionary: the copy is
    made in the state in which the job's lock is held, and the lock is
    released afterwards. The lock is what the call goes through: while
    another thread holds the lock of the job, [get_job_status] waits for it
    and makes no copy. *)
Theorem get_job_status_snapshot id p :
  reachable isoformat p ->
  match jobs p !! id with
  | None => get_job_status id p = (Ok None, p)
  | Some a =>
      exists j snapshot,
        heap p !! a = Some (OJob j) /\
        locks (acquire id p) !! id = Some true /\
        copy_job id (acquire id p)
        = (Ok snapshot, set_heap (<[snapshot := OJob j]> (heap p)) (acquire id p)) /\
        get_job_status id p
        = (Ok (Some snapshot), release id (copy_job id (acquire id p)).2) /\
        get_job_status id p
        = (Ok (Some snapshot), set_heap (<[snapshot := OJob j]> (heap p)) p) /\
        heap p !! snapshot = None /\
        (if decide (snapshot = a) then false else true) = true /\
        locks (get_job_status id p).2 !! id = Some false /\
        get_job_status id (acquire id p) = (Blocked, acquire id p)
  end.
Proof.
  intros Hreach. pose proof (reachable_jobs_ok p Hreach) as Hok.
  destruct (jobs p !! id) as [a|] eqn:Hid.
  - destruct (Hok id a Hid) as (Hfree & j & Hj).
    exists j, (fresh (dom (heap p))).
    assert (copy_job id (acquire id p)
            = (Ok (fresh (dom (heap p))),
               set_heap (<[fresh (dom (heap p)) := OJob j]> (heap p)) (acquire id p)))
      as Hcopy by (by apply (copy_job_spec id (acquire id p) a j)).
    assert (get_job_status id p
            = (Ok (Some (fresh (dom (heap p)))),
               release id (copy_job id (acquire id p)).2)) as Hstatus.
    { unfold get_job_status. rewrite Hid, with_lock_free by done.
      unfold bind. by rewrite Hcopy. }
    assert (get_job_status id p
            = (Ok (Some (fresh (dom (heap p)))),
               set_heap (<[fresh (dom (heap p)) := OJob j]> (heap p)) p)) as Hresult.
    { rewrite Hstatus, Hcopy. cbn [snd]. f_equal.
      clear -Hfree. destruct p as [mw js q rs ls h c].
      unfold release, acquire, set_heap, set_locks. cbn in *. f_equal.
      rewrite insert_insert_eq. by apply insert_id. }
    split; [done|]. split; [by cbn; rewrite lookup_insert_eq|].
    split; [done|]. split; [done|]. split; [done|].
    split; [apply fresh_not_in|]. split.
    { destruct (decide _) as [Heq|]; [|done].
      pose proof (fresh_not_in (heap p)) as Hf. rewrite Heq in Hf. congruence. }
    split; [by rewrite Hresult|].
    unfold get_job_status, with_lock. cbn [jobs locks acquire set_locks].
    by rewrite Hid, lookup_insert_eq.
  - unfold get_job_status. by rewrite Hid.
Qed.

(** C9, as the code has it. The rejection of an empty batch is in the two
    HTTP endpoints, not in the processor. When no upload yields a file path
    the request is answered with an error and [create_job] is not called,
    so the processor is as it was. The route of main.py answers 422 to a
    request without uploads, which FastAPI refuses before the handler runs,
    and 400 when no upload has a file name; the handler's own answer for an
    empty list of uploads is never given. app.py answers 400 in both
    cases. [create_job] itself checks nothing: for the empty file list it
    allocates a job with [total = 0] and status pending, like for any other
    list. *)
Theorem empty_batch_rejected_before_create_job
    (save_upload_file secure_filename upload_path : string -> string)
    id uploads p :
  (Endpoints.main_file_paths save_upload_file uploads = [] ->
   Endpoints.main_post_batch_create isoformat save_upload_file id uploads p
   = (match uploads with
      | [] => Endpoints.HttpError 422 "Field required"
      | _ :: _ => Endpoints.HttpError 400 "No valid video files"
      end, p)) /\
  (Endpoints.main_post_batch_create isoformat save_upload_file id uploads p).1
  <> Endpoints.HttpError 400 "No video files provided" /\
  (Endpoints.flask_file_paths secure_filename upload_path id uploads = [] ->
   Endpoints.flask_create_batch_job isoformat secure_filename upload_path id uploads p
   = (match uploads with
      | [] => Endpoints.HttpError 400 "No videos provided"
      | _ :: _ => Endpoints.HttpError 400 "No valid video files"
      end, p)) /\
  (exists a p',
     create_job isoformat id [] p = (Ok a, p') /\
     jobs p' !! id = Some a /\
     view p' id = Some {| view_total := 0; view_completed := 0;
                          view_status := "pending";
                          view_results := 0; view_errors := 0 |}).
Proof.
  split; [|split; [|split]].
  - intros Hpaths. unfold Endpoints.main_post_batch_create, Endpoints.main_create_batch_job.
    destruct uploads; [done|]. by rewrite Hpaths.
  - unfold Endpoints.main_post_batch_create, Endpoints.main_create_batch_job.
    destruct uploads as [|name rest]; [done|].
    destruct (Endpoints.main_file_paths save_upload_file (name :: rest)); [done|].
    by destruct (create_job isoformat id _ p) as [[a|e|] p'].
  - intros Hpaths. unfold Endpoints.flask_create_batch_job.
    destruct uploads; [done|]. by rewrite Hpaths.
  - rewrite create_job_spec. cbn zeta. eexists _, _. split; [done|].
    unfold view, view_at, list_length. cbn.
    rewrite !lookup_insert_eq. cbn.
    set (r := fresh (dom (heap p))).
    set (e := fresh (dom (<[r := OList []]> (heap p)))).
    assert (<[e := OList []]> (<[r := OList []]> (heap p)) !! r = Some (OList []))
      as Hr by (by apply lookup_alloc; rewrite lookup_insert_eq).
    assert (<[e := OList []]> (<[r := OList []]> (heap p)) !! e = Some (OList []))
      as He by (by rewrite lookup_insert_eq).
    by rewrite (lookup_alloc _ _ _ _ Hr), (lookup_alloc _ _ _ _ He).
Qed.

(** *** One progress update, step by step *)

Lemma cell_inv p a j rs es :
  cell p a = Some (j, rs, es) ->
  heap p !! a = Some (OJob j) /\ heap p !! results j = Some (OList rs) /\
  heap p !! errors j = Some (OList es) /\ results j <> errors j /\
  a <> results j /\ a <> errors j.
Proof.
  unfold cell. destruct (heap p !! a) as [[j'|l]|] eqn:Ha; try done.
  destruct (heap p !! results j') as [[?|rs']|] eqn:Hr; try done.
  destruct (heap p !! errors j') as [[?|es']|] eqn:He; try done.
  destruct (decide _) as [|Hne]; [done|]. intros [= <- <- <-].
  repeat split; try done; intros ->; congruence.
Qed.

Lemma cell_intro p a j rs es :
  heap p !! a = Some (OJob j) -> heap p !! results j = Some (OList rs) ->
  heap p !! errors j = Some (OList es) -> results j <> errors j ->
  cell p a = Some (j, rs, es).
Proof.
  intros Ha Hr He Hne. unfold cell. rewrite Ha, Hr, He.
  by destruct (decide _).
Qed.

Lemma update_job_cell a f p j rs es :
  cell p a = Some (j, rs, es) ->
  results (f j) = results j -> errors (f j) = errors j ->
  exists p', update_job a f p = (Ok tt, p') /\
    cell p' a = Some (f j, rs, es) /\
    jobs p' = jobs p /\ locks p' = locks p.
Proof.
  intros Hc Hr He. destruct (cell_inv _ _ _ _ _ Hc) as (Ha & Hrs & Hes & Hne & Har & Hae).
  eexists. split; [by apply update_job_ok|]. split; [|done].
  apply cell_intro; cbn.
  - by rewrite lookup_insert_eq.
  - by rewrite Hr, lookup_insert_ne.
  - by rewrite He, lookup_insert_ne.
  - by rewrite Hr, He.
Qed.

Lemma append_result_cell a x p j rs es :
  cell p a = Some (j, rs, es) ->
  exists p', list_append (results j) x p = (Ok tt, p') /\
    cell p' a = Some (j, rs ++ [x], es) /\
    jobs p' = jobs p /\ locks p' = locks p.
Proof.
  intros Hc. destruct (cell_inv _ _ _ _ _ Hc) as (Ha & Hrs & Hes & Hne & Har & Hae).
  eexists. split; [by apply list_append_ok|]. split; [|done].
  apply cell_intro; cbn; [|by rewrite lookup_insert_eq| |done].
  - by rewrite lookup_insert_ne.
  - by rewrite lookup_insert_ne.
Qed.

Lemma append_error_cell a x p j rs es :
  cell p a = Some (j, rs, es) ->
  exists p', list_append (errors j) x p = (Ok tt, p') /\
    cell p' a = Some (j, rs, es ++ [x]) /\
    jobs p' = jobs p /\ locks p' = locks p.
Proof.
  intros Hc. destruct (cell_inv _ _ _ _ _ Hc) as (Ha & Hrs & Hes & Hne & Har & Hae).
  eexists. split; [by apply list_append_ok|]. split; [|done].
  apply cell_intro; cbn; [| |by rewrite lookup_insert_eq|done].
  - by rewrite lookup_insert_ne.
  - by rewrite lookup_insert_ne.
Qed.

Lemma now_cell p a :
  cell (now isoformat p).2 a = cell p a /\
  jobs (now isoformat p).2 = jobs p /\ locks (now isoformat p).2 = locks p.
Proof. done. Qed.

Lemma update_status_cell a p j rs es :
  cell p a = Some (j, rs, es) ->
  exists p' j', update_status isoformat a p = (Ok tt, p') /\
    cell p' a = Some (j', rs, es) /\
    jobs p' = jobs p /\ locks p' = locks p /\
    total j' = total j /\ completed j' = completed j /\
    status j'
    = (if (completed j =? total j)%Z then "completed"
       else if String.eqb (status j) "pending" then "processing" else status j)%string.
Proof.
  intros Hc. destruct (cell_inv _ _ _ _ _ Hc) as (Ha & _).
  unfold update_status. rewrite (bind_ok _ _ p j p) by (by apply read_job_ok).
  destruct (completed j =? total j)%Z.
  - destruct (update_job_cell a (set_status "completed") p j rs es Hc eq_refl eq_refl)
      as (p1 & Hrun1 & Hc1 & Hj1 & Hl1).
    rewrite (bind_ok _ _ p tt p1 Hrun1).
    rewrite (bind_ok _ _ p1 (isoformat (clock p1)) (now isoformat p1).2 eq_refl).
    destruct (now_cell p1 a) as (Hcn & Hjn & Hln).
    rewrite <- Hcn in Hc1.
    destruct (update_job_cell a (set_end_time (isoformat (clock p1))) _ _ rs es Hc1
                eq_refl eq_refl) as (p2 & Hrun2 & Hc2 & Hj2 & Hl2).
    exists p2, (set_end_time (isoformat (clock p1)) (set_status "completed" j)).
    split; [done|]. split; [done|]. split; [congruence|]. split; [congruence|]. done.
  - destruct (String.eqb (status j) "pending").
    + destruct (update_job_cell a (set_status "processing") p j rs es Hc eq_refl eq_refl)
        as (p1 & Hrun1 & Hc1 & Hj1 & Hl1).
      by exists p1, (set_status "processing" j).
    + by exists p, j.
Qed.

Lemma update_progress_cell a p j rs es :
  cell p a = Some (j, rs, es) -> total j <> 0%Z ->
  exists p' j', update_progress a p = (Ok tt, p') /\
    cell p' a = Some (j', rs, es) /\
    jobs p' = jobs p /\ locks p' = locks p /\
    total j' = total j /\ completed j' = completed j /\ status j' = status j.
Proof.
  intros Hc Htotal. destruct (cell_inv _ _ _ _ _ Hc) as (Ha & _).
  unfold update_progress. rewrite (bind_ok _ _ p j p) by (by apply read_job_ok).
  destruct (total j =? 0)%Z eqn:Hz; [lia|].
  match goal with |- context [update_job a ?f] =>
    destruct (update_job_cell a f p j rs es Hc eq_refl eq_refl)
      as (p1 & Hrun1 & Hc1 & Hj1 & Hl1); by exists p1, (f j)
  end.
Qed.

Lemma view_cell p id a j rs es :
  jobs p !! id = Some a -> cell p a = Some (j, rs, es) ->
  view p id = Some {| view_total := total j; view_completed := completed j;
                      view_status := status j;
                      view_results := length rs; view_errors := length es |}.
Proof.
  intros Hid Hc. destruct (cell_inv _ _ _ _ _ Hc) as (Ha & Hr & He & _).
  unfold view, view_at, list_length. by rewrite Hid, Ha, Hr, He.
Qed.

(** What one progress update does to a job whose lock is free, for a valid
    file index: the counter goes up by one, a result is recorded only when
    [result] is truthy, an error only when [error] is truthy. *)
Lemma update_job_progress_view id file_index result error p a j rs es file_info :
  jobs p !! id = Some a -> locks p !! id = Some false ->
  cell p a = Some (j, rs, es) ->
  list_index (files j) file_index = Some file_info ->
  total j <> 0%Z ->
  exists p',
    update_job_progress isoformat id file_index result error p = (Ok tt, p') /\
    jobs p' = jobs p /\ locks p' = locks p /\
    view p' id
    = Some {| view_total := total j; view_completed := completed j + 1;
              view_status := next_status j;
              view_results := length rs + Nat.b2n (truthy result);
              view_errors := length es + Nat.b2n (truthy error) |}.
Proof.
  intros Hid Hfree Hc Hidx Htotal.
  unfold update_job_progress. rewrite with_lock_free by done.
  set (p0 := acquire id p).
  assert (cell p0 a = Some (j, rs, es)) as Hc0 by done.
  assert (jobs p0 = jobs p) as Hj0 by done.
  assert (locks p0 = <[id := true]> (locks p)) as Hl0 by done.
  clearbody p0.
  rewrite (bind_ok _ _ p0 a p0) by (apply lookup_job_ok; congruence).
  destruct (update_job_cell a (fun j => set_completed (completed j + 1) j) p0 j rs es
              Hc0 eq_refl eq_refl) as (p1 & Hrun1 & Hc1 & Hj1 & Hl1).
  rewrite (bind_ok _ _ p0 tt p1 Hrun1).
  destruct (cell_inv _ _ _ _ _ Hc1) as (Ha1 & _).
  rewrite (bind_ok _ _ p1 _ p1 (read_job_ok _ _ _ Ha1)).
  cbn [files set_completed]. rewrite Hidx.
  set (j1 := set_completed (completed j + 1) j) in *.
  (* the result *)
  match goal with |- context [when (truthy result) ?c] =>
    assert (exists p2, when (truthy result) c p1 = (Ok tt, p2) /\
              cell p2 a = Some (j1, rs ++ (if truthy result then [VDict
                 [("file_index"%string, VInt file_index);
                  ("filename"%string, filename_of file_info);
                  ("result"%string, result)]] else []), es) /\
              jobs p2 = jobs p1 /\ locks p2 = locks p1)
      as (p2 & Hrun2 & Hc2 & Hj2 & Hl2)
  end.
  { destruct (truthy result); cbn [when].
    - apply (append_result_cell a _ p1 j1 rs es Hc1).
    - exists p1. by rewrite app_nil_r. }
  rewrite (bind_ok _ _ p1 tt p2 Hrun2).
  match goal with |- context [when (truthy error) ?c] =>
    assert (exists p3, when (truthy error) c p2 = (Ok tt, p3) /\
              cell p3 a = Some (j1, rs ++ (if truthy result then [VDict
                 [("file_index"%string, VInt file_index);
                  ("filename"%string, filename_of file_info);
                  ("result"%string, result)]] else []),
                 es ++ (if truthy error then [VDict
                 [("file_index"%string, VInt file_index);
                  ("filename"%string, filename_of file_info);
                  ("error"%string, error)]] else [])) /\
              jobs p3 = jobs p2 /\ locks p3 = locks p2)
      as (p3 & Hrun3 & Hc3 & Hj3 & Hl3)
  end.
  { destruct (truthy error); cbn [when].
    - apply (append_error_cell a _ p2 j1 _ es Hc2).
    - exists p2. by rewrite app_nil_r. }
  rewrite (bind_ok _ _ p2 tt p3 Hrun3).
  destruct (update_status_cell a p3 j1 _ _ Hc3)
    as (p4 & j4 & Hrun4 & Hc4 & Hj4 & Hl4 & Ht4 & Hcm4 & Hs4).
  rewrite (bind_ok _ _ p3 tt p4 Hrun4).
  destruct (update_progress_cell a p4 j4 _ _ Hc4)
    as (p5 & j5 & Hrun5 & Hc5 & Hj5 & Hl5 & Ht5 & Hcm5 & Hs5); [by rewrite Ht4|].
  rewrite Hrun5. cbn [fst snd].
  exists (release id p5). split; [done|].
  assert (jobs (release id p5) = jobs p) as Hjobs by (cbn; congruence).
  split; [done|]. split.
  { cbn. rewrite Hl5, Hl4, Hl3, Hl2, Hl1, Hl0, insert_insert_eq. by apply insert_id. }
  erewrite (view_cell (release id p5) id a j5); [|by rewrite Hjobs|exact Hc5].
  rewrite Ht5, Ht4, Hcm5, Hcm4, Hs5, Hs4. subst j1. cbn [total completed status set_completed].
  unfold next_status. rewrite !length_app.
  by destruct (truthy result), (truthy error).
Qed.

(** [process_file] on a valid index: one progress update, with the result
    of the analysis or with the message of the exception it raised. *)
Lemma process_file_view id file_index analyze_function p a j rs es file_info :
  jobs p !! id = Some a -> locks p !! id = Some false ->
  cell p a = Some (j, rs, es) ->
  list_index (files j) file_index = Some file_info ->
  total j <> 0%Z ->
  caught (analyze_function (filepath_of file_info)) = true ->
  exists p',
    process_file isoformat id file_index analyze_function p = (Ok tt, p') /\
    jobs p' = jobs p /\ locks p' = locks p /\
    view p' id
    = Some {| view_total := total j; view_completed := completed j + 1;
              view_status := next_status j;
              view_results :=
                length rs + match analyze_function (filepath_of file_info) with
                            | inr result => Nat.b2n (truthy result)
                            | inl _ => 0
                            end;
              view_errors :=
                length es + match analyze_function (filepath_of file_info) with
                            | inl e => Nat.b2n (negb (String.eqb (exn_str e) ""))
                            | inr _ => 0
                            end |}.
Proof.
  intros Hid Hfree Hc Hidx Htotal Hcaught.
  destruct (cell_inv _ _ _ _ _ Hc) as (Ha & _).
  unfold process_file, try_except.
  rewrite (bind_ok _ _ p a p) by (by apply lookup_job_ok).
  rewrite (bind_ok _ _ p j p) by (by apply read_job_ok).
  rewrite Hidx.
  destruct (analyze_function (filepath_of file_info)) as [e|result].
  - cbn [raise]. cbn [caught] in Hcaught. rewrite Hcaught.
    destruct (update_job_progress_view id file_index VNone (VStr (exn_str e)) p a j rs es
                file_info Hid Hfree Hc Hidx Htotal) as (p' & Hrun & Hj & Hl & Hv).
    exists p'. rewrite Hrun. split; [done|]. split; [done|]. split; [done|].
    rewrite Hv. cbn [truthy Nat.b2n]. by rewrite Nat.add_0_r.
  - destruct (update_job_progress_view id file_index result VNone p a j rs es
                file_info Hid Hfree Hc Hidx Htotal) as (p' & Hrun & Hj & Hl & Hv).
    exists p'. rewrite Hrun. split; [done|]. split; [done|]. split; [done|].
    rewrite Hv. cbn [truthy Nat.b2n]. by rewrite Nat.add_0_r.
Qed.

(** The count invariant on the healthy path. A job that is not finished and
    whose counter equals the number of recorded results and errors keeps
    that equality through [process_file], and is marked completed exactly
    when the counter reaches the total, provided the analysis returns a
    truthy result or raises an exception that [except Exception] catches
    and whose message is not empty. *)
Theorem process_file_keeps_count id file_index analyze_function p a j rs es file_info :
  jobs p !! id = Some a -> locks p !! id = Some false ->
  cell p a = Some (j, rs, es) ->
  list_index (files j) file_index = Some file_info ->
  (completed j < total j)%Z ->
  completed j = Z.of_nat (length rs + length es) ->
  String.eqb (status j) "completed" = false ->
  match analyze_function (filepath_of file_info) with
  | inr result => truthy result
  | inl e => is_Exception e && negb (String.eqb (exn_str e) "")
  end = true ->
  exists p' v,
    process_file isoformat id file_index analyze_function p = (Ok tt, p') /\
    view p' id = Some v /\
    view_completed v = Z.of_nat (view_results v + view_errors v) /\
    (String.eqb (view_status v) "completed" = (view_completed v =? view_total v)%Z).
Proof.
  intros Hid Hfree Hc Hidx Hlt Hcount Hstatus Hrecorded.
  assert (0 <= completed j)%Z as Hnonneg by lia.
  assert (caught (analyze_function (filepath_of file_info)) = true) as Hcaught.
  { destruct (analyze_function (filepath_of file_info)) as [e|result]; [|done].
    cbn. by destruct (is_Exception e). }
  destruct (process_file_view id file_index analyze_function p a j rs es file_info
              Hid Hfree Hc Hidx) as (p' & Hrun & _ & _ & Hv); [lia|done|].
  eexists p', _. split; [done|]. split; [exact Hv|]. cbn. split.
  - destruct (analyze_function (filepath_of file_info)) as [e|result].
    + apply andb_true_iff in Hrecorded as [_ Hrecorded]. rewrite Hrecorded; cbn; lia.
    + rewrite Hrecorded; cbn; lia.
  - unfold next_status. destruct (completed j + 1 =? total j)%Z; [done|].
    destruct (String.eqb (status j) "pending") eqn:Hp; [done|]. done.
Qed.

(** *** One progress update, with everything it leaves alone *)

Lemma same_but_refl a r e p : same_but a r e p p.
Proof. by repeat split. Qed.

Lemma same_but_trans a r e p1 p2 p3 :
  same_but a r e p1 p2 -> same_but a r e p2 p3 -> same_but a r e p1 p3.
Proof.
  intros (Hm & Hj & Hq & Hr & Hl & Hh) (Hm' & Hj' & Hq' & Hr' & Hl' & Hh').
  repeat split; try congruence.
  intros x Ha Hr0 He. rewrite Hh' by done. by apply Hh.
Qed.

Lemma same_but_with_lock a r e id p p' :
  locks p !! id = Some false ->
  same_but a r e (acquire id p) p' -> same_but a r e p (release id p').
Proof.
  intros Hfree (Hm & Hj & Hq & Hr & Hl & Hh). repeat split; try done.
  cbn. rewrite Hl. cbn. rewrite insert_insert_eq. by apply insert_id.
Qed.

Lemma update_job_step a f p j rs es :
  cell p a = Some (j, rs, es) ->
  results (f j) = results j -> errors (f j) = errors j ->
  exists p', update_job a f p = (Ok tt, p') /\
    cell p' a = Some (f j, rs, es) /\
    same_but a (results j) (errors j) p p' /\ clock p' = clock p.
Proof.
  intros Hc Hr He. destruct (cell_inv _ _ _ _ _ Hc) as (Ha & Hrs & Hes & Hne & Har & Hae).
  eexists. split; [by apply update_job_ok|]. split; [|split; [|done]].
  - apply cell_intro; cbn.
    + by rewrite lookup_insert_eq.
    + by rewrite Hr, lookup_insert_ne.
    + by rewrite He, lookup_insert_ne.
    + by rewrite Hr, He.
  - repeat split; try done. intros x Hx _ _. cbn. by rewrite lookup_insert_ne.
Qed.

Lemma append_result_step a x p j rs es :
  cell p a = Some (j, rs, es) ->
  exists p', list_append (results j) x p = (Ok tt, p') /\
    cell p' a = Some (j, rs ++ [x], es) /\
    same_but a (results j) (errors j) p p' /\ clock p' = clock p.
Proof.
  intros Hc. destruct (cell_inv _ _ _ _ _ Hc) as (Ha & Hrs & Hes & Hne & Har & Hae).
  eexists. split; [by apply list_append_ok|]. split; [|split; [|done]].
  - apply cell_intro; cbn; [|by rewrite lookup_insert_eq| |done].
    + by rewrite lookup_insert_ne.
    + by rewrite lookup_insert_ne.
  - repeat split; try done. intros y _ Hy _. cbn. by rewrite lookup_insert_ne.
Qed.

Lemma append_error_step a x p j rs es :
  cell p a = Some (j, rs, es) ->
  exists p', list_append (errors j) x p = (Ok tt, p') /\
    cell p' a = Some (j, rs, es ++ [x]) /\
    same_but a (results j) (errors j) p p' /\ clock p' = clock p.
Proof.
  intros Hc. destruct (cell_inv _ _ _ _ _ Hc) as (Ha & Hrs & Hes & Hne & Har & Hae).
  eexists. split; [by apply list_append_ok|]. split; [|split; [|done]].
  - apply cell_intro; cbn; [| |by rewrite lookup_insert_eq|done].
    + by rewrite lookup_insert_ne.
    + by rewrite lookup_insert_ne.
  - repeat split; try done. intros y _ _ Hy. cbn. by rewrite lookup_insert_ne.
Qed.

Lemma update_status_step a p j rs es :
  cell p a = Some (j, rs, es) ->
  exists p',
    update_status isoformat a p = (Ok tt, p') /\
    cell p' a
    = Some (if (completed j =? total j)%Z
            then set_end_time (isoformat (clock p)) (set_status "completed" j)
            else if String.eqb (status j) "pending" then set_status "processing" j
            else j, rs, es) /\
    same_but a (results j) (errors j) p p' /\
    clock p' = (clock p + if (completed j =? total j)%Z then 1 else 0)%nat.
Proof.
  intros Hc. destruct (cell_inv _ _ _ _ _ Hc) as (Ha & _).
  unfold update_status. rewrite (bind_ok _ _ p j p) by (by apply read_job_ok).
  destruct (completed j =? total j)%Z.
  - destruct (update_job_step a (set_status "completed") p j rs es Hc eq_refl eq_refl)
      as (p1 & Hrun1 & Hc1 & Hs1 & Hk1).
    rewrite (bind_ok _ _ p tt p1 Hrun1).
    rewrite (bind_ok _ _ p1 (isoformat (clock p1)) (now isoformat p1).2 eq_refl).
    destruct (update_job_step a (set_end_time (isoformat (clock p1)))
                (now isoformat p1).2 _ rs es Hc1 eq_refl eq_refl)
      as (p2 & Hrun2 & Hc2 & Hs2 & Hk2).
    exists p2. split; [done|]. rewrite <- Hk1. split; [done|]. split.
    + eapply same_but_trans; [exact Hs1|].
      eapply same_but_trans; [|exact Hs2]. by repeat split.
    + rewrite Hk2. cbn. lia.
  - destruct (String.eqb (status j) "pending").
    + destruct (update_job_step a (set_status "processing") p j rs es Hc eq_refl eq_refl)
        as (p1 & Hrun1 & Hc1 & Hs1 & Hk1).
      exists p1. split; [done|]. split; [done|]. split; [done|]. lia.
    + exists p. split; [done|]. split; [done|]. split; [apply same_but_refl|]. lia.
Qed.

Lemma update_progress_step a p j rs es :
  cell p a = Some (j, rs, es) -> total j <> 0%Z ->
  exists p',
    update_progress a p = (Ok tt, p') /\
    cell p' a
    = Some (set_progress (float_of_Z (completed j) / float_of_Z (total j) * 100)%float j,
            rs, es) /\
    same_but a (results j) (errors j) p p' /\ clock p' = clock p.
Proof.
  intros Hc Htotal. destruct (cell_inv _ _ _ _ _ Hc) as (Ha & _).
  unfold update_progress. rewrite (bind_ok _ _ p j p) by (by apply read_job_ok).
  destruct (total j =? 0)%Z eqn:Hz; [lia|].
  by apply update_job_step.
Qed.

(** A progress update on a job whose lock is free, for a file index in
    range: the job dictionary becomes [updated], the two lists grow by what
    is [recorded], the clock is read once if the job completes, and nothing
    else in the processor changes. *)
Lemma update_job_progress_updated id file_index result error p a j rs es file_info :
  jobs p !! id = Some a -> locks p !! id = Some false ->
  cell p a = Some (j, rs, es) ->
  list_index (files j) file_index = Some file_info ->
  total j <> 0%Z ->
  exists p',
    update_job_progress isoformat id file_index result error p = (Ok tt, p') /\
    cell p' a
    = Some (updated (isoformat (clock p)) j,
            rs ++ recorded "result" file_index file_info result,
            es ++ recorded "error" file_index file_info error) /\
    same_but a (results j) (errors j) p p' /\
    clock p' = (clock p + if (completed j + 1 =? total j)%Z then 1 else 0)%nat.
Proof.
  intros Hid Hfree Hc Hidx Htotal.
  unfold update_job_progress. rewrite with_lock_free by done.
  set (p0 := acquire id p).
  assert (cell p0 a = Some (j, rs, es)) as Hc0 by done.
  assert (jobs p0 = jobs p) as Hj0 by done.
  assert (clock p0 = clock p) as Hk0 by done.
  rewrite (bind_ok _ _ p0 a p0) by (apply lookup_job_ok; congruence).
  destruct (update_job_step a (fun j => set_completed (completed j + 1) j) p0 j rs es
              Hc0 eq_refl eq_refl) as (p1 & Hrun1 & Hc1 & Hs1 & Hk1).
  rewrite (bind_ok _ _ p0 tt p1 Hrun1).
  destruct (cell_inv _ _ _ _ _ Hc1) as (Ha1 & _).
  rewrite (bind_ok _ _ p1 _ p1 (read_job_ok _ _ _ Ha1)).
  cbn [files set_completed]. rewrite Hidx.
  set (j1 := set_completed (completed j + 1) j) in *.
  assert (exists p2,
            when (truthy result)
              (list_append (results j1)
                 (VDict [("file_index"%string, VInt file_index);
                         ("filename"%string, filename_of file_info);
                         ("result"%string, result)])) p1 = (Ok tt, p2) /\
            cell p2 a = Some (j1, rs ++ recorded "result" file_index file_info result, es) /\
            same_but a (results j) (errors j) p1 p2 /\ clock p2 = clock p1)
    as (p2 & Hrun2 & Hc2 & Hs2 & Hk2).
  { unfold recorded. destruct (truthy result); cbn [when].
    - apply (append_result_step a _ p1 j1 rs es Hc1).
    - exists p1. rewrite app_nil_r. split; [done|]. split; [done|].
      split; [apply same_but_refl|done]. }
  rewrite (bind_ok _ _ p1 tt p2 Hrun2).
  assert (exists p3,
            when (truthy error)
              (list_append (errors j1)
                 (VDict [("file_index"%string, VInt file_index);
                         ("filename"%string, filename_of file_info);
                         ("error"%string, error)])) p2 = (Ok tt, p3) /\
            cell p3 a = Some (j1, rs ++ recorded "result" file_index file_info result,
                              es ++ recorded "error" file_index file_info error) /\
            same_but a (results j) (errors j) p2 p3 /\ clock p3 = clock p2)
    as (p3 & Hrun3 & Hc3 & Hs3 & Hk3).
  { unfold recorded at 2. destruct (truthy error); cbn [when].
    - apply (append_error_step a _ p2 j1 _ es Hc2).
    - exists p2. rewrite app_nil_r. split; [done|]. split; [done|].
      split; [apply same_but_refl|done]. }
  rewrite (bind_ok _ _ p2 tt p3 Hrun3).
  destruct (update_status_step a p3 j1 _ _ Hc3) as (p4 & Hrun4 & Hc4 & Hs4 & Hk4).
  rewrite (bind_ok _ _ p3 tt p4 Hrun4).
  destruct (update_progress_step a p4 _ _ _ Hc4) as (p5 & Hrun5 & Hc5 & Hs5 & Hk5).
  { subst j1. cbn. destruct (_ =? _)%Z; [done|]. by destruct (String.eqb _ _). }
  rewrite Hrun5. cbn [fst snd].
  exists (release id p5). split; [done|].
  assert (clock p3 = clock p) as Hk by congruence.
  split; [|split].
  - rewrite <- Hk. exact Hc5.
  - apply same_but_with_lock; [done|]. fold p0.
    eapply same_but_trans; [exact Hs1|]. eapply same_but_trans; [exact Hs2|].
    eapply same_but_trans; [exact Hs3|]. eapply same_but_trans; [exact Hs4|].
    revert Hs5. subst j1. cbn [completed total status set_completed].
    destruct (_ =? _)%Z; [done|]. by destruct (String.eqb _ _).
  - cbn. rewrite Hk5, Hk4, Hk. by subst j1.
Qed.

(** The fields a progress update leaves alone, and the two it sets. *)
Lemma updated_fields finished j :
  results (updated finished j) = results j /\
  errors (updated finished j) = errors j /\
  files (updated finished j) = files j /\
  total (updated finished j) = total j /\
  completed (updated finished j) = (completed j + 1)%Z /\
  status (updated finished j) = next_status j.
Proof.
  unfold updated, next_status. cbn [completed total status set_completed].
  destruct (_ =? _)%Z; [done|]. by destruct (String.eqb _ _).
Qed.

(** [process_file] on a file index in range: the analysis is run on the
    path of the file, and one progress update records what it gave. *)
Lemma process_file_updated id file_index analyze_function p a j rs es file_info :
  jobs p !! id = Some a -> locks p !! id = Some false ->
  cell p a = Some (j, rs, es) ->
  list_index (files j) file_index = Some file_info ->
  total j <> 0%Z ->
  caught (analyze_function (filepath_of file_info)) = true ->
  exists p',
    process_file isoformat id file_index analyze_function p = (Ok tt, p') /\
    cell p' a
    = Some (updated (isoformat (clock p)) j,
            rs ++ results_of analyze_function file_index file_info,
            es ++ errors_of analyze_function file_index file_info) /\
    same_but a (results j) (errors j) p p'.
Proof.
  intros Hid Hfree Hc Hidx Htotal Hcaught.
  destruct (cell_inv _ _ _ _ _ Hc) as (Ha & _).
  unfold process_file, try_except, results_of, errors_of.
  rewrite (bind_ok _ _ p a p) by (by apply lookup_job_ok).
  rewrite (bind_ok _ _ p j p) by (by apply read_job_ok).
  rewrite Hidx.
  destruct (analyze_function (filepath_of file_info)) as [e|result].
  - cbn [raise]. cbn [caught] in Hcaught. rewrite Hcaught.
    destruct (update_job_progress_updated id file_index VNone (VStr (exn_str e)) p a j rs es
                file_info Hid Hfree Hc Hidx Htotal) as (p' & Hrun & Hc' & Hs & _).
    exists p'. rewrite Hrun. split; [done|]. split; [|done].
    rewrite Hc'. unfold recorded at 1. cbn [truthy]. by rewrite app_nil_r.
  - destruct (update_job_progress_updated id file_index result VNone p a j rs es
                file_info Hid Hfree Hc Hidx Htotal) as (p' & Hrun & Hc' & Hs & _).
    exists p'. rewrite Hrun. split; [done|]. split; [|done].
    rewrite Hc'. unfold recorded at 2. cbn [truthy]. by rewrite app_nil_r.
Qed.

(** An exception of the analysis that [except Exception] does not catch
    leaves [process_file] at once: the file is not counted and the
    processor stays as it is. *)
Lemma process_file_uncaught id file_index analyze_function p a j file_info e :
  jobs p !! id = Some a -> heap p !! a = Some (OJob j) ->
  list_index (files j) file_index = Some file_info ->
  analyze_function (filepath_of file_info) = inl e -> is_Exception e = false ->
  process_file isoformat id file_index analyze_function p = (Raise e, p).
Proof.
  intros Hid Ha Hidx Hraised Hclass. unfold process_file, try_except.
  rewrite (bind_ok _ _ p a p) by (by apply lookup_job_ok).
  rewrite (bind_ok _ _ p j p) by (by apply read_job_ok).
  rewrite Hidx, Hraised. cbn [raise]. by rewrite Hclass.
Qed.

(** In every state the methods can reach, a job and its lock are
    registered together. *)
Lemma reachable_lock_registered p id :
  reachable isoformat p -> jobs p !! id = None -> locks p !! id = None.
Proof.
  induction 1 as [n|p id' file_list _ IH|p id' file_index result error _ IH
                  |p id' file_index analyze_function _ IH|p id' _ IH|p id' _ IH
                  |p turns id' analyze_function _ IH].
  - intros _. apply lookup_empty.
  - rewrite create_job_spec. cbn. intros Hid.
    destruct (decide (id' = id)) as [->|Hne].
    + by rewrite lookup_insert_eq in Hid.
    + rewrite lookup_insert_ne in Hid by done. rewrite lookup_insert_ne by done. auto.
  - destruct (keeps_update_job_progress id' file_index result error p) as (-> & -> & _).
    exact IH.
  - destruct (keeps_process_file id' file_index analyze_function p) as (-> & -> & _).
    exact IH.
  - destruct (keeps_get_job_status id' p) as (-> & -> & _). exact IH.
  - destruct (keeps_start_batch id' p) as (-> & -> & _). exact IH.
  - destruct (keeps_worker turns id' analyze_function p) as (-> & -> & _). exact IH.
Qed.

(** An identifier that names no job. A progress update raises [KeyError]
    for it, and so does [process_file]: its handler calls the progress
    update, whose exception is not handled. The analysis function is not
    called and the processor stays as it is. *)
Theorem process_file_unknown_job id file_index result error analyze_function p :
  reachable isoformat p -> jobs p !! id = None ->
  update_job_progress isoformat id file_index result error p = (Raise (KeyError id), p) /\
  process_file isoformat id file_index analyze_function p = (Raise (KeyError id), p) /\
  start_batch id p = (Raise (KeyError id), p).
Proof.
  intros Hreach Hid. pose proof (reachable_lock_registered p id Hreach Hid) as Hlock.
  assert (forall r e,
            update_job_progress isoformat id file_index r e p = (Raise (KeyError id), p))
    as Hupdate.
  { intros r e. unfold update_job_progress, with_lock. by rewrite Hlock. }
  split; [apply Hupdate|]. split.
  - unfold process_file, try_except, bind, lookup_job. rewrite Hid. apply Hupdate.
  - unfold start_batch, bind, lookup_job. by rewrite Hid.
Qed.

(** A file index out of range. [process_file] fails on the index before it
    calls the analysis function, and its handler reports the failure to the
    progress update, which counts the file and then fails on the same index:
    [IndexError] leaves [process_file], the job has [completed] one higher,
    nothing is recorded, the status is as before and the lock is free. *)
Theorem process_file_index_out_of_range id file_index analyze_function p a j rs es :
  jobs p !! id = Some a -> locks p !! id = Some false ->
  cell p a = Some (j, rs, es) ->
  list_index (files j) file_index = None ->
  exists p',
    process_file isoformat id file_index analyze_function p = (Raise IndexError, p') /\
    cell p' a = Some (set_completed (completed j + 1) j, rs, es) /\
    same_but a (results j) (errors j) p p' /\
    view p' id
    = Some {| view_total := total j; view_completed := completed j + 1;
              view_status := status j;
              view_results := length rs; view_errors := length es |}.
Proof.
  intros Hid Hfree Hc Hidx.
  destruct (cell_inv _ _ _ _ _ Hc) as (Ha & _).
  unfold process_file, try_except.
  rewrite (bind_ok _ _ p a p) by (by apply lookup_job_ok).
  rewrite (bind_ok _ _ p j p) by (by apply read_job_ok).
  rewrite Hidx. cbn [raise].
  unfold update_job_progress. rewrite with_lock_free by done.
  set (p0 := acquire id p).
  assert (cell p0 a = Some (j, rs, es)) as Hc0 by done.
  rewrite (bind_ok _ _ p0 a p0) by (by apply lookup_job_ok).
  destruct (update_job_step a (fun j => set_completed (completed j + 1) j) p0 j rs es
              Hc0 eq_refl eq_refl) as (p1 & Hrun1 & Hc1 & Hs1 & Hk1).
  rewrite (bind_ok _ _ p0 tt p1 Hrun1).
  destruct (cell_inv _ _ _ _ _ Hc1) as (Ha1 & _).
  rewrite (bind_ok _ _ p1 _ p1 (read_job_ok _ _ _ Ha1)).
  cbn [files set_completed]. rewrite Hidx. cbn [raise fst snd].
  exists (release id p1). split; [done|].
  assert (same_but a (results j) (errors j) p (release id p1)) as Hs
    by (by apply same_but_with_lock).
  split; [exact Hc1|]. split; [exact Hs|].
  destruct Hs as (_ & Hjobs & _).
  by rewrite (view_cell (release id p1) id a _ rs es) by (by rewrite ?Hjobs).
Qed.

(** The fields a progress update computes. The status never goes back: a
    pending job becomes processing or completed, a completed job stays
    completed, and the job is completed after the update exactly if it was
    before or the counter has reached the total. [progress] is the quotient
    of the new counter and the total times 100, and [end_time] is written
    by the one update that brings the counter to the total. *)
Theorem update_job_progress_moves_forward
    id file_index result error p a j rs es file_info :
  jobs p !! id = Some a -> locks p !! id = Some false ->
  cell p a = Some (j, rs, es) ->
  list_index (files j) file_index = Some file_info ->
  total j <> 0%Z ->
  exists p' j' rs' es',
    update_job_progress isoformat id file_index result error p = (Ok tt, p') /\
    cell p' a = Some (j', rs', es') /\
    completed j' = (completed j + 1)%Z /\ total j' = total j /\ files j' = files j /\
    status_rank (status j) <= status_rank (status j') /\
    (String.eqb (status j') "completed"
     = String.eqb (status j) "completed" || (completed j' =? total j')%Z) /\
    progress j'
    = Some (float_of_Z (completed j + 1) / float_of_Z (total j) * 100)%float /\
    end_time j'
    = (if (completed j + 1 =? total j)%Z then Some (isoformat (clock p)) else end_time j).
Proof.
  intros Hid Hfree Hc Hidx Htotal.
  destruct (update_job_progress_updated id file_index result error p a j rs es file_info
              Hid Hfree Hc Hidx Htotal) as (p' & Hrun & Hc' & _).
  eexists p', _, _, _. split; [exact Hrun|]. split; [exact Hc'|].
  unfold updated. cbn [completed total status set_completed].
  destruct (completed j + 1 =? total j)%Z eqn:Hdone;
    [|destruct (String.eqb (status j) "pending") eqn:Hp];
    cbn; rewrite ?Hdone, ?orb_true_r, ?orb_false_r.
  - repeat split; try done.
    unfold status_rank. repeat destruct (String.eqb _ _); lia.
  - apply String.eqb_eq in Hp. rewrite Hp. repeat split; try done. cbv. lia.
  - by repeat split.
Qed.

(** What [get_job_status] does for a job of the table whose lock is free. *)
Lemma get_job_status_copy id p a j :
  jobs p !! id = Some a -> locks p !! id = Some false ->
  heap p !! a = Some (OJob j) ->
  get_job_status id p
  = (Ok (Some (fresh (dom (heap p)))),
     set_heap (<[fresh (dom (heap p)) := OJob j]> (heap p)) p).
Proof.
  intros Hid Hfree Ha. unfold get_job_status. rewrite Hid, with_lock_free by done.
  unfold bind.
  assert (copy_job id (acquire id p)
          = (Ok (fresh (dom (heap p))),
             set_heap (<[fresh (dom (heap p)) := OJob j]> (heap p)) (acquire id p)))
    as -> by (by apply (copy_job_spec id (acquire id p) a j)).
  cbn [fst snd ret]. f_equal.
  destruct p as [mw js q rs ls h c].
  unfold release, acquire, set_heap, set_locks. cbn in *. f_equal.
  rewrite insert_insert_eq. by apply insert_id.
Qed.

(** A status snapshot is a shallow copy. When a file is processed after the
    snapshot was taken, and the analysis returns or raises an exception that
    [except Exception] catches, the counter of the snapshot stays as it was,
    while its [results] and [errors] are the lists of the job itself and
    show the new entry: the snapshot then counts fewer files than it
    lists. *)
Theorem snapshot_shares_result_lists
    id file_index analyze_function p a j rs es file_info :
  jobs p !! id = Some a -> locks p !! id = Some false ->
  cell p a = Some (j, rs, es) ->
  list_index (files j) file_index = Some file_info ->
  total j <> 0%Z ->
  caught (analyze_function (filepath_of file_info)) = true ->
  exists snapshot p1 p2,
    get_job_status id p = (Ok (Some snapshot), p1) /\
    process_file isoformat id file_index analyze_function p1 = (Ok tt, p2) /\
    heap p2 !! snapshot = Some (OJob j) /\
    view_at p2 snapshot
    = Some {| view_total := total j; view_completed := completed j;
              view_status := status j;
              view_results :=
                length (rs ++ results_of analyze_function file_index file_info);
              view_errors :=
                length (es ++ errors_of analyze_function file_index file_info) |} /\
    view p2 id
    = Some {| view_total := total j; view_completed := completed j + 1;
              view_status := next_status j;
              view_results :=
                length (rs ++ results_of analyze_function file_index file_info);
              view_errors :=
                length (es ++ errors_of analyze_function file_index file_info) |}.
Proof.
  intros Hid Hfree Hc Hidx Htotal Hcaught.
  destruct (cell_inv _ _ _ _ _ Hc) as (Ha & Hr & He & Hne & Har & Hae).
  set (s := fresh (dom (heap p))).
  set (p1 := set_heap (<[s := OJob j]> (heap p)) p).
  assert (heap p !! s = None) as Hs by apply fresh_not_in.
  assert (s <> a /\ s <> results j /\ s <> errors j) as (Hsa & Hsr & Hse).
  { repeat split; intros Heq; rewrite Heq in Hs; congruence. }
  assert (cell p1 a = Some (j, rs, es)) as Hc1.
  { apply cell_intro; [| | |done]; subst p1; cbn; by rewrite lookup_insert_ne. }
  destruct (process_file_updated id file_index analyze_function p1 a j rs es file_info
              Hid Hfree Hc1 Hidx Htotal Hcaught) as (p2 & Hrun & Hc2 & Hsame).
  exists s, p1, p2. split; [by apply (get_job_status_copy id p a j)|]. split; [exact Hrun|].
  destruct Hsame as (_ & Hjobs & _ & _ & _ & Hheap).
  assert (heap p2 !! s = Some (OJob j)) as Hsnap.
  { rewrite Hheap by done. subst p1. cbn. by rewrite lookup_insert_eq. }
  destruct (cell_inv _ _ _ _ _ Hc2) as (Ha2 & Hr2 & He2 & _).
  split; [exact Hsnap|]. split.
  - unfold view_at, list_length. rewrite Hsnap.
    destruct (updated_fields (isoformat (clock p1)) j) as (Er & Ee & _).
    rewrite Er in Hr2. rewrite Ee in He2. by rewrite Hr2, He2.
  - rewrite (view_cell p2 id a _ _ _ (eq_trans (f_equal (.!! id) Hjobs) Hid) Hc2).
    destruct (updated_fields (isoformat (clock p1)) j) as (_ & _ & _ & -> & -> & ->).
    done.
Qed.

(** *** A worker on its own *)

Lemma list_index_nat {A} (l : list A) (k : nat) : list_index l (Z.of_nat k) = l !! k.
Proof.
  unfold list_index. destruct (0 <=? Z.of_nat k)%Z eqn:Hk; [|apply Z.leb_gt in Hk; lia].
  by rewrite Nat2Z.id.
Qed.

Lemma same_but_set_job_queue a r e q p p' :
  same_but a r e p p' -> same_but a r e (set_job_queue q p) (set_job_queue q p').
Proof. intros (Hm & Hj & Hq & Hr & Hl & Hh). by repeat split. Qed.

(** The worker takes the tasks of its job from the queue one after the
    other; [k] files are done and [todo] are the files still to do. *)
Lemma worker_run id analyze_function a todo :
  forall p j rs es (k : nat),
    jobs p !! id = Some a -> locks p !! id = Some false ->
    cell p a = Some (j, rs, es) ->
    completed j = Z.of_nat k -> total j = Z.of_nat (k + length todo) ->
    drop k (files j) = todo ->
    (todo = [] -> status j = "completed"%string) ->
    job_queue p = List.map (fun i => (id, Z.of_nat i)) (seq k (length todo)) ->
    Forall (fun file_info => caught (analyze_function (filepath_of file_info)) = true)
      todo ->
    exists p' j',
      worker isoformat (S (length todo)) id analyze_function p = (Ok true, p') /\
      cell p' a
      = Some (j',
              rs ++ concat (imap (fun i => results_of analyze_function (Z.of_nat (k + i)))
                              todo),
              es ++ concat (imap (fun i => errors_of analyze_function (Z.of_nat (k + i)))
                              todo)) /\
      completed j' = total j /\ total j' = total j /\ files j' = files j /\
      status j' = "completed"%string /\
      same_but a (results j) (errors j) (set_job_queue [] p) p'.
Proof.
  induction todo as [|file_info rest IH];
    intros p j rs es k Hid Hfree Hc Hdone Htotal Hdrop Hstatus Hqueue Hcaught.
  - destruct (cell_inv _ _ _ _ _ Hc) as (Ha & _).
    exists p, j. cbn [length worker]. unfold bind, worker_turn.
    cbn in Hqueue. rewrite Hqueue, with_lock_free by done.
    unfold bind.
    assert (lookup_job id (acquire id p) = (Ok a, acquire id p)) as ->
      by (by apply lookup_job_ok).
    assert (read_job a (acquire id p) = (Ok j, acquire id p)) as ->
      by (by apply read_job_ok).
    cbn [ret fst snd]. rewrite release_acquire by done.
    assert ((completed j =? total j)%Z = true) as -> by (cbn in Htotal; lia).
    split; [done|]. cbn. rewrite !app_nil_r.
    split; [done|]. split; [cbn in Htotal; lia|]. split; [done|]. split; [done|].
    split; [by apply Hstatus|]. by repeat split.
  - assert (files j !! k = Some file_info) as Hfile.
    { rewrite <- (Nat.add_0_r k), <- lookup_drop. by rewrite Hdrop. }
    assert (drop (S k) (files j) = rest) as Hdrop'.
    { replace (S k) with (k + 1)%nat by lia. by rewrite <- drop_drop, Hdrop. }
    cbn [length seq List.map] in Hqueue.
    set (queue := List.map (fun i => (id, Z.of_nat i)) (seq (S k) (length rest))) in *.
    set (p0 := set_job_queue queue p).
    apply Forall_cons in Hcaught as [Hfirst Hcaught].
    destruct (process_file_updated id (Z.of_nat k) analyze_function p0 a j rs es file_info)
      as (p1 & Hrun & Hc1 & Hsame); try done.
    { by rewrite list_index_nat. }
    { cbn in Htotal. lia. }
    destruct (updated_fields (isoformat (clock p0)) j) as (Er & Ee & Ef & Et & Ec & Es).
    destruct Hsame as (Hm1 & Hj1 & Hq1 & Hr1 & Hl1 & Hh1).
    assert (jobs p1 !! id = Some a) as Hid1 by (by rewrite Hj1).
    assert (locks p1 !! id = Some false) as Hfree1 by (by rewrite Hl1).
    assert (completed (updated (isoformat (clock p0)) j) = Z.of_nat (S k)) as Hdone1
      by (rewrite Ec, Hdone; lia).
    assert (total (updated (isoformat (clock p0)) j) = Z.of_nat (S k + length rest))
      as Htotal1 by (rewrite Et, Htotal; cbn [length]; lia).
    assert (drop (S k) (files (updated (isoformat (clock p0)) j)) = rest) as Hdrop1
      by (by rewrite Ef).
    assert (rest = [] -> status (updated (isoformat (clock p0)) j) = "completed"%string)
      as Hstatus1.
    { intros ->. rewrite Es. unfold next_status.
      assert ((completed j + 1 =? total j)%Z = true) as -> by (cbn in Htotal; lia).
      done. }
    assert (job_queue p1 = queue) as Hqueue1 by (by rewrite Hq1).
    destruct (IH p1 (updated (isoformat (clock p0)) j) _ _ (S k)
                Hid1 Hfree1 Hc1 Hdone1 Htotal1 Hdrop1 Hstatus1 Hqueue1 Hcaught)
      as (p' & j' & Hwork & Hc' & Hcompleted & Htotal' & Hfiles & Hstatus' & Hsame').
    exists p', j'.
    assert (worker isoformat (S (length (file_info :: rest))) id analyze_function p
            = worker isoformat (S (length rest)) id analyze_function p1) as ->.
    { cbn [length]. change (worker isoformat (S (S (length rest))) id analyze_function p)
        with (bind (worker_turn isoformat id analyze_function)
                (fun done => if done then ret true
                             else worker isoformat (S (length rest)) id analyze_function) p).
      unfold bind at 1, worker_turn. rewrite Hqueue, String.eqb_refl.
      fold p0. by rewrite Hrun. }
    split; [exact Hwork|]. split.
    { assert (forall g : Z -> pyval -> list pyval,
                imap (fun i => g (Z.of_nat (S k + i))) rest
                = imap ((fun i => g (Z.of_nat (k + i))) ∘ S) rest) as Himap.
      { intros g. apply imap_ext. intros i x _. cbn. do 2 f_equal. lia. }
      rewrite Hc'. cbn [imap concat]. rewrite Nat.add_0_r, <- !app_assoc.
      by rewrite (Himap (results_of analyze_function)),
        (Himap (errors_of analyze_function)). }
    split; [congruence|]. split; [congruence|]. split; [congruence|].
    split; [done|].
    rewrite Er, Ee in Hsame'.
    eapply same_but_trans; [|exact Hsame'].
    apply (same_but_set_job_queue _ _ _ [] p0 p1). by repeat split.
Qed.

(** A batch from its creation to its end, when the analysis of every file
    returns or raises an exception that [except Exception] catches. After
    [create_job] and [start_batch] on a processor with an empty queue, one
    worker that runs alone returns after one turn per file and one more. It
    has processed the files in their order, each once: the job is completed
    with the counter at the total, [results] holds the truthy results and
    [errors] the non-empty error messages in the order of the files, and
    the queue is empty again. *)
Theorem worker_completes_batch id file_list analyze_function p :
  job_queue p = [] -> file_list <> [] ->
  Forall (fun file_info => caught (analyze_function (filepath_of file_info)) = true)
    file_list ->
  exists a p1 p2 p3 j,
    create_job isoformat id file_list p = (Ok a, p1) /\
    start_batch id p1
    = (Ok (Z.max 0 (Z.min (max_workers p) (Z.of_nat (length file_list)))), p2) /\
    job_queue p2 = List.map (fun i => (id, Z.of_nat i)) (seq 0 (length file_list)) /\
    worker isoformat (S (length file_list)) id analyze_function p2 = (Ok true, p3) /\
    job_queue p3 = [] /\ jobs p3 !! id = Some a /\ locks p3 !! id = Some false /\
    cell p3 a
    = Some (j, all_results analyze_function file_list,
            all_errors analyze_function file_list) /\
    completed j = Z.of_nat (length file_list) /\ total j = Z.of_nat (length file_list) /\
    status j = "completed"%string.
Proof.
  intros Hqueue Hfiles Hcaught.
  pose proof (create_job_spec id file_list p) as Hcreate. cbn zeta in Hcreate.
  set (r := fresh (dom (heap p))) in *.
  set (e := fresh (dom (<[r := OList []]> (heap p)))) in *.
  set (a := fresh (dom (<[e := OList []]> (<[r := OList []]> (heap p))))) in *.
  match type of Hcreate with context [OJob ?x] => set (j0 := x) in * end.
  match type of Hcreate with _ = (Ok a, ?s) => set (p1 := s) in * end.
  assert (r <> e) as Hre.
  { intros Heq. pose proof (fresh_not_in (<[r := OList []]> (heap p))) as Hf.
    fold e in Hf. rewrite <- Heq, lookup_insert_eq in Hf. discriminate. }
  assert (cell p1 a = Some (j0, [], [])) as Hc1.
  { apply cell_intro; subst p1; cbn [heap results errors j0].
    - by rewrite lookup_insert_eq.
    - apply lookup_alloc. apply lookup_alloc. by rewrite lookup_insert_eq.
    - apply lookup_alloc. by rewrite lookup_insert_eq.
    - done. }
  assert (jobs p1 !! id = Some a) as Hid1 by (subst p1; cbn; by rewrite lookup_insert_eq).
  assert (locks p1 !! id = Some false) as Hfree1
    by (subst p1; cbn; by rewrite lookup_insert_eq).
  destruct (cell_inv _ _ _ _ _ Hc1) as (Ha1 & _).
  set (p2 := set_job_queue
               (List.map (fun i => (id, Z.of_nat i)) (seq 0 (length file_list))) p1).
  assert (start_batch id p1
          = (Ok (Z.max 0 (Z.min (max_workers p) (Z.of_nat (length file_list)))), p2))
    as Hstart.
  { unfold start_batch.
    rewrite (bind_ok _ _ p1 a p1) by (by apply lookup_job_ok).
    rewrite (bind_ok _ _ p1 j0 p1) by (by apply read_job_ok).
    subst p2 p1. cbn. by rewrite Hqueue. }
  destruct (worker_run id analyze_function a file_list p2 j0 [] [] 0)
    as (p3 & j & Hwork & Hc3 & Hcompleted & Htotal & _ & Hstatus & Hsame).
  { exact Hid1. }
  { exact Hfree1. }
  { exact Hc1. }
  { done. }
  { done. }
  { done. }
  { intros ->. done. }
  { done. }
  { exact Hcaught. }
  destruct Hsame as (_ & Hj3 & Hq3 & _ & Hl3 & _).
  exists a, p1, p2, p3, j. split; [exact Hcreate|]. split; [exact Hstart|].
  split; [done|]. split; [exact Hwork|]. split; [by rewrite Hq3|].
  split; [by rewrite Hj3|]. split; [by rewrite Hl3|].
  split; [exact Hc3|]. by rewrite Hcompleted, Htotal.
Qed.

Lemma worker_turn_foreign id analyze_function p task rest :
  job_queue p = task :: rest -> String.eqb task.1 id = false ->
  worker_turn isoformat id analyze_function p
  = (Ok false, set_job_queue (requeue (job_queue p)) p).
Proof.
  intros Hq Hforeign. unfold worker_turn. rewrite Hq. destruct task as [tid idx].
  cbn in Hforeign. rewrite Hforeign. cbn. done.
Qed.

(** Tasks of other jobs. A worker that finds only tasks of other jobs on
    the queue puts each one back behind the others and takes the next: it
    never sees the empty queue, so after any number of turns it is still in
    its loop, and nothing but the order of the queue has changed. *)
Theorem worker_cycles_foreign_tasks turns id analyze_function p :
  job_queue p <> [] ->
  Forall (fun task => String.eqb task.1 id = false) (job_queue p) ->
  worker isoformat turns id analyze_function p
  = (Ok false, set_job_queue (Nat.iter turns requeue (job_queue p)) p).
Proof.
  revert p. induction turns as [|turns IH]; intros p Hne Hforeign.
  - cbn. by destruct p.
  - destruct (job_queue p) as [|task rest] eqn:Hq; [done|].
    cbn [worker]. unfold bind.
    rewrite (worker_turn_foreign id analyze_function p task rest Hq)
      by (by inversion Hforeign).
    rewrite IH.
    + cbn [job_queue set_job_queue]. rewrite Hq. rewrite Nat.iter_succ_r. done.
    + cbn. rewrite Hq. cbn. by destruct rest.
    + cbn. rewrite Hq. cbn. inversion Hforeign; subst.
      apply Forall_app. split; [done|]. by constructor.
Qed.

(** *** Locks *)

Lemma never_blocks_ret {A} (x : A) : never_blocks (ret x).
Proof. by intros p. Qed.

Lemma never_blocks_raise {A} e : never_blocks (@raise A e).
Proof. by intros p. Qed.

Lemma never_blocks_bind {A B} (c : M A) (k : A -> M B) :
  never_blocks c -> (forall x, never_blocks (k x)) -> never_blocks (bind c k).
Proof.
  intros Hc Hk p. unfold bind. specialize (Hc p).
  destruct (c p) as [[x|e|] p1]; [apply Hk|done|done].
Qed.

Lemma never_blocks_when cond (c : M unit) : never_blocks c -> never_blocks (when cond c).
Proof. destruct cond; [done|]. intros _. apply never_blocks_ret. Qed.

Lemma never_blocks_lookup_job id : never_blocks (lookup_job id).
Proof. intros p. unfold lookup_job. by destruct (jobs p !! id). Qed.

Lemma never_blocks_read_job a : never_blocks (read_job a).
Proof. intros p. unfold read_job. by destruct (heap p !! a) as [[j|l]|]. Qed.

Lemma never_blocks_update_job a f : never_blocks (update_job a f).
Proof. intros p. unfold update_job. by destruct (heap p !! a) as [[j|l]|]. Qed.

Lemma never_blocks_list_append l x : never_blocks (list_append l x).
Proof. intros p. unfold list_append. by destruct (heap p !! l) as [[j|items]|]. Qed.

Lemma never_blocks_now : never_blocks (now isoformat).
Proof. by intros p. Qed.

Lemma never_blocks_alloc o : never_blocks (alloc o).
Proof. by intros p. Qed.

Create HintDb blocks.
Hint Resolve never_blocks_ret never_blocks_raise never_blocks_bind never_blocks_when
  never_blocks_lookup_job never_blocks_read_job never_blocks_update_job
  never_blocks_list_append never_blocks_now never_blocks_alloc : blocks.

Lemma never_blocks_update_status a : never_blocks (update_status isoformat a).
Proof.
  unfold update_status. apply never_blocks_bind; [auto with blocks|]. intros j.
  destruct (completed j =? total j)%Z; [auto 6 with blocks|].
  destruct (String.eqb (status j) "pending"); auto with blocks.
Qed.

Lemma never_blocks_update_progress a : never_blocks (update_progress a).
Proof.
  unfold update_progress. apply never_blocks_bind; [auto with blocks|]. intros j.
  destruct (total j =? 0)%Z; auto with blocks.
Qed.

(** With no lock held, [with] takes the lock or fails on a missing one. *)
Lemma with_lock_no_wait {A} id (body : M A) :
  never_blocks body -> blocks_on_no_free_lock (with_lock id body).
Proof.
  intros Hbody p Hfree. unfold with_lock. specialize (Hfree id).
  destruct (locks p !! id) as [[]|]; [done| |done].
  specialize (Hbody (acquire id p)). by destruct (body (acquire id p)).
Qed.

Lemma keeps_no_lock_held {A} (c : M A) p :
  keeps c -> no_lock_held p -> no_lock_held (c p).2.
Proof. intros Hc Hfree id. destruct (Hc p) as (_ & -> & _). apply Hfree. Qed.

Lemma update_job_progress_no_wait id file_index result error :
  blocks_on_no_free_lock (update_job_progress isoformat id file_index result error).
Proof.
  unfold update_job_progress. apply with_lock_no_wait.
  apply never_blocks_bind; [auto with blocks|]. intros a.
  apply never_blocks_bind; [auto with blocks|]. intros [].
  apply never_blocks_bind; [auto with blocks|]. intros j.
  destruct (list_index (files j) file_index); [|auto with blocks].
  pose proof never_blocks_update_status. pose proof never_blocks_update_progress.
  auto 8 with blocks.
Qed.

Lemma process_file_no_wait id file_index analyze_function :
  blocks_on_no_free_lock (process_file isoformat id file_index analyze_function).
Proof.
  intros p Hfree. unfold process_file, try_except.
  match goal with |- context [bind ?c ?k p] => set (attempt := bind c k) end.
  assert (keeps attempt) as Hkeeps.
  { subst attempt. pose proof keeps_update_job_progress as Hu.
    apply keeps_bind; [auto with keeps|]. intros a.
    apply keeps_bind; [auto with keeps|]. intros j.
    destruct (list_index (files j) file_index); [|auto with keeps].
    destruct (analyze_function _); auto with keeps. }
  assert ((attempt p).1 <> Blocked) as Hattempt.
  { subst attempt. unfold bind, lookup_job. destruct (jobs p !! id) as [a|]; [|done].
    unfold read_job. destruct (heap p !! a) as [[j|l]|]; try done.
    destruct (list_index (files j) file_index) as [file_info|]; [|done].
    destruct (analyze_function (filepath_of file_info)) as [e|result]; [done|].
    by apply update_job_progress_no_wait. }
  pose proof (keeps_no_lock_held attempt p Hkeeps Hfree) as Hfree'.
  destruct (attempt p) as [[x|e|] p1]; [done| |done].
  destruct (is_Exception e); [|done].
  by apply update_job_progress_no_wait.
Qed.

Lemma get_job_status_no_wait id : blocks_on_no_free_lock (get_job_status id).
Proof.
  intros p Hfree. unfold get_job_status. destruct (jobs p !! id); [|done].
  apply with_lock_no_wait; [|done]. unfold copy_job. auto 8 with blocks.
Qed.

Lemma reachable_no_lock_held p : reachable isoformat p -> no_lock_held p.
Proof.
  intros Hreach id Hheld. destruct (jobs p !! id) as [a|] eqn:Hid.
  - destruct (reachable_jobs_ok p Hreach id a Hid) as [Hfree _]. congruence.
  - rewrite (reachable_lock_registered p id Hreach Hid) in Hheld. discriminate.
Qed.

(** Locks are given back. In every state the methods can reach, no lock is
    held: a method that fails inside [with] has released its lock on the
    way out. So a method called from such a state never waits for a lock, it
    returns or raises. *)
Theorem methods_release_their_locks p :
  reachable isoformat p ->
  no_lock_held p /\
  (forall id file_list, (create_job isoformat id file_list p).1 <> Blocked) /\
  (forall id file_index result error,
     (update_job_progress isoformat id file_index result error p).1 <> Blocked) /\
  (forall id file_index analyze_function,
     (process_file isoformat id file_index analyze_function p).1 <> Blocked) /\
  (forall id, (get_job_status id p).1 <> Blocked) /\
  (forall id, (start_batch id p).1 <> Blocked).
Proof.
  intros Hreach. pose proof (reachable_no_lock_held p Hreach) as Hfree.
  split; [done|]. split; [|split; [|split; [|split]]].
  - intros id file_list. by rewrite create_job_spec.
  - intros id file_index result error. by apply update_job_progress_no_wait.
  - intros id file_index analyze_function. by apply process_file_no_wait.
  - intros id. by apply get_job_status_no_wait.
  - intros id. unfold start_batch, bind, lookup_job.
    destruct (jobs p !! id) as [a|]; [|done].
    unfold read_job. by destruct (heap p !! a) as [[j|l]|].
Qed.

(** *** What every job of a served processor satisfies *)

Lemma process_file_unknown id file_index analyze_function p :
  jobs p !! id = None -> locks p !! id = None ->
  process_file isoformat id file_index analyze_function p = (Raise (KeyError id), p).
Proof.
  intros Hid Hlock. unfold process_file, try_except, bind, lookup_job. rewrite Hid.
  unfold update_job_progress, with_lock. by rewrite Hlock.
Qed.

Lemma process_file_bad_index id file_index analyze_function p a j rs es :
  jobs p !! id = Some a -> locks p !! id = Some false ->
  cell p a = Some (j, rs, es) ->
  list_index (files j) file_index = None ->
  exists p',
    process_file isoformat id file_index analyze_function p = (Raise IndexError, p') /\
    cell p' a = Some (set_completed (completed j + 1) j, rs, es) /\
    same_but a (results j) (errors j) p p'.
Proof.
  intros Hid Hfree Hc Hidx.
  destruct (cell_inv _ _ _ _ _ Hc) as (Ha & _).
  unfold process_file, try_except.
  rewrite (bind_ok _ _ p a p) by (by apply lookup_job_ok).
  rewrite (bind_ok _ _ p j p) by (by apply read_job_ok).
  rewrite Hidx. cbn [raise].
  unfold update_job_progress. rewrite with_lock_free by done.
  set (p0 := acquire id p).
  assert (cell p0 a = Some (j, rs, es)) as Hc0 by done.
  rewrite (bind_ok _ _ p0 a p0) by (by apply lookup_job_ok).
  destruct (update_job_step a (fun j => set_completed (completed j + 1) j) p0 j rs es
              Hc0 eq_refl eq_refl) as (p1 & Hrun1 & Hc1 & Hs1 & Hk1).
  rewrite (bind_ok _ _ p0 tt p1 Hrun1).
  destruct (cell_inv _ _ _ _ _ Hc1) as (Ha1 & _).
  rewrite (bind_ok _ _ p1 _ p1 (read_job_ok _ _ _ Ha1)).
  cbn [files set_completed]. rewrite Hidx. cbn [raise fst snd].
  exists (release id p1). split; [done|]. split; [exact Hc1|].
  by apply same_but_with_lock.
Qed.

Lemma list_index_Some_length {A} (l : list A) i x :
  list_index l i = Some x -> l <> [].
Proof. intros Hx ->. unfold list_index in Hx. by repeat case_match. Qed.

Lemma recorded_length kind file_index file_info value :
  length (recorded kind file_index file_info value) <= 1.
Proof. unfold recorded. destruct (truthy value); cbn; lia. Qed.

(** [process_file] on a job of the table, when the analysis returns or
    raises what [except Exception] catches: whether the index is in range or
    not, the file is counted once and at most one outcome is recorded. *)
Lemma process_file_known id file_index analyze_function p a j rs es :
  jobs p !! id = Some a -> locks p !! id = Some false ->
  cell p a = Some (j, rs, es) ->
  total j = Z.of_nat (length (files j)) ->
  (forall file_info,
     list_index (files j) file_index = Some file_info ->
     caught (analyze_function (filepath_of file_info)) = true) ->
  exists j' rs' es',
    same_but a (results j) (errors j) p
      (process_file isoformat id file_index analyze_function p).2 /\
    cell (process_file isoformat id file_index analyze_function p).2 a
    = Some (j', rs', es') /\
    results j' = results j /\ errors j' = errors j /\
    files j' = files j /\ total j' = total j /\
    completed j' = (completed j + 1)%Z /\
    length rs' + length es' <= length rs + length es + 1 /\
    (status j' = status j \/ status j' = next_status j).
Proof.
  intros Hid Hfree Hc Htotal Hcaught.
  destruct (list_index (files j) file_index) as [file_info|] eqn:Hidx.
  - destruct (process_file_updated id file_index analyze_function p a j rs es file_info)
      as (p' & Hrun & Hc' & Hsame); try done.
    { apply list_index_Some_length in Hidx. destruct (files j); [done|].
      rewrite Htotal. cbn [length]. lia. }
    { by apply Hcaught. }
    rewrite Hrun. cbn [snd].
    destruct (updated_fields (isoformat (clock p)) j) as (Er & Ee & Ef & Et & Ec & Es).
    eexists _, _, _. split; [exact Hsame|]. split; [exact Hc'|].
    do 5 (split; [done|]). split; [|by right].
    rewrite !length_app. unfold results_of, errors_of.
    destruct (analyze_function (filepath_of file_info)) as [e|result]; cbn [length].
    + pose proof (recorded_length "error" file_index file_info (VStr (exn_str e))). lia.
    + pose proof (recorded_length "result" file_index file_info result). lia.
  - destruct (process_file_bad_index id file_index analyze_function p a j rs es)
      as (p' & Hrun & Hc' & Hsame); try done.
    rewrite Hrun. cbn [snd].
    eexists _, _, _. split; [exact Hsame|]. split; [exact Hc'|].
    do 5 (split; [done|]). split; [lia|by left].
Qed.

Lemma job_ok_counted p p' a j rs es j' rs' es' :
  cell p a = Some (j, rs, es) -> job_ok p a ->
  cell p' a = Some (j', rs', es') ->
  files j' = files j -> total j' = total j ->
  completed j' = (completed j + 1)%Z ->
  length rs' + length es' <= length rs + length es + 1 ->
  (status j' = status j \/ status j' = next_status j) ->
  job_ok p' a.
Proof.
  intros Hc (j0 & rs0 & es0 & Hc0 & Htotal & Hcount & Hstatus & Hdone) Hc' Ef Et Ec Hlen Es.
  rewrite Hc in Hc0. injection Hc0 as <- <- <-.
  exists j', rs', es'. split; [done|]. split; [by rewrite Et, Ef|]. split; [lia|].
  assert (status j' = status j \/
          (status j' = "completed"%string /\ (total j <= completed j + 1)%Z) \/
          status j' = "processing"%string) as Hcases.
  { destruct Es as [Es|Es]; [by left|]. right. rewrite Es. unfold next_status.
    destruct (completed j + 1 =? total j)%Z eqn:E; [left; split; [done|lia]|].
    destruct (String.eqb (status j) "pending") eqn:Hp; [by right|].
    destruct Hstatus as [Hs|[Hs|Hs]]; rewrite Hs in *; [done|by right|].
    left. split; [done|]. specialize (Hdone eq_refl). lia. }
  split.
  - destruct Hcases as [->|[[-> _]| ->]]; auto.
  - intros Hcompleted. rewrite Et, Ec.
    destruct Hcases as [Hs|[[_ Hle]|Hs]]; [|done|congruence].
    rewrite Hs in Hcompleted. specialize (Hdone Hcompleted). lia.
Qed.

(** A change to one job of the table leaves the other jobs as they are. *)
Lemma table_ok_step p p' id a j rs es j' rs' es' :
  table_ok p -> jobs p !! id = Some a ->
  cell p a = Some (j, rs, es) ->
  same_but a (results j) (errors j) p p' ->
  cell p' a = Some (j', rs', es') ->
  results j' = results j -> errors j' = errors j ->
  job_ok p' a ->
  table_ok p'.
Proof.
  intros (Htable & Hlocks & Hapart) Hid Hc (_ & Hjobs & _ & _ & Hlk & Hheap) Hc' Er Ee Hok.
  destruct (cell_inv _ _ _ _ _ Hc) as (Ha & Hr & He & Hne & _).
  destruct (cell_inv _ _ _ _ _ Hc') as (Ha' & Hr' & He' & _).
  rewrite Er in Hr'. rewrite Ee in He'.
  assert (forall a1 j1, heap p' !! a1 = Some (OJob j1) ->
            exists j0, heap p !! a1 = Some (OJob j0) /\
                       results j1 = results j0 /\ errors j1 = errors j0) as Hback.
  { intros a1 j1 Ha1. destruct (decide (a1 = a)) as [->|Hna].
    - rewrite Ha' in Ha1. injection Ha1 as <-. by exists j.
    - exists j1. rewrite <- Hheap; [done|done| |]; intros ->; congruence. }
  split; [|split].
  - intros id' a' Hid'. rewrite Hjobs in Hid'. rewrite Hlk.
    destruct (Htable id' a' Hid') as (Hfree & j2 & rs2 & es2 & Hc2 & Hrest).
    split; [done|]. destruct (decide (a' = a)) as [->|Hna]; [done|].
    exists j2, rs2, es2. split; [|done].
    destruct (cell_inv _ _ _ _ _ Hc2) as (Ha2 & Hr2 & He2 & Hne2 & _).
    destruct (Hapart id' id a' a j2 j Hid' Hid Hna Ha2 Ha) as (N1 & N2 & N3 & N4).
    apply cell_intro; [| | |done]; rewrite Hheap; try done; intros Heq; congruence.
  - intros id' Hid'. rewrite Hjobs in Hid'. rewrite Hlk. by apply Hlocks.
  - intros id1 id2 a1 a2 j1 j2 Hid1 Hid2 Hna Ha1 Ha2.
    rewrite Hjobs in Hid1, Hid2.
    destruct (Hback a1 j1 Ha1) as (j1' & Ha1' & -> & ->).
    destruct (Hback a2 j2 Ha2) as (j2' & Ha2' & -> & ->).
    by apply (Hapart id1 id2 a1 a2).
Qed.

(** A new object leaves the jobs of the table as they are. *)
Lemma cell_alloc p a s o c :
  cell p a = Some c -> heap p !! s = None ->
  cell (set_heap (<[s := o]> (heap p)) p) a = Some c.
Proof.
  destruct c as [[j rs] es]. intros Hc Hs.
  destruct (cell_inv _ _ _ _ _ Hc) as (Ha & Hr & He & Hne & _).
  apply cell_intro; [| | |done]; cbn; rewrite lookup_insert_ne; try done;
    intros ->; congruence.
Qed.

Lemma table_ok_alloc p s o :
  table_ok p -> heap p !! s = None -> table_ok (set_heap (<[s := o]> (heap p)) p).
Proof.
  intros (Htable & Hlocks & Hapart) Hs. split; [|split].
  - intros id a Hid. destruct (Htable id a Hid) as (Hfree & j & rs & es & Hc & Hrest).
    split; [done|]. exists j, rs, es. split; [by apply cell_alloc|done].
  - done.
  - intros id1 id2 a1 a2 j1 j2 Hid1 Hid2 Hna Ha1 Ha2. cbn in *.
    destruct (Htable id1 a1 Hid1) as (_ & j1' & rs1 & es1 & Hc1 & _).
    destruct (Htable id2 a2 Hid2) as (_ & j2' & rs2 & es2 & Hc2 & _).
    destruct (cell_inv _ _ _ _ _ Hc1) as (Ha1' & _).
    destruct (cell_inv _ _ _ _ _ Hc2) as (Ha2' & _).
    rewrite lookup_insert_ne in Ha1 by (intros <-; congruence).
    rewrite lookup_insert_ne in Ha2 by (intros <-; congruence).
    by apply (Hapart id1 id2 a1 a2).
Qed.

Lemma table_ok_same p p' :
  jobs p' = jobs p -> locks p' = locks p -> heap p' = heap p ->
  table_ok p -> table_ok p'.
Proof.
  intros Hj Hl Hh (Htable & Hlocks & Hapart).
  unfold table_ok, apart, job_ok, cell. rewrite Hj, Hl, Hh. done.
Qed.

Lemma table_ok_create_job id file_list p :
  table_ok p -> table_ok (create_job isoformat id file_list p).2.
Proof.
  intros Hok. rewrite create_job_spec. cbn zeta. cbn [snd].
  set (r := fresh (dom (heap p))).
  set (e := fresh (dom (<[r := OList []]> (heap p)))).
  set (a := fresh (dom (<[e := OList []]> (<[r := OList []]> (heap p))))).
  match goal with |- context [OJob ?x] => set (j0 := x) end.
  set (h3 := <[a := OJob j0]> (<[e := OList []]> (<[r := OList []]> (heap p)))).
  assert (heap p !! r = None) as Hr by apply fresh_not_in.
  assert (<[r := OList []]> (heap p) !! e = None) as He by apply fresh_not_in.
  assert (<[e := OList []]> (<[r := OList []]> (heap p)) !! a = None) as Ha
    by apply fresh_not_in.
  pose proof (table_ok_alloc _ a (OJob j0)
                (table_ok_alloc _ e (OList [])
                   (table_ok_alloc p r (OList []) Hok Hr) He) Ha) as Hok3.
  cbn [heap set_heap] in Hok3. fold h3 in Hok3.
  match type of Hok3 with table_ok ?x => set (p3 := x) in * end.
  destruct Hok3 as (Htable & Hlocks & Hapart).
  assert (r <> e) as Hre.
  { intros Heq. rewrite <- Heq, lookup_insert_eq in He. discriminate. }
  assert (h3 !! a = Some (OJob j0)) as Ha3 by (subst h3; by rewrite lookup_insert_eq).
  assert (h3 !! r = Some (OList [])) as Hr3.
  { subst h3. apply lookup_alloc. apply lookup_alloc. by rewrite lookup_insert_eq. }
  assert (h3 !! e = Some (OList [])) as He3.
  { subst h3. apply lookup_alloc. by rewrite lookup_insert_eq. }
  assert (forall id' a' , jobs p !! id' = Some a' ->
            exists j2 rs2 es2, cell p3 a' = Some (j2, rs2, es2) /\
              a' <> a /\ results j2 <> r /\ results j2 <> e /\
              errors j2 <> r /\ errors j2 <> e) as Hold.
  { intros id' a' Hid'.
    destruct (Htable id' a' Hid') as (_ & j2 & rs2 & es2 & Hc2 & _).
    exists j2, rs2, es2. split; [done|].
    destruct (proj1 Hok id' a' Hid') as (_ & j2' & rs2' & es2' & Hc2' & _).
    assert (cell p3 a' = Some (j2', rs2', es2')) as Hc2''.
    { subst p3. do 3 (apply cell_alloc; [|done]). exact Hc2'. }
    rewrite Hc2 in Hc2''. injection Hc2'' as <- <- <-.
    destruct (cell_inv _ _ _ _ _ Hc2') as (Ha2 & Hr2 & He2 & _).
    repeat split; intros Heq.
    - rewrite Heq in Ha2. apply (lookup_alloc _ (OList []) _ _) in Ha2. fold r in Ha2.
      apply (lookup_alloc _ (OList []) _ _) in Ha2. fold e in Ha2. congruence.
    - rewrite Heq in Hr2. congruence.
    - rewrite Heq in Hr2. apply (lookup_alloc _ (OList []) _ _) in Hr2. fold r in Hr2.
      congruence.
    - rewrite Heq in He2. congruence.
    - rewrite Heq in He2. apply (lookup_alloc _ (OList []) _ _) in He2. fold r in He2.
      congruence. }
  split; [|split].
  - intros id' a' Hid'. cbn in Hid' |- *.
    destruct (decide (id = id')) as [<-|Hne].
    + rewrite lookup_insert_eq in Hid'. injection Hid' as <-.
      rewrite lookup_insert_eq. split; [done|].
      exists j0, [], []. split.
      { unfold cell. cbn [heap]. fold h3. rewrite Ha3. cbn [results errors j0].
        rewrite Hr3, He3. by destruct (decide (r = e)). }
      subst j0. cbn. repeat split; auto; try lia. discriminate.
    + rewrite lookup_insert_ne in Hid' by done. rewrite lookup_insert_ne by done.
      destruct (Htable id' a' Hid') as (Hfree & Hjob). split; [done|].
      destruct Hjob as (j2 & rs2 & es2 & Hc2 & Hrest). by exists j2, rs2, es2.
  - intros id' Hid'. cbn in Hid' |- *.
    destruct (decide (id = id')) as [<-|Hne].
    + by rewrite lookup_insert_eq in Hid'.
    + rewrite lookup_insert_ne in Hid' by done. rewrite lookup_insert_ne by done.
      by apply Hlocks.
  - intros id1 id2 a1 a2 j1 j2 Hid1 Hid2 Hna Ha1 Ha2. cbn in Hid1, Hid2, Ha1, Ha2.
    fold h3 in Ha1, Ha2.
    destruct (decide (id = id1)) as [<-|Hne1]; destruct (decide (id = id2)) as [E2|Hne2].
    + subst id2. rewrite lookup_insert_eq in Hid1, Hid2. congruence.
    + rewrite lookup_insert_eq in Hid1. injection Hid1 as <-.
      rewrite lookup_insert_ne in Hid2 by done.
      rewrite Ha3 in Ha1. injection Ha1 as <-. cbn [results errors j0].
      destruct (Hold id2 a2 Hid2) as (j2' & rs2 & es2 & Hc2 & _ & N1 & N2 & N3 & N4).
      destruct (cell_inv _ _ _ _ _ Hc2) as (Ha2' & _).
      change (heap p3) with h3 in Ha2'.
      rewrite Ha2 in Ha2'. injection Ha2' as <-. auto.
    + subst id2. rewrite lookup_insert_eq in Hid2. injection Hid2 as <-.
      rewrite lookup_insert_ne in Hid1 by done.
      rewrite Ha3 in Ha2. injection Ha2 as <-. cbn [results errors j0].
      destruct (Hold id1 a1 Hid1) as (j1' & rs1 & es1 & Hc1 & _ & N1 & N2 & N3 & N4).
      destruct (cell_inv _ _ _ _ _ Hc1) as (Ha1' & _).
      change (heap p3) with h3 in Ha1'.
      rewrite Ha1 in Ha1'. injection Ha1' as <-. auto.
    + rewrite lookup_insert_ne in Hid1, Hid2 by done.
      by apply (Hapart id1 id2 a1 a2).
Qed.

Lemma table_ok_process_file id file_index analyze_function p :
  table_ok p -> table_ok (process_file isoformat id file_index analyze_function p).2.
Proof.
  intros Hok. destruct (jobs p !! id) as [a|] eqn:Hid.
  - destruct (proj1 Hok id a Hid) as (Hfree & Hjob).
    pose proof Hjob as (j & rs & es & Hc & Htotal & _).
    destruct (cell_inv _ _ _ _ _ Hc) as (Ha & _).
    assert ((forall file_info,
               list_index (files j) file_index = Some file_info ->
               caught (analyze_function (filepath_of file_info)) = true) \/
            process_file isoformat id file_index analyze_function p
            = ((process_file isoformat id file_index analyze_function p).1, p))
      as [Hcaught|Hsame].
    { destruct (list_index (files j) file_index) as [file_info|] eqn:Hidx; [|by left].
      destruct (analyze_function (filepath_of file_info)) as [e|result] eqn:Hraised.
      - destruct (is_Exception e) eqn:Hclass.
        + left. intros x [= <-]. by rewrite Hraised.
        + right. by rewrite (process_file_uncaught id file_index analyze_function p a j
                               file_info e).
      - left. intros x [= <-]. by rewrite Hraised. }
    + destruct (process_file_known id file_index analyze_function p a j rs es)
        as (j' & rs' & es' & Hsame & Hc' & Er & Ee & Ef & Et & Ec & Hlen & Es); try done.
      apply (table_ok_step p _ id a j rs es j' rs' es'); try done.
      by apply (job_ok_counted p _ a j rs es j' rs' es').
    + by rewrite Hsame.
  - rewrite process_file_unknown; [done|done|]. by apply (proj1 (proj2 Hok)).
Qed.

Lemma table_ok_get_job_status id p : table_ok p -> table_ok (get_job_status id p).2.
Proof.
  intros Hok. destruct (jobs p !! id) as [a|] eqn:Hid.
  - destruct (proj1 Hok id a Hid) as (Hfree & j & rs & es & Hc & _).
    destruct (cell_inv _ _ _ _ _ Hc) as (Ha & _).
    rewrite (get_job_status_copy id p a j) by done.
    apply table_ok_alloc; [done|apply fresh_not_in].
  - unfold get_job_status. by rewrite Hid.
Qed.

Lemma table_ok_start_batch id p : table_ok p -> table_ok (start_batch id p).2.
Proof.
  intros Hok. unfold start_batch, bind, lookup_job.
  destruct (jobs p !! id) as [a|]; [|done].
  unfold read_job. by destruct (heap p !! a) as [[j|l]|].
Qed.

Lemma table_ok_worker_turn id analyze_function p :
  table_ok p -> table_ok (worker_turn isoformat id analyze_function p).2.
Proof.
  intros Hok. unfold worker_turn.
  destruct (job_queue p) as [|[task_job_id file_index] rest].
  - assert (forall q,
              ((let* a := lookup_job id in
                let* j := read_job a in ret (completed j =? total j)%Z) q).2 = q)
      as Hread.
    { intros q. unfold bind, lookup_job. destruct (jobs q !! id) as [a|]; [|done].
      unfold read_job. by destruct (heap q !! a) as [[j|l]|]. }
    unfold with_lock. destruct (locks p !! id) as [[]|] eqn:Hlock; try done.
    specialize (Hread (acquire id p)).
    match goal with |- context [?body (acquire id p)] =>
      destruct (body (acquire id p)) as [r p1] end.
    cbn [snd] in *. subst p1. by rewrite release_acquire.
  - destruct (String.eqb task_job_id id).
    + pose proof (table_ok_process_file id file_index analyze_function
                    (set_job_queue rest p)) as Hstep.
      destruct (process_file isoformat id file_index analyze_function
                  (set_job_queue rest p)) as [[u|e|] p1];
        try destruct (is_Exception e); cbn [snd] in *;
        apply Hstep; by apply (table_ok_same p).
    + by apply (table_ok_same p).
Qed.

Lemma table_ok_worker turns id analyze_function :
  forall p, table_ok p -> table_ok (worker isoformat turns id analyze_function p).2.
Proof.
  induction turns as [|turns IH]; intros p Hok; [done|].
  cbn [worker]. unfold bind.
  pose proof (table_ok_worker_turn id analyze_function p Hok) as Hturn.
  destruct (worker_turn isoformat id analyze_function p) as [[[]|e|] p1];
    cbn [snd] in *; try done.
  by apply IH.
Qed.

Lemma served_table_ok p : served isoformat p -> table_ok p.
Proof.
  induction 1 as [n|p id file_list _ IH|p id _ IH|p id file_index analyze_function _ IH
                  |p turns id analyze_function _ IH|p id _ IH].
  - split; [|split]; [intros id a Hid|intros id _|intros id1 id2 a1 a2 j1 j2 Hid1];
      cbn in *; by rewrite ?lookup_empty in *.
  - by apply table_ok_create_job.
  - by apply table_ok_start_batch.
  - by apply table_ok_process_file.
  - by apply table_ok_worker.
  - by apply table_ok_get_job_status.
Qed.

(** The invariant of a served processor. Whatever jobs were created,
    started, worked on and asked for, with any analysis functions and any
    file indices, every job of the table has its lock free and its
    dictionary and lists in the store; [total] is the number of its files;
    the outcomes recorded in [results] and [errors] are never more than
    [completed] counts; the status is pending, processing or completed; and
    a completed job has counted at least [total] files. *)
Theorem served_jobs_stay_consistent p id a :
  served isoformat p -> jobs p !! id = Some a ->
  locks p !! id = Some false /\
  exists j rs es,
    cell p a = Some (j, rs, es) /\
    total j = Z.of_nat (length (files j)) /\
    (Z.of_nat (length rs + length es) <= completed j)%Z /\
    (status j = "pending" \/ status j = "processing" \/ status j = "completed")%string /\
    (status j = "completed"%string -> (total j <= completed j)%Z).
Proof.
  intros Hserved Hid. destruct (served_table_ok p Hserved) as (Htable & _).
  exact (Htable id a Hid).
Qed.

(** *** The endpoints on a served processor *)

Lemma cell_of_copy p a j rs es :
  cell p a = Some (j, rs, es) ->
  cell (set_heap (<[fresh (dom (heap p)) := OJob j]> (heap p)) p) (fresh (dom (heap p)))
  = Some (j, rs, es).
Proof.
  intros Hc. destruct (cell_inv _ _ _ _ _ Hc) as (Ha & Hr & He & Hne & _).
  apply cell_intro; [| | |done]; cbn.
  - by rewrite lookup_insert_eq.
  - by apply lookup_alloc.
  - by apply lookup_alloc.
Qed.

(** The status endpoints. For an identifier that names no job both answer
    404 and leave the processor as it is. For a job of the table neither
    waits, and the Flask endpoint answers with the job dictionary as it is
    at that moment and the content of its two lists. The FastAPI endpoint
    gives the same answer when every float of the dictionary is finite;
    when a recorded result holds a NaN or an infinity, [JSONResponse]
    raises and the answer is 500. *)
Theorem status_endpoints_answer p id :
  served isoformat p ->
  match jobs p !! id with
  | None =>
      Endpoints.main_get_batch_status id p
      = (Endpoints.StatusError 404 "Job not found", p) /\
      Endpoints.flask_get_batch_status id p
      = (Endpoints.StatusError 404 "Job not found", p)
  | Some a =>
      exists j rs es,
        cell p a = Some (j, rs, es) /\
        (Endpoints.flask_get_batch_status id p).1 = Endpoints.StatusJson j rs es /\
        (Endpoints.main_get_batch_status id p).1
        = (if Endpoints.status_compliant j rs es then Endpoints.StatusJson j rs es
           else Endpoints.StatusError 500 "Internal Server Error") /\
        (Endpoints.main_get_batch_status id p).2 = (get_job_status id p).2 /\
        (Endpoints.flask_get_batch_status id p).2 = (get_job_status id p).2 /\
        cell (get_job_status id p).2 a = Some (j, rs, es)
  end.
Proof.
  intros Hserved. destruct (served_table_ok p Hserved) as (Htable & _).
  unfold Endpoints.main_get_batch_status, Endpoints.flask_get_batch_status.
  destruct (jobs p !! id) as [a|] eqn:Hid.
  - destruct (Htable id a Hid) as (Hfree & j & rs & es & Hc & _).
    destruct (cell_inv _ _ _ _ _ Hc) as (Ha & _).
    exists j, rs, es. rewrite (get_job_status_copy id p a j) by done.
    unfold Endpoints.JSONResponse_status, Endpoints.jsonify.
    rewrite (cell_of_copy p a j rs es Hc). cbn.
    split; [done|]. split; [done|].
    split; [by destruct (Endpoints.status_compliant j rs es)|].
    split; [done|]. split; [done|].
    apply cell_alloc; [done|apply fresh_not_in].
  - unfold get_job_status. by rewrite Hid.
Qed.

Lemma main_file_paths_named save_upload_file uploads :
  Forall2 (fun name file_info =>
             file_info = VDict [("path"%string, VStr (save_upload_file name));
                                ("filename"%string, VStr name)])
    (List.filter (fun name => negb (String.eqb name "")) uploads)
    (Endpoints.main_file_paths save_upload_file uploads).
Proof.
  induction uploads as [|name rest IH]; [constructor|].
  cbn. destruct (negb (String.eqb name "")); [by constructor|done].
Qed.

Lemma flask_file_paths_allowed secure_filename upload_path id uploads :
  Forall2 (fun name file_info =>
             file_info = VStr (upload_path (id +:+ "_" +:+ secure_filename name)))
    (List.filter Endpoints.allowed_file uploads)
    (Endpoints.flask_file_paths secure_filename upload_path id uploads).
Proof.
  induction uploads as [|name rest IH]; [constructor|].
  cbn. destruct (Endpoints.allowed_file name); [by constructor|done].
Qed.

(** The job [create_job] registers, with its two empty lists. *)
Lemma create_job_cell id file_list p :
  exists a p1,
    create_job isoformat id file_list p = (Ok a, p1) /\
    jobs p1 !! id = Some a /\ locks p1 !! id = Some false /\
    cell p1 a
    = Some ({| job_id := id; files := file_list;
               total := Z.of_nat (length file_list); completed := 0;
               status := "pending"; start_time := isoformat (clock p);
               results := fresh (dom (heap p));
               errors := fresh (dom (<[fresh (dom (heap p)) := OList []]> (heap p)));
               end_time := None; progress := None |}, [], []).
Proof.
  pose proof (create_job_spec id file_list p) as Hcreate. cbn zeta in Hcreate.
  set (r := fresh (dom (heap p))) in *.
  set (e := fresh (dom (<[r := OList []]> (heap p)))) in *.
  set (a := fresh (dom (<[e := OList []]> (<[r := OList []]> (heap p))))) in *.
  eexists a, _. split; [exact Hcreate|]. cbn [jobs locks].
  rewrite !lookup_insert_eq. split; [done|]. split; [done|].
  assert (r <> e) as Hre.
  { intros Heq. pose proof (fresh_not_in (<[r := OList []]> (heap p))) as Hf.
    fold e in Hf. rewrite <- Heq, lookup_insert_eq in Hf. discriminate. }
  apply cell_intro; cbn [heap results errors]; [|by do 2 apply lookup_alloc; rewrite lookup_insert_eq| |done].
  - by rewrite lookup_insert_eq.
  - apply lookup_alloc. by rewrite lookup_insert_eq.
Qed.

Lemma process_first_pass id file_list file_index file_info analyze_function p :
  file_list !! file_index = Some file_info ->
  caught (analyze_function (filepath_of file_info)) = true ->
  exists a p1 p2 j,
    create_job isoformat id file_list p = (Ok a, p1) /\
    jobs p1 !! id = Some a /\
    process_file isoformat id (Z.of_nat file_index) analyze_function p1 = (Ok tt, p2) /\
    jobs p2 !! id = Some a /\
    cell p2 a
    = Some (j, results_of analyze_function (Z.of_nat file_index) file_info,
            errors_of analyze_function (Z.of_nat file_index) file_info) /\
    files j = file_list /\ total j = Z.of_nat (length file_list) /\ completed j = 1%Z.
Proof.
  intros Hfile Hcaught.
  destruct (create_job_cell id file_list p) as (a & p1 & Hcreate & Hid & Hfree & Hc).
  match type of Hc with _ = Some (?x, _, _) => set (j0 := x) in * end.
  destruct (process_file_updated id (Z.of_nat file_index) analyze_function p1 a j0 [] []
              file_info Hid Hfree Hc) as (p2 & Hrun & Hc2 & Hsame).
  { by rewrite list_index_nat. }
  { apply lookup_lt_Some in Hfile. subst j0. cbn. lia. }
  { exact Hcaught. }
  destruct (updated_fields (isoformat (clock p1)) j0) as (_ & _ & Ef & Et & Ec & _).
  destruct Hsame as (_ & Hjobs & _).
  exists a, p1, p2, (updated (isoformat (clock p1)) j0).
  split; [done|]. split; [done|]. split; [done|]. split; [by rewrite Hjobs|].
  split; [exact Hc2|]. by rewrite Ef, Et, Ec.
Qed.

(** What a client reads in the results of a batch. The FastAPI route
    stores each upload that has a name as a dictionary with the path it was
    saved at and its name: the analysis runs on the saved path, and the
    entry recorded for the file carries the name of the upload. The Flask
    endpoint stores the saved path alone, for the uploads with an allowed
    extension: the analysis runs on it and the entry carries that path as
    the file name. Both hold when the analysis returns or raises an
    exception that [except Exception] catches. *)
Theorem batch_entries_name_the_upload
    (save_upload_file secure_filename upload_path : string -> string)
    id uploads file_index name analyze_function p :
  (List.filter (fun name => negb (String.eqb name "")) uploads !! file_index = Some name ->
   caught (analyze_function (VStr (save_upload_file name))) = true ->
   exists a p1 p2 j,
     Endpoints.main_post_batch_create isoformat save_upload_file id uploads p
     = (Endpoints.HttpJson
          [("job_id"%string, VStr id);
           ("total_files"%string,
            VInt (Z.of_nat (length (List.filter (fun name => negb (String.eqb name ""))
                                      uploads))));
           ("status"%string, VStr "pending")], p1) /\
     jobs p1 !! id = Some a /\
     process_file isoformat id (Z.of_nat file_index) analyze_function p1 = (Ok tt, p2) /\
     cell p2 a
     = Some (j,
             match analyze_function (VStr (save_upload_file name)) with
             | inr result =>
                 if truthy result then
                   [VDict [("file_index"%string, VInt (Z.of_nat file_index));
                           ("filename"%string, VStr name);
                           ("result"%string, result)]]
                 else []
             | inl _ => []
             end,
             match analyze_function (VStr (save_upload_file name)) with
             | inr _ => []
             | inl e =>
                 if negb (String.eqb (exn_str e) "") then
                   [VDict [("file_index"%string, VInt (Z.of_nat file_index));
                           ("filename"%string, VStr name);
                           ("error"%string, VStr (exn_str e))]]
                 else []
             end)) /\
  (List.filter Endpoints.allowed_file uploads !! file_index = Some name ->
   caught (analyze_function (VStr (upload_path (id +:+ "_" +:+ secure_filename name))))
   = true ->
   exists a p1 p2 j,
     Endpoints.flask_create_batch_job isoformat secure_filename upload_path id uploads p
     = (Endpoints.HttpJson
          [("job_id"%string, VStr id);
           ("status"%string, VStr "pending");
           ("total_files"%string,
            VInt (Z.of_nat (length (List.filter Endpoints.allowed_file uploads))));
           ("status_url"%string, VStr ("/api/batch/status/" +:+ id))], p1) /\
     jobs p1 !! id = Some a /\
     process_file isoformat id (Z.of_nat file_index) analyze_function p1 = (Ok tt, p2) /\
     let path := VStr (upload_path (id +:+ "_" +:+ secure_filename name)) in
     cell p2 a
     = Some (j,
             match analyze_function path with
             | inr result =>
                 if truthy result then
                   [VDict [("file_index"%string, VInt (Z.of_nat file_index));
                           ("filename"%string, path);
                           ("result"%string, result)]]
                 else []
             | inl _ => []
             end,
             match analyze_function path with
             | inr _ => []
             | inl e =>
                 if negb (String.eqb (exn_str e) "") then
                   [VDict [("file_index"%string, VInt (Z.of_nat file_index));
                           ("filename"%string, path);
                           ("error"%string, VStr (exn_str e))]]
                 else []
             end)).
Proof.
  split.
  - intros Hname Hcaught.
    pose proof (main_file_paths_named save_upload_file uploads) as Hpaths.
    destruct (Forall2_lookup_l _ _ _ _ _ Hpaths Hname) as (file_info & Hfile & ->).
    destruct (process_first_pass id _ file_index _ analyze_function p Hfile Hcaught)
      as (a & p1 & p2 & j & Hcreate & Hid & Hrun & _ & Hc & _).
    exists a, p1, p2, j. split; [|split; [done|split; [done|]]].
    + unfold Endpoints.main_post_batch_create, Endpoints.main_create_batch_job.
      destruct uploads as [|u rest]; [done|].
      destruct (Endpoints.main_file_paths save_upload_file (u :: rest)) eqn:E; [done|].
      rewrite Hcreate. by rewrite (Forall2_length _ _ _ Hpaths).
    + rewrite Hc. unfold results_of, errors_of, recorded. cbn.
      by destruct (analyze_function (VStr (save_upload_file name))).
  - intros Hname Hcaught.
    pose proof (flask_file_paths_allowed secure_filename upload_path id uploads) as Hpaths.
    destruct (Forall2_lookup_l _ _ _ _ _ Hpaths Hname) as (file_info & Hfile & ->).
    destruct (process_first_pass id _ file_index _ analyze_function p Hfile Hcaught)
      as (a & p1 & p2 & j & Hcreate & Hid & Hrun & _ & Hc & _).
    exists a, p1, p2, j. split; [|split; [done|split; [done|]]].
    + unfold Endpoints.flask_create_batch_job.
      destruct uploads as [|u rest]; [done|].
      destruct (Endpoints.flask_file_paths secure_filename upload_path id (u :: rest))
        eqn:E; [done|].
      destruct (create_job_cell id (p0 :: l) p) as (a' & p1' & Hcreate' & Hid' & _ & Hc').
      rewrite Hcreate in Hcreate'. injection Hcreate' as <- <-.
      destruct (cell_inv _ _ _ _ _ Hc') as (Ha & _).
      pose proof (Forall2_length _ _ _ Hpaths) as Hlen.
      unfold bind. rewrite Hcreate. rewrite (read_job_ok _ _ _ Ha).
      cbn [status total]. by rewrite Hlen.
    + cbn zeta. rewrite Hc. unfold results_of, errors_of, recorded. cbn.
      by destruct (analyze_function _).
Qed.

End WithClock.

Import Fixtures.

(** C1, at a failing input. A job with one file whose analysis raises an
    exception with an empty message: [process_file] counts the file as
    completed and the job as finished, and records neither a result nor an
    error, so [completed] is 1 and [len(results) + len(errors)] is 0. *)
Theorem process_file_counts_unrecorded_failure :
  view (process_file clock_text "job" 0 raises_silently
          (create_job clock_text "job" [VStr "a.mp4"] (init 3)).2).2 "job"
  = Some {| view_total := 1; view_completed := 1; view_status := "completed";
            view_results := 0; view_errors := 0 |}.
Proof. vm_compute. reflexivity. Qed.

(** The same happens when the analysis returns a falsy result. *)
Example process_file_counts_unrecorded_result :
  view (process_file clock_text "job" 0 returns_none
          (create_job clock_text "job" [VStr "a.mp4"] (init 3)).2).2 "job"
  = Some {| view_total := 1; view_completed := 1; view_status := "completed";
            view_results := 0; view_errors := 0 |}.
Proof. vm_compute. reflexivity. Qed.

(** The specification's batch example: three files, the analysis of the
    second fails with a message. *)
Example three_files_one_failure :
  view (process_file clock_text "job" 2 fails_on_f2
          (process_file clock_text "job" 1 fails_on_f2
             (process_file clock_text "job" 0 fails_on_f2
                (create_job clock_text "job"
                   [VStr "f1.mp4"; VStr "f2.mp4"; VStr "f3.mp4"] (init 3)).2).2).2).2
       "job"
  = Some {| view_total := 3; view_completed := 3; view_status := "completed";
            view_results := 2; view_errors := 1 |}.
Proof. vm_compute. reflexivity. Qed.

Lemma process_file_keeps_count_witness :
  exists p' v,
    process_file clock_text "job" 0 fails_on_f2
      (create_job clock_text "job" [VStr "f1.mp4"; VStr "f2.mp4"] (init 3)).2
    = (Ok tt, p') /\
    view p' "job" = Some v /\
    view_completed v = Z.of_nat (view_results v + view_errors v) /\
    (String.eqb (view_status v) "completed" = (view_completed v =? view_total v)%Z).
Proof.
  eapply (process_file_keeps_count clock_text "job" 0 fails_on_f2 _ 3%positive
            _ [] [] (VStr "f1.mp4")); try reflexivity.
Defined.

(** C9 does not hold as the specification states it: [create_job] accepts
    the empty file list and allocates a job for it. *)
Lemma create_job_accepts_empty_batch :
  (create_job clock_text "job" [] (init 3)).1 = Ok 3%positive /\
  view (create_job clock_text "job" [] (init 3)).2 "job"
  = Some {| view_total := 0; view_completed := 0; view_status := "pending";
            view_results := 0; view_errors := 0 |}.
Proof. vm_compute. split; reflexivity. Qed.

Lemma empty_batch_rejected_before_create_job_witness :
  Endpoints.main_post_batch_create clock_text (fun name => name) "job" [] (init 3)
  = (Endpoints.HttpError 422 "Field required", init 3) /\
  Endpoints.main_post_batch_create clock_text (fun name => name) "job" [""%string] (init 3)
  = (Endpoints.HttpError 400 "No valid video files", init 3) /\
  Endpoints.flask_create_batch_job clock_text (fun name => name) (fun name => name)
    "job" [] (init 3)
  = (Endpoints.HttpError 400 "No videos provided", init 3) /\
  Endpoints.flask_create_batch_job clock_text (fun name => name) (fun name => name)
    "job" ["notes.txt"%string] (init 3)
  = (Endpoints.HttpError 400 "No valid video files", init 3).
Proof.
  destruct (empty_batch_rejected_before_create_job clock_text
              (fun name => name) (fun name => name) (fun name => name)
              "job" [] (init 3)) as (Hmain0 & _ & Hflask0 & _).
  destruct (empty_batch_rejected_before_create_job clock_text
              (fun name => name) (fun name => name) (fun name => name)
              "job" [""%string] (init 3)) as (Hmain & _ & _ & _).
  destruct (empty_batch_rejected_before_create_job clock_text
              (fun name => name) (fun name => name) (fun name => name)
              "job" ["notes.txt"%string] (init 3)) as (_ & _ & Hflask & _).
  split; [by apply Hmain0|]. split; [by apply Hmain|].
  split; [by apply Hflask0|]. by apply Hflask.
Defined.


Lemma get_job_status_snapshot_witness :
  get_job_status "other" (create_job clock_text "job" [VStr "a.mp4"] (init 3)).2
  = (Ok None, (create_job clock_text "job" [VStr "a.mp4"] (init 3)).2) /\
  exists snapshot,
    (get_job_status "job" (create_job clock_text "job" [VStr "a.mp4"] (init 3)).2).1
    = Ok (Some snapshot) /\
    heap (create_job clock_text "job" [VStr "a.mp4"] (init 3)).2 !! snapshot = None /\
    (get_job_status "job"
       (acquire "job" (create_job clock_text "job" [VStr "a.mp4"] (init 3)).2)).1
    = Blocked.
Proof.
  assert (reachable clock_text (create_job clock_text "job" [VStr "a.mp4"] (init 3)).2)
    as Hreach by (constructor; constructor).
  split.
  - exact (get_job_status_snapshot clock_text "other" _ Hreach).
  - pose proof (get_job_status_snapshot clock_text "job" _ Hreach) as Hjob.
    destruct (jobs (create_job clock_text "job" [VStr "a.mp4"] (init 3)).2 !! "job"%string)
      as [a|] eqn:Ha; [|by vm_compute in Ha].
    destruct Hjob as (j & snapshot & _ & _ & _ & _ & Hstatus & Hnew & _ & _ & Hwait).
    exists snapshot. by rewrite Hstatus, Hwait.
Defined.

Lemma process_file_unknown_job_witness :
  process_file clock_text "other" 0 returns_none
    (create_job clock_text "job" [VStr "a.mp4"] (init 3)).2
  = (Raise (KeyError "other"), (create_job clock_text "job" [VStr "a.mp4"] (init 3)).2).
Proof.
  apply (process_file_unknown_job clock_text "other" 0 VNone VNone returns_none).
  - constructor. constructor.
  - reflexivity.
Defined.

Lemma process_file_index_out_of_range_witness :
  exists p',
    process_file clock_text "job" 7 returns_none
      (create_job clock_text "job" [VStr "a.mp4"] (init 3)).2
    = (Raise IndexError, p') /\
    view p' "job"
    = Some {| view_total := 1; view_completed := 1; view_status := "pending";
              view_results := 0; view_errors := 0 |}.
Proof.
  destruct (process_file_index_out_of_range clock_text "job" 7 returns_none
              (create_job clock_text "job" [VStr "a.mp4"] (init 3)).2 3%positive
              _ [] [] eq_refl eq_refl eq_refl eq_refl)
    as (p' & Hrun & _ & _ & Hview).
  exists p'. split; [exact Hrun|exact Hview].
Defined.

Lemma update_job_progress_moves_forward_witness :
  exists p' j' rs' es',
    update_job_progress clock_text "job" 0 (VStr "ok") VNone
      (create_job clock_text "job" [VStr "a.mp4"; VStr "b.mp4"] (init 3)).2
    = (Ok tt, p') /\
    cell p' 3%positive = Some (j', rs', es') /\
    completed j' = 1%Z /\ String.eqb (status j') "completed" = false.
Proof.
  destruct (update_job_progress_moves_forward clock_text "job" 0 (VStr "ok") VNone
              (create_job clock_text "job" [VStr "a.mp4"; VStr "b.mp4"] (init 3)).2
              3%positive _ [] [] (VStr "a.mp4") eq_refl eq_refl eq_refl eq_refl)
    as (p' & j' & rs' & es' & Hrun & Hcell & Hcompleted & Htotal & _ & _ & Hstatus & _).
  - discriminate.
  - exists p', j', rs', es'. split; [exact Hrun|]. split; [exact Hcell|].
    split; [exact Hcompleted|]. rewrite Hstatus, Hcompleted, Htotal. reflexivity.
Defined.

Lemma snapshot_shares_result_lists_witness :
  exists snapshot p1 p2,
    get_job_status "job"
      (create_job clock_text "job" [VStr "f1.mp4"; VStr "f2.mp4"] (init 3)).2
    = (Ok (Some snapshot), p1) /\
    process_file clock_text "job" 0 fails_on_f2 p1 = (Ok tt, p2) /\
    option_map view_completed (view_at p2 snapshot) = Some 0%Z /\
    option_map view_results (view_at p2 snapshot) = Some 1%nat.
Proof.
  destruct (snapshot_shares_result_lists clock_text "job" 0 fails_on_f2
              (create_job clock_text "job" [VStr "f1.mp4"; VStr "f2.mp4"] (init 3)).2
              3%positive _ [] [] (VStr "f1.mp4") eq_refl eq_refl eq_refl eq_refl)
    as (snapshot & p1 & p2 & Hstatus & Hrun & _ & Hview & _).
  - discriminate.
  - reflexivity.
  - exists snapshot, p1, p2. split; [exact Hstatus|]. split; [exact Hrun|].
    rewrite Hview. split; reflexivity.
Defined.

Lemma worker_completes_batch_witness :
  exists a p1 p2 p3 j,
    create_job clock_text "job" [VStr "f1.mp4"; VStr "f2.mp4"; VStr "f3.mp4"] (init 3)
    = (Ok a, p1) /\
    start_batch "job" p1 = (Ok 3%Z, p2) /\
    worker clock_text 4 "job" fails_on_f2 p2 = (Ok true, p3) /\
    option_map (fun c => (length c.1.2, length c.2)) (cell p3 a) = Some (2, 1)%nat /\
    completed j = 3%Z /\ status j = "completed"%string.
Proof.
  destruct (worker_completes_batch clock_text "job"
              [VStr "f1.mp4"; VStr "f2.mp4"; VStr "f3.mp4"] fails_on_f2 (init 3))
    as (a & p1 & p2 & p3 & j & Hcreate & Hstart & _ & Hwork & _ & _ & _ & Hcell
        & Hcompleted & _ & Hstatus).
  - reflexivity.
  - discriminate.
  - repeat constructor.
  - exists a, p1, p2, p3, j. split; [exact Hcreate|]. split; [exact Hstart|].
    split; [exact Hwork|]. split; [by rewrite Hcell|]. split; [exact Hcompleted|].
    exact Hstatus.
Defined.

Lemma worker_cycles_foreign_tasks_witness :
  worker clock_text 5 "job" returns_none
    (set_job_queue [("other"%string, 0%Z); ("other"%string, 1%Z)]
       (create_job clock_text "job" [VStr "a.mp4"] (init 3)).2)
  = (Ok false,
     set_job_queue [("other"%string, 1%Z); ("other"%string, 0%Z)]
       (create_job clock_text "job" [VStr "a.mp4"] (init 3)).2).
Proof.
  apply (worker_cycles_foreign_tasks clock_text 5 "job" returns_none
           (set_job_queue [("other"%string, 0%Z); ("other"%string, 1%Z)]
              (create_job clock_text "job" [VStr "a.mp4"] (init 3)).2)).
  - discriminate.
  - repeat constructor.
Defined.

Lemma methods_release_their_locks_witness :
  locks (process_file clock_text "job" 7 returns_none
           (create_job clock_text "job" [VStr "a.mp4"] (init 3)).2).2 !! "job"%string
  = Some false /\
  exists snapshot,
    (get_job_status "job"
       (process_file clock_text "job" 7 returns_none
          (create_job clock_text "job" [VStr "a.mp4"] (init 3)).2).2).1
    = Ok (Some snapshot).
Proof.
  set (p := (process_file clock_text "job" 7 returns_none
               (create_job clock_text "job" [VStr "a.mp4"] (init 3)).2).2).
  assert (reachable clock_text p) as Hreach by (do 3 constructor).
  destruct (methods_release_their_locks clock_text p Hreach)
    as (Hfree & _ & _ & _ & Hstatus & _).
  split.
  - destruct (locks p !! "job"%string) as [[]|] eqn:Hlock.
    + by destruct (Hfree "job"%string).
    + reflexivity.
    + by vm_compute in Hlock.
  - destruct (get_job_status "job" p).1 as [[snapshot|]|e|] eqn:Hrun.
    + by exists snapshot.
    + by vm_compute in Hrun.
    + by vm_compute in Hrun.
    + by destruct (Hstatus "job"%string).
Defined.

Lemma served_jobs_stay_consistent_witness :
  exists j rs es,
    cell (worker clock_text 3 "job" raises_silently
            (start_batch "job"
               (create_job clock_text "job" [VStr "a.mp4"; VStr "b.mp4"] (init 3)).2).2).2
      3%positive
    = Some (j, rs, es) /\
    (Z.of_nat (length rs + length es) <= completed j)%Z.
Proof.
  destruct (served_jobs_stay_consistent clock_text
              (worker clock_text 3 "job" raises_silently
                 (start_batch "job"
                    (create_job clock_text "job" [VStr "a.mp4"; VStr "b.mp4"]
                       (init 3)).2).2).2 "job" 3%positive)
    as (_ & j & rs & es & Hcell & _ & Hcount & _).
  - do 4 constructor.
  - reflexivity.
  - by exists j, rs, es.
Defined.

Lemma status_endpoints_answer_witness :
  Endpoints.main_get_batch_status "other"
    (process_file clock_text "job" 0 returns_nan
       (create_job clock_text "job" [VStr "f1.mp4"; VStr "f2.mp4"] (init 3)).2).2
  = (Endpoints.StatusError 404 "Job not found",
     (process_file clock_text "job" 0 returns_nan
        (create_job clock_text "job" [VStr "f1.mp4"; VStr "f2.mp4"] (init 3)).2).2) /\
  (exists j rs es,
     (Endpoints.flask_get_batch_status "job"
        (process_file clock_text "job" 0 returns_nan
           (create_job clock_text "job" [VStr "f1.mp4"; VStr "f2.mp4"] (init 3)).2).2).1
     = Endpoints.StatusJson j rs es) /\
  (Endpoints.main_get_batch_status "job"
     (process_file clock_text "job" 0 returns_nan
        (create_job clock_text "job" [VStr "f1.mp4"; VStr "f2.mp4"] (init 3)).2).2).1
  = Endpoints.StatusError 500 "Internal Server Error".
Proof.
  set (p := (process_file clock_text "job" 0 returns_nan
               (create_job clock_text "job" [VStr "f1.mp4"; VStr "f2.mp4"] (init 3)).2).2).
  assert (served clock_text p) as Hserved by (do 3 constructor).
  pose proof (status_endpoints_answer clock_text p "other" Hserved) as Hother.
  pose proof (status_endpoints_answer clock_text p "job" Hserved) as Hjob.
  destruct (jobs p !! "other"%string) as [a|] eqn:Eother; [by vm_compute in Eother|].
  destruct (jobs p !! "job"%string) as [a|] eqn:Ejob; [|by vm_compute in Ejob].
  split; [by destruct Hother|].
  destruct Hjob as (j & rs & es & Hcell & Hflask & Hmain & _).
  split; [by exists j, rs, es|].
  rewrite Hmain. vm_compute in Ejob. injection Ejob as <-.
  vm_compute in Hcell. injection Hcell as <- <- <-. reflexivity.
Defined.

Lemma batch_entries_name_the_upload_witness :
  exists a p1 p2 j,
    Endpoints.main_post_batch_create clock_text (fun name => "uploads/" +:+ name) "job"
      [""; "f1.mp4"; "f2.mp4"]%string (init 3)
    = (Endpoints.HttpJson
         [("job_id"%string, VStr "job"); ("total_files"%string, VInt 2);
          ("status"%string, VStr "pending")], p1) /\
    jobs p1 !! "job"%string = Some a /\
    process_file clock_text "job" 1%Z
      (fun path => inl (PyExn "ValueError" "cannot open video")) p1 = (Ok tt, p2) /\
    cell p2 a
    = Some (j, [],
            [VDict [("file_index"%string, VInt 1);
                    ("filename"%string, VStr "f2.mp4");
                    ("error"%string, VStr "cannot open video")]]).
Proof.
  exact (proj1 (batch_entries_name_the_upload clock_text
                  (fun name => "uploads/" +:+ name) (fun name => name) (fun name => name)
                  "job" [""; "f1.mp4"; "f2.mp4"]%string 1 "f2.mp4"
                  (fun path => inl (PyExn "ValueError" "cannot open video")) (init 3))
           eq_refl eq_refl).
Defined.

End BatchProps.

(** ** Properties of the upload filter of app.py *)

Module EndpointsProps.

Import Endpoints.

Lemma extension_no_dot name : has_dot name = false -> extension name = None.
Proof.
  induction name as [|c rest IH]; [done|]. cbn.
  destruct (Ascii.eqb c "."); [done|]. cbn. intros Hrest. by rewrite IH.
Qed.

Lemma extension_last stem ext :
  has_dot ext = false -> extension (stem +:+ "." +:+ ext) = Some ext.
Proof.
  intros Hext. induction stem as [|c rest IH].
  - change (extension (String "." ext) = Some ext). cbn [extension].
    by rewrite extension_no_dot.
  - change (extension (String c (rest +:+ "." +:+ ext)) = Some ext). cbn [extension].
    by rewrite IH.
Qed.

(** The upload filter looks at the last extension only, and not at its
    case. A name with no dot is refused. A name [stem.ext], where [ext] has
    no dot, is accepted exactly if [ext] in lower case is one of mp4, avi,
    mov, mkv and webm, whatever [stem] is: it may be empty, and it may end
    in another extension. *)
Theorem allowed_file_last_extension :
  (forall name, has_dot name = false -> allowed_file name = false) /\
  (forall stem ext,
     has_dot ext = false ->
     allowed_file (stem +:+ "." +:+ ext)
     = existsb (String.eqb (lower_all ext)) ALLOWED_EXTENSIONS).
Proof.
  split.
  - intros name Hname. unfold allowed_file. by rewrite extension_no_dot.
  - intros stem ext Hext. unfold allowed_file. by rewrite extension_last.
Qed.

Example allowed_file_examples :
  allowed_file "clip.MP4" = true /\ allowed_file "clip.mp4.exe" = false /\
  allowed_file "clip.exe.mp4" = true /\ allowed_file ".webm" = true /\
  allowed_file "mp4" = false.
Proof. vm_compute. repeat split. Qed.

End EndpointsProps.

(** ** Properties of the educational content *)

Module EducationalProps.

Import Educational FloatFacts.
Local Open Scope string_scope.
Local Open Scope float_scope.

(** The two score-dependent parts of the content on a result whose trust
    score and overall quality are floats. *)
Lemma risk_assessment_float ar s d :
  getitem ar "trust_score" = inr (VFloat s) ->
  getitem ar "decision" = inr d ->
  exists level color description,
    generate_risk_assessment ar
    = inr (VDict [ ("level", VStr level); ("color", VStr color);
                   ("description", VStr description);
                   ("confidence", VFloat (abs (s - 0.5) * 2)) ]) /\
    level = (if geb s 0.7 then "Low" else if geb s 0.4 then "Medium" else "High").
Proof.
  intros Hs Hd. unfold generate_risk_assessment. rewrite Hs, Hd. cbn [and_then compared operand].
  destruct (geb s 0.7); [|destruct (geb s 0.4)]; by eexists _, _, _.
Qed.

Lemma recommendations_float ar s q :
  getitem ar "trust_score" = inr (VFloat s) ->
  (let? qa := getitem ar "quality_assessment" in getitem qa "overall") = inr (VFloat q) ->
  exists recs,
    generate_recommendations ar = inr (VList recs) /\
    titles recs
    = ((if q <? 0.5 then ["Obtain Higher Quality Source"] else []) ++
       (if s <? 0.4 then ["Treat as Potentially Manipulated"; "Report to Platforms"]
        else if s <? 0.7 then ["Verify Through Alternative Sources"; "Consult Experts"]
        else ["Content Appears Authentic"; "Save Verification Record"]) ++
       ["Learn More About Deepfakes"])%list.
Proof.
  intros Hs Hq. unfold generate_recommendations. rewrite Hs. cbn [and_then].
  destruct (getitem ar "quality_assessment") as [e|qa]; [discriminate|].
  cbn [and_then] in *. rewrite Hq. cbn [and_then compared].
  eexists. split; [reflexivity|].
  destruct (q <? 0.5); (destruct (s <? 0.4); [|destruct (s <? 0.7)]); reflexivity.
Qed.

(** The risk level and the advice are cut at the same two scores, 0.4 and
    0.7, one with [>=] and the other with [<]. On a result whose trust
    score and overall quality are floats both functions return, the list of
    recommendations has three or four entries and ends with the pointer to
    further reading, and for a score that is a number the advice goes with
    the risk level: low with "Content Appears Authentic", medium with
    "Verify Through Alternative Sources", high with "Treat as Potentially
    Manipulated". For NaN they part: the risk level is high and the advice
    is "Content Appears Authentic". *)
Theorem recommendations_follow_risk_level ar s d q :
  getitem ar "trust_score" = inr (VFloat s) ->
  getitem ar "decision" = inr d ->
  (let? qa := getitem ar "quality_assessment" in getitem qa "overall") = inr (VFloat q) ->
  exists risk recs,
    generate_risk_assessment ar = inr risk /\
    generate_recommendations ar = inr (VList recs) /\
    (3 <= length recs <= 4)%nat /\
    last (titles recs) = Some "Learn More About Deepfakes" /\
    (is_nan s = false ->
     exists level advice,
       getitem risk "level" = inr (VStr level) /\ advice ∈ titles recs /\
       (level, advice) ∈ [ ("Low", "Content Appears Authentic");
                           ("Medium", "Verify Through Alternative Sources");
                           ("High", "Treat as Potentially Manipulated") ]) /\
    (is_nan s = true ->
     getitem risk "level" = inr (VStr "High") /\
     "Content Appears Authentic" ∈ titles recs).
Proof.
  intros Hs Hd Hq.
  destruct (risk_assessment_float ar s d Hs Hd) as (level & color & text & Hrisk & Hlevel).
  destruct (recommendations_float ar s q Hs Hq) as (recs & Hrecs & Htitles).
  eexists _, recs. split; [exact Hrisk|]. split; [exact Hrecs|].
  assert (length recs = length (titles recs)) as -> by (unfold titles; by rewrite length_map).
  rewrite Htitles, Hlevel. clear Hrisk Hrecs Htitles Hlevel.
  split; [|split; [|split]].
  - destruct (q <? 0.5); (destruct (s <? 0.4); [|destruct (s <? 0.7)]); cbn; lia.
  - destruct (q <? 0.5); (destruct (s <? 0.4); [|destruct (s <? 0.7)]); reflexivity.
  - intros Hnan.
    assert ((s <? 0.7) = negb (geb s 0.7)) as H7.
    { unfold is_nan in Hnan. rewrite FloatAxioms.eqb_spec in Hnan.
      destruct (geb s 0.7) eqn:E; cbn; float_cases s. }
    assert ((s <? 0.4) = negb (geb s 0.4)) as H4.
    { unfold is_nan in Hnan. rewrite FloatAxioms.eqb_spec in Hnan.
      destruct (geb s 0.4) eqn:E; cbn; float_cases s. }
    assert (geb s 0.7 = true -> geb s 0.4 = true) as Hchain.
    { intros E. float_cases s. }
    rewrite H7, H4.
    destruct (geb s 0.7); [rewrite Hchain by done|destruct (geb s 0.4)];
      eexists _, _; (split; [reflexivity|]); (split; [|listed]);
      destruct (q <? 0.5); cbn; listed.
  - intros Hnan.
    assert (geb s 0.7 = false) as -> by (unfold geb; by apply nan_leb_r).
    assert (geb s 0.4 = false) as -> by (unfold geb; by apply nan_leb_r).
    rewrite !(nan_ltb_l s) by done.
    split; [reflexivity|]. destruct (q <? 0.5); cbn; listed.
Qed.

(** An explanation exists for each of the four signals at every float. *)
Lemma get_signal_explanation_float ty f :
  ty ∈ ["vision"; "audio"; "temporal"; "quality"] ->
  exists e, get_signal_explanation ty (VFloat f) = inr e.
Proof.
  rewrite !elem_of_cons, elem_of_nil. unfold get_signal_explanation. cbn [compared and_then].
  intros [->|[->|[->|[->|[]]]]]; destruct (geb f 0.5); by eexists.
Qed.

(** The content exists for a result that has a float at each place the
    functions read, and a decision. *)
Lemma content_of_floats ar sg qa d sv sa st sq s :
  getitem ar "signals" = inr sg ->
  getitem ar "quality_assessment" = inr qa ->
  (let? signal := getitem sg "vision" in getitem signal "score") = inr (VFloat sv) ->
  (let? signal := getitem sg "audio" in getitem signal "score") = inr (VFloat sa) ->
  (let? signal := getitem sg "temporal" in getitem signal "score") = inr (VFloat st) ->
  getitem qa "overall" = inr (VFloat sq) ->
  getitem ar "trust_score" = inr (VFloat s) ->
  getitem ar "decision" = inr d ->
  exists content, generate_educational_content ar = inr content.
Proof.
  intros Hsg Hqa Hv Ha Ht Hq Hs Hd.
  destruct (get_signal_explanation_float "vision" sv) as [ev Hev]; [listed|].
  destruct (get_signal_explanation_float "audio" sa) as [ea Hea]; [listed|].
  destruct (get_signal_explanation_float "temporal" st) as [et Het]; [listed|].
  destruct (get_signal_explanation_float "quality" sq) as [eq Heq]; [listed|].
  destruct (risk_assessment_float ar s d Hs Hd) as (level & color & text & Hrisk & _).
  destruct (recommendations_float ar s sq Hs) as (recs & Hrecs & _).
  { rewrite Hqa. exact Hq. }
  unfold generate_educational_content. rewrite Hsg, Hqa. cbn [and_then].
  destruct (getitem sg "vision") as [?|v]; [discriminate|]. cbn [and_then] in *.
  rewrite Hv. cbn [and_then]. rewrite Hev. cbn [and_then].
  destruct (getitem sg "audio") as [?|a]; [discriminate|]. cbn [and_then] in *.
  rewrite Ha. cbn [and_then]. rewrite Hea. cbn [and_then].
  destruct (getitem sg "temporal") as [?|t]; [discriminate|]. cbn [and_then] in *.
  rewrite Ht. cbn [and_then]. rewrite Het. cbn [and_then].
  rewrite Hq. cbn [and_then]. rewrite Heq. cbn [and_then].
  rewrite Hrisk, Hrecs. cbn [and_then]. by eexists.
Qed.

Import Fixtures.

Lemma recommendations_follow_risk_level_witness :
  getitem nan_result "trust_score" = inr (VFloat nan) /\
  exists risk recs,
    generate_risk_assessment nan_result = inr risk /\
    generate_recommendations nan_result = inr (VList recs) /\
    getitem risk "level" = inr (VStr "High") /\
    "Content Appears Authentic" ∈ titles recs.
Proof.
  destruct (recommendations_follow_risk_level nan_result nan (VStr "Ambiguous") 0.9)
    as (risk & recs & Hrisk & Hrecs & _ & _ & _ & Hnan); try reflexivity.
  split; [reflexivity|]. exists risk, recs.
  split; [done|]. split; [done|]. by apply Hnan.
Defined.

End EducationalProps.

(** ** Properties of the analysis of one video *)

Module AnalysisProps.

Import Signals Analysis Educational ReportGenerator FloatFacts.
Local Open Scope string_scope.
Local Open Scope float_scope.

(** A score that reaches one bound reaches the bounds below it. *)
Lemma geb_chain s :
  (geb s 0.8 = true -> geb s 0.7 = true) /\
  (geb s 0.7 = true -> geb s 0.6 = true) /\
  (geb s 0.6 = true -> geb s 0.55 = true) /\
  (geb s 0.55 = true -> geb s 0.45 = true) /\
  (geb s 0.45 = true -> geb s 0.4 = true) /\
  (geb s 0.4 = true -> geb s 0.3 = true) /\
  (geb s 0.3 = true -> geb s 0.2 = true).
Proof. repeat split; intros E; float_cases s. Qed.

Lemma report_confidence ts signals qa :
  ScoreFusion.confidence (ScoreFusion.generate_report ts signals qa)
  = (ScoreFusion.decide_band ts).2.
Proof. unfold ScoreFusion.generate_report. by destruct (ScoreFusion.decide_band ts). Qed.

Lemma joint_bands_spec s :
  (final_decision s, (ScoreFusion.decide_band s).2) = joint_bands s.
Proof.
  destruct (geb_chain s) as (C8 & C7 & C6 & C55 & C45 & C4 & C3).
  unfold final_decision, ScoreFusion.decide_band, joint_bands.
  destruct (geb s 0.8) eqn:E8.
  { by rewrite (C8 eq_refl). }
  destruct (geb s 0.7) eqn:E7.
  { by rewrite (C7 eq_refl). }
  destruct (geb s 0.6) eqn:E6.
  { by rewrite (C6 eq_refl). }
  destruct (geb s 0.55) eqn:E55.
  { by rewrite (C45 (C55 eq_refl)). }
  destruct (geb s 0.45) eqn:E45.
  { by rewrite (C45 eq_refl). }
  destruct (geb s 0.4) eqn:E4.
  { by rewrite (C4 eq_refl). }
  destruct (geb s 0.3) eqn:E3.
  { by rewrite (C3 eq_refl). }
  by destruct (geb s 0.2).
Qed.

Section WithAnalyzers.
Context `{Analyzers}.

(** The result for a video with frames, entry by entry. *)
Lemma run_analysis_shape frame rest audio_path llm :
  exists fused answer reason vision audio temporal prediction quality sv sa st sq,
    run_analysis (frame :: rest) audio_path llm
    = VDict [ ("trust_score", VFloat (refine_score fused answer));
              ("decision", VStr (final_decision (refine_score fused answer)));
              ("confidence", VStr (ScoreFusion.decide_band fused).2);
              ("reason", VStr reason);
              ("signals",
               VDict [ ("vision", VDict (("score", VFloat sv) :: vision));
                       ("audio", VDict (("score", VFloat sa) :: audio));
                       ("temporal", VDict (("score", VFloat st) :: temporal)) ]);
              ("model_prediction", prediction);
              ("llm_analysis",
               match answer with Some a => llm_dict a | None => VNone end);
              ("quality_assessment", VDict (("overall", VFloat sq) :: quality)) ] /\
    (llm = None -> answer = None).
Proof.
  unfold run_analysis, ScoreFusion.calculate_trust_score.
  destruct (enhanced_vision (frame :: rest)) as [[sv vc] vo].
  rewrite report_confidence.
  assert (exists sa audio,
            match audio_path with
            | Some path =>
                if negb (String.eqb path "") then audio_signal audio_path
                else [("score", 0.5); ("confidence", 0.0)]
            | None => [("score", 0.5); ("confidence", 0.0)]
            end = ("score", sa) :: audio) as (sa & audio & ->).
  { destruct audio_path as [path|]; [|by eexists _, _].
    destruct (negb (String.eqb path "")); by eexists _, _. }
  assert (exists st temporal, temporal_signal (frame :: rest) = ("score", st) :: temporal)
    as (st & temporal & ->).
  { unfold temporal_signal. destruct (length (frame :: rest) <? 2)%nat; by eexists _, _. }
  eexists _, _, _, _, _, _, _, _, _, _, _, _. split; [reflexivity|].
  by intros ->.
Qed.

(** Without the LLM, decision and confidence in a result of [run_analysis]
    are both functions of its trust score, cut at different scores: the
    decision at 0.8, 0.6, 0.4 and 0.2, the confidence with the bands of the
    report at 0.7, 0.55, 0.45 and 0.3. So a score from 0.7 up to 0.8 is
    "Possibly Real" with high confidence, one from 0.2 up to 0.3 is
    "Possibly Fake" with high confidence, and "Ambiguous" has medium
    confidence on both sides of the low band. A score that is not a number
    is "Likely Fake" with high confidence. *)
Theorem decision_and_confidence_bands frames audio_path :
  frames <> [] ->
  exists s,
    getitem (run_analysis frames audio_path None) "trust_score" = inr (VFloat s) /\
    (getitem (run_analysis frames audio_path None) "decision",
     getitem (run_analysis frames audio_path None) "confidence")
    = (inr (VStr (joint_bands s).1), inr (VStr (joint_bands s).2)) /\
    (is_nan s = true -> joint_bands s = ("Likely Fake", "high")).
Proof.
  destruct frames as [|frame rest]; [done|]. intros _.
  destruct (run_analysis_shape frame rest audio_path None)
    as (fused & answer & reason & vision & audio & temporal & prediction & quality
        & sv & sa & st & sq & -> & Hnone).
  rewrite (Hnone eq_refl). exists fused. split; [reflexivity|]. split.
  - rewrite <- joint_bands_spec. reflexivity.
  - intros Hnan. unfold joint_bands, geb. by rewrite !(nan_leb_r fused).
Qed.

Section Reports.

Variable str_of : pyval -> string.
Variable format_2f : float -> string.
Variable template : list string -> string.
Variable round2 : float -> float.
Variable str_int : Z -> string.

(** The report of the Flask application, entry by entry. *)
Lemma flask_report_shape metadata frames audio_path filename :
  exists s d r sv sa st sq vision audio temporal quality duration fps resolution,
    flask_report round2 str_int metadata frames audio_path filename
    = [ ("trust_score", VFloat s); ("decision", VStr d); ("reason", VStr r);
        ("signals",
         VDict [ ("vision", VDict (("score", VFloat sv) :: vision));
                 ("audio", VDict (("score", VFloat sa) :: audio));
                 ("temporal", VDict (("score", VFloat st) :: temporal)) ]);
        ("quality_assessment", VDict (("overall", VFloat sq) :: quality));
        ("metadata",
         VDict [ ("filename", VStr filename); ("duration", duration); ("fps", fps);
                 ("resolution", VStr resolution);
                 ("frames_analyzed", VInt (Z.of_nat (length frames))) ]) ].
Proof.
  unfold flask_report.
  destruct (Scorer.trust_score _ _ _ _) as [[s d] r].
  unfold Scorer.generate_report. cbn [app].
  by eexists _, _, _, _, _, _, _, _, _, _, _, _, _, _.
Qed.

Lemma has_word_str word s : has_word word (VStr s) = inr (contains word s).
Proof. reflexivity. Qed.

(** The page for a result that has a string as decision and reason, a
    float at every score the page shows, and the four entries of the
    metadata. *)
Lemma generate_html_report_renders ar timestamp video_hash
    d s r sv sa st sq vision audio temporal quality filename duration resolution
    frames_analyzed more :
  ar = VDict [ ("trust_score", VFloat s); ("decision", VStr d); ("reason", VStr r);
                ("signals",
                 VDict [ ("vision", VDict (("score", VFloat sv) :: vision));
                         ("audio", VDict (("score", VFloat sa) :: audio));
                         ("temporal", VDict (("score", VFloat st) :: temporal)) ]);
                ("quality_assessment", VDict (("overall", VFloat sq) :: quality));
                ("metadata",
                 VDict [ ("filename", filename); ("duration", duration); ("fps", more);
                         ("resolution", resolution);
                         ("frames_analyzed", frames_analyzed) ]) ] ->
  exists color icon,
    generate_html_report str_of format_2f template ar timestamp video_hash
    = inr (template
             [ color; color; icon; str_of (VStr d); format_2f s; str_of (VStr r);
               str_of (VFloat (sv * 100)); format_2f sv;
               str_of (VFloat (sa * 100)); format_2f sa;
               str_of (VFloat (st * 100)); format_2f st;
               str_of (VFloat (sq * 100)); format_2f sq;
               str_of filename; str_of duration; str_of resolution;
               str_of frames_analyzed; video_hash; timestamp ]).
Proof.
  intros ->. unfold generate_html_report, bar.
  cbn [getitem dict_has dict_get String.eqb Ascii.eqb Bool.eqb orb andb and_then
       times_100 format_fixed].
  rewrite !has_word_str. cbn [and_then].
  destruct (contains "Real" d); [by eexists _, _|].
  cbn [and_then]. destruct (contains "Fake" d); by eexists _, _.
Qed.

(** The report page is built for the dictionary of the Flask application
    and for no result of the FastAPI application. [generate_html_report]
    reads the metadata of the video from the result; the Flask application
    adds them to its report before the call, and the page is rendered for
    every video. [run_analysis] returns no metadata, so in main.py the call
    ends with [KeyError] on ['metadata'] for every video with frames, after
    all scores have been formatted, and with [KeyError] on ['vision'] for a
    video without frames, whose result has no signals. *)
Theorem report_renders_for_flask_only frames audio_path llm metadata filename
    timestamp video_hash :
  generate_html_report str_of format_2f template (run_analysis frames audio_path llm)
    timestamp video_hash
  = inl (KeyError (match frames with [] => "vision" | _ :: _ => "metadata" end)) /\
  exists fields,
    generate_html_report str_of format_2f template
      (VDict (flask_report round2 str_int metadata frames audio_path filename))
      timestamp video_hash
    = inr (template fields) /\
    length fields = 20%nat /\
    fields !! 14%nat = Some (str_of (VStr filename)) /\
    fields !! 17%nat = Some (str_of (VInt (Z.of_nat (length frames)))).
Proof.
  split.
  - destruct frames as [|frame rest]; [reflexivity|].
    destruct (run_analysis_shape frame rest audio_path llm)
      as (fused & answer & reason & vision & audio & temporal & prediction & quality
          & sv & sa & st & sq & -> & _).
    unfold generate_html_report, bar.
    cbn [getitem dict_has dict_get String.eqb Ascii.eqb Bool.eqb orb andb and_then
         times_100 format_fixed].
    rewrite !has_word_str. cbn [and_then].
    destruct (contains "Real" _); [reflexivity|].
    cbn [and_then]. by destruct (contains "Fake" _).
  - destruct (flask_report_shape metadata frames audio_path filename)
      as (s & d & r & sv & sa & st & sq & vision & audio & temporal & quality
          & duration & fps & resolution & ->).
    edestruct generate_html_report_renders as (color & icon & Hpage); [reflexivity|].
    rewrite Hpage. by eexists.
Qed.

(** The educational content is built for every report of the Flask
    application and for every result of [run_analysis] on a video with
    frames. On a video without frames [run_analysis] returns a result
    without quality assessment, and [generate_educational_content] ends
    with [KeyError] on ['quality_assessment']: the educational endpoint of
    main.py, which has no test for frames, fails there. *)
Theorem educational_content_needs_frames frames audio_path llm metadata filename :
  (frames = [] ->
   generate_educational_content (run_analysis frames audio_path llm)
   = inl (KeyError "quality_assessment")) /\
  (frames <> [] ->
   exists content,
     generate_educational_content (run_analysis frames audio_path llm) = inr content) /\
  exists content,
    generate_educational_content
      (VDict (flask_report round2 str_int metadata frames audio_path filename))
    = inr content.
Proof.
  split; [by intros ->|]. split.
  - destruct frames as [|frame rest]; [done|]. intros _.
    destruct (run_analysis_shape frame rest audio_path llm)
      as (fused & answer & reason & vision & audio & temporal & prediction & quality
          & sv & sa & st & sq & -> & _).
    by eapply (EducationalProps.content_of_floats _ _ _ _ sv sa st sq).
  - destruct (flask_report_shape metadata frames audio_path filename)
      as (s & d & r & sv & sa & st & sq & vision & audio & temporal & quality
          & duration & fps & resolution & ->).
    by eapply (EducationalProps.content_of_floats _ _ _ _ sv sa st sq).
Qed.

End Reports.

End WithAnalyzers.

Lemma nan_not_finite d : is_nan d = true -> is_finite d = false.
Proof. intros Hnan. unfold is_finite. by rewrite Hnan. Qed.

(** The verdict of a comparison. The two applications compute it from the
    same difference of trust scores with different bounds: main.py calls
    two videos similar below 0.15, app.py unless the difference is above
    0.3. What main.py calls similar app.py does too; a difference from 0.15
    up to 0.3 is "Different" by the test of main.py and "Similar" by that
    of app.py, and so is a difference that is not a number, which is below
    no bound and above none. main.py answers with its verdict only when the
    difference is finite: the comparison entry of its answer then holds the
    difference and the verdict computed from it. When the difference is not
    a number, [JSONResponse] raises [ValueError] and the request ends in an
    error, with no verdict. *)
Theorem comparison_verdicts s1 s2 :
  (main_comparison s1 s2).1 = abs (s1 - s2) /\
  (flask_comparison s1 s2).1 = abs (s1 - s2) /\
  ((main_comparison s1 s2).2 = "Similar" -> (flask_comparison s1 s2).2 = "Similar") /\
  (geb (abs (s1 - s2)) 0.15 = true -> (abs (s1 - s2) <=? 0.3) = true ->
   (main_comparison s1 s2).2 = "Different" /\ (flask_comparison s1 s2).2 = "Similar") /\
  (is_nan (abs (s1 - s2)) = true ->
   (main_comparison s1 s2).2 = "Different" /\ (flask_comparison s1 s2).2 = "Similar") /\
  (forall filename1 filename2 entries1 entries2,
     getitem (VDict entries1) "trust_score" = inr (VFloat s1) ->
     getitem (VDict entries2) "trust_score" = inr (VFloat s2) ->
     match main_compare_videos filename1 filename2 (VDict entries1) (VDict entries2) with
     | inr content =>
         is_finite (abs (s1 - s2)) = true /\
         getitem content "comparison"
         = inr (VDict [ ("trust_score_diff"%string, VFloat (main_comparison s1 s2).1);
                        ("verdict"%string, VStr (main_comparison s1 s2).2) ])
     | inl e => e = ValueError "Out of range float values are not JSON compliant"
     end /\
     (is_nan (abs (s1 - s2)) = true ->
      main_compare_videos filename1 filename2 (VDict entries1) (VDict entries2)
      = inl (ValueError "Out of range float values are not JSON compliant"))).
Proof.
  unfold main_comparison, flask_comparison. cbn [fst snd].
  set (d := abs (s1 - s2)).
  split; [done|]. split; [done|]. split; [|split; [|split]].
  - destruct (d <? 0.15) eqn:E; [|discriminate]. intros _.
    assert (gtb d 0.3 = false) as -> by float_cases d. done.
  - intros Hlo Hhi.
    assert ((d <? 0.15) = false) as -> by float_cases d.
    assert (gtb d 0.3 = false) as -> by float_cases d. done.
  - intros Hnan. unfold gtb. by rewrite (nan_ltb_l d), (nan_ltb_r d).
  - intros filename1 filename2 entries1 entries2 Hs1 Hs2.
    unfold main_compare_videos. rewrite Hs1, Hs2.
    cbn [and_then sub int_value is_number andb operand py_abs compared with_filename].
    fold d. unfold JSONResponse.
    match goal with |- context [json_compliant ?c] =>
      assert (json_compliant c = true -> is_finite d = true) as Hfinite
    end.
    { cbn [json_compliant forallb snd]. intros Hc.
      repeat (apply andb_true_iff in Hc as [? Hc]).
      repeat match goal with
             | Hx : (_ && _)%bool = true |- _ => apply andb_true_iff in Hx as [? ?]
             end.
      done. }
    match goal with |- context [json_compliant ?c] =>
      destruct (json_compliant c) eqn:Hc
    end.
    + split; [by split; [apply Hfinite|]|].
      intros Hnan. rewrite (nan_not_finite d Hnan) in Hfinite. by specialize (Hfinite eq_refl).
    + split; [done|]. done.
Qed.

Import Fixtures.

Lemma decision_and_confidence_bands_witness :
  exists s,
    getitem (run_analysis [(4%Z, 6%Z)] None None) "trust_score" = inr (VFloat s) /\
    getitem (run_analysis [(4%Z, 6%Z)] None None) "decision" = inr (VStr "Possibly Real") /\
    getitem (run_analysis [(4%Z, 6%Z)] None None) "confidence" = inr (VStr "high").
Proof.
  destruct (@decision_and_confidence_bands flat_images flat_signals flat_analyzers
              [(4%Z, 6%Z)] None) as (s & Hs & Hpair & _);
    [done|].
  exists s. split; [done|].
  assert (s = 1.0 * 0.4 + 0.5 * 0.3 + 0.5 * 0.3) as ->.
  { assert (getitem (run_analysis [(4%Z, 6%Z)] None None) "trust_score"
            = inr (VFloat (1.0 * 0.4 + 0.5 * 0.3 + 0.5 * 0.3))) as Hv
      by (vm_compute; reflexivity).
    rewrite Hs in Hv. by injection Hv. }
  pose proof (f_equal fst Hpair) as Hd. pose proof (f_equal snd Hpair) as Hc.
  cbn [fst snd] in Hd, Hc. rewrite Hd, Hc. split; by vm_compute.
Defined.

Lemma comparison_verdicts_witness :
  main_compare_videos "a.mp4" "b.mp4"
    (VDict [("trust_score"%string, VFloat nan)]) (VDict [("trust_score"%string, VFloat 0.5)])
  = inl (ValueError "Out of range float values are not JSON compliant") /\
  (flask_comparison nan 0.5).2 = "Similar"%string.
Proof.
  destruct (comparison_verdicts nan 0.5) as (_ & _ & _ & _ & Hverdicts & Hanswer).
  destruct (Hanswer "a.mp4"%string "b.mp4"%string
              [("trust_score"%string, VFloat nan)] [("trust_score"%string, VFloat 0.5)]
              eq_refl eq_refl) as (_ & Hnan).
  split; [by apply Hnan|]. by apply Hverdicts.
Defined.

End AnalysisProps.

(** ** Properties of the frame extraction *)

Module VideoProcessingProps.

Import VideoProcessing.

Section WithFrames.
Context {Frame : Type}.
Implicit Types (stream frames : list Frame) (cap : @capture Frame).

(** The loop keeps what [kept] lists, up to the bound on the frames. *)
Lemma read_frames_kept i m stream :
  forall count frames,
    read_frames i m stream count frames
    = frames ++ take (Z.to_nat (m - Z.of_nat (length frames))) (kept i count stream).
Proof.
  induction stream as [|frame rest IH]; intros count frames; cbn [read_frames kept].
  - rewrite take_nil, app_nil_r. by destruct (_ <? _)%Z.
  - destruct (Z.of_nat (length frames) <? m)%Z eqn:Hm.
    + apply Z.ltb_lt in Hm. rewrite IH.
      destruct (count mod i =? 0)%Z; cbn [app]; [|done].
      rewrite length_app. cbn [length].
      replace (Z.to_nat (m - Z.of_nat (length frames)))
        with (S (Z.to_nat (m - Z.of_nat (length frames + 1)))) by lia.
      cbn [take]. by rewrite <- app_assoc.
    + apply Z.ltb_ge in Hm.
      replace (Z.to_nat (m - Z.of_nat (length frames))) with 0%nat by lia.
      by rewrite take_0, app_nil_r.
Qed.

Lemma opp_mod_next i c :
  (1 <= i)%Z ->
  ((- (c + 1)) mod i
   = if (c mod i =? 0)%Z then i - 1 else (- c) mod i - 1)%Z /\
  ((c mod i =? 0)%Z = true -> (- c) mod i = 0)%Z /\
  ((c mod i =? 0)%Z = false -> 1 <= (- c) mod i)%Z.
Proof.
  intros Hi.
  pose proof (Z.div_mod c i ltac:(lia)) as Hc.
  pose proof (Z.mod_pos_bound c i ltac:(lia)) as Hr.
  assert ((- (c + 1)) mod i = i - 1 - c mod i)%Z as Hnext.
  { symmetry. apply (Z.mod_unique _ _ (- (c / i) - 1)); lia. }
  assert ((- c) mod i = if (c mod i =? 0)%Z then 0 else i - c mod i)%Z as Hopp.
  { destruct (Z.eqb_spec (c mod i) 0) as [Hz|Hz]; symmetry.
    - apply (Z.mod_unique _ _ (- (c / i))); lia.
    - apply (Z.mod_unique _ _ (- (c / i) - 1)); lia. }
  rewrite Hnext, Hopp.
  destruct (Z.eqb_spec (c mod i) 0) as [Hz|Hz]; (split; [|split]); try discriminate;
    try intros _; lia.
Qed.

(** The kept frames by position: the first is the next one at a multiple
    of the interval, and they are an interval apart. *)
Lemma kept_lookup i stream :
  (1 <= i)%Z ->
  forall count k,
    kept i count stream !! k
    = stream !! (Z.to_nat ((- count) mod i) + k * Z.to_nat i)%nat.
Proof.
  intros Hi. induction stream as [|frame rest IH]; intros count k; [done|].
  cbn [kept].
  destruct (opp_mod_next i count Hi) as (Hnext & Hzero & Hpos).
  destruct (count mod i =? 0)%Z.
  - rewrite (Hzero eq_refl). cbn [app Z.to_nat Nat.add].
    destruct k as [|k]; [done|]. cbn [lookup list_lookup]. rewrite IH, Hnext.
    replace (S k * Z.to_nat i)%nat with (S (Z.to_nat (i - 1) + k * Z.to_nat i)) by lia.
    done.
  - cbn [app]. rewrite IH, Hnext. specialize (Hpos eq_refl).
    replace (Z.to_nat ((- count) mod i) + k * Z.to_nat i)%nat
      with (S (Z.to_nat ((- count) mod i - 1) + k * Z.to_nat i)) by lia.
    done.
Qed.

(** [extract_frames] on a capture that could not be opened returns no
    frame. On an open capture it returns whenever the frame interval can be
    computed, and raises what that computation raises; the interval is at
    least 1, it is 1 for every frame rate not above 5 and for NaN, and a
    rate of positive infinity raises [OverflowError]. The call returns at
    most [max_frames] frames, and the frame at position [k] of the result
    is the frame at position [k * interval] of the video for every [k]
    below [max_frames]: the first frame of the video is always the first
    frame returned. *)
Theorem extract_frames_strided cap max_frames :
  (opened cap = false -> extract_frames cap max_frames = inr []) /\
  (opened cap = true ->
   match frame_interval (frame_rate cap) with
   | inl e => extract_frames cap max_frames = inl e
   | inr interval =>
       (1 <= interval)%Z /\
       exists frames,
         extract_frames cap max_frames = inr frames /\
         (Z.of_nat (length frames) <= Z.max 0 max_frames)%Z /\
         forall k, (Z.of_nat k < max_frames)%Z ->
                   frames !! k = stream cap !! (k * Z.to_nat interval)%nat
   end) /\
  (gtb (frame_rate cap) 5 = false -> frame_interval (frame_rate cap) = inr 1%Z) /\
  frame_interval infinity
  = inl (OverflowError "cannot convert float infinity to integer").
Proof.
  split; [unfold extract_frames; by intros ->|]. split; [|split]; [| |reflexivity].
  - intros Hopen. unfold extract_frames. rewrite Hopen. cbn [negb].
    destruct (frame_interval (frame_rate cap)) as [e|interval] eqn:Hint; [done|].
    assert (1 <= interval)%Z as Hi.
    { unfold frame_interval in Hint. destruct (gtb (frame_rate cap) 5); [|by simplify_eq].
      destruct (int_checked _) as [?|n]; [discriminate|].
      cbn [and_then] in Hint. simplify_eq. lia. }
    split; [done|]. cbn [and_then]. eexists. split; [reflexivity|].
    rewrite read_frames_kept. cbn [app length].
    split.
    + rewrite length_take. lia.
    + intros k Hk. rewrite lookup_take_lt by lia.
      rewrite kept_lookup by done. by rewrite Z.mod_0_l by lia.
  - intros Hgt. unfold frame_interval. by rewrite Hgt.
Qed.

End WithFrames.

(** A video of ten frames, numbered, at 30 frames per second. *)
Lemma extract_frames_strided_witness :
  frame_interval 30 = inr 6%Z /\
  exists frames,
    extract_frames {| opened := true; frame_rate := 30%float;
                      stream := [0; 1; 2; 3; 4; 5; 6; 7; 8; 9]%nat |} 30
    = inr frames /\
    frames !! 0%nat = Some 0%nat /\ frames !! 1%nat = Some 6%nat.
Proof.
  assert (frame_interval 30 = inr 6%Z) as Hint by (by vm_compute).
  split; [done|].
  destruct (extract_frames_strided
              {| opened := true; frame_rate := 30%float;
                 stream := [0; 1; 2; 3; 4; 5; 6; 7; 8; 9]%nat |} 30)
    as (_ & Hopen & _).
  specialize (Hopen eq_refl). cbn [frame_rate] in Hopen.
  rewrite Hint in Hopen. destruct Hopen as (_ & frames & Hrun & _ & Hlook).
  exists frames. split; [done|].
  split; [by rewrite (Hlook 0%nat)|by rewrite (Hlook 1%nat)].
Defined.

End VideoProcessingProps.

